(** * WhatsApp gateway (WhatsApp.js): a shallow embedding and its properties

    The development follows the source file top-down: the JavaScript
    values the handlers manipulate, the security helpers
    ([limpiarEntrada], [validarNumeroTelefono], [generarToken],
    [verificarToken]), the two middlewares, the handlers of the client's
    events and the routes of the API. *)

From Stdlib Require Import String Ascii ZArith NArith Bool Lia Arith List.
From Stdlib Require Import DecimalString.
Import ListNotations.

Set Implicit Arguments.

(** ** JavaScript strings

    A JavaScript string is a sequence of UTF-16 code units; regular
    expressions without the [u] flag, [substring], [length] and
    [endsWith] all work on code units. *)

Definition jsstring := list N.

(** String literals are written in UTF-8 in this file; [str] gives the
    code units of the JavaScript literal (characters of the basic
    plane). *)
Fixpoint utf16_de_utf8 (l : list N) : jsstring :=
  match l with
  | [] => []
  | b0 :: t0 =>
      if (b0 <? 128)%N then b0 :: utf16_de_utf8 t0
      else
        match t0 with
        | [] => [b0]
        | b1 :: t1 =>
            if (b0 <? 224)%N then
              ((b0 mod 32) * 64 + b1 mod 64)%N :: utf16_de_utf8 t1
            else
              match t1 with
              | [] => [b0; b1]
              | b2 :: t2 =>
                  ((b0 mod 16) * 4096 + (b1 mod 64) * 64 + b2 mod 64)%N
                    :: utf16_de_utf8 t2
              end
        end
  end.

Definition str (s : string) : jsstring :=
  utf16_de_utf8 (map N_of_ascii (list_ascii_of_string s)).

Definition jseqb (a b : jsstring) : bool :=
  if list_eq_dec N.eq_dec a b then true else false.

(** [s.substring(0, n)] *)
Definition substring0 (n : N) (s : jsstring) : jsstring :=
  firstn (N.to_nat n) s.

(** [s.endsWith(suf)] *)
Definition endsWith (s suf : jsstring) : bool :=
  jseqb (skipn (length s - length suf) s) suf && (length suf <=? length s).

(** [s.replace(/re/g, '')] for a regular expression that is one
    character class: every code unit of the class is dropped. *)
Definition replace_class_g (cls : N -> bool) (s : jsstring) : jsstring :=
  filter (fun c => negb (cls c)) s.

(** ** JavaScript values

    [JObj proto props]: an ordinary object, its own enumerable
    properties in enumeration order, and its prototype when that is not
    the default one ([None] stands for [Object.prototype]).  Numbers are
    never inspected by the code modelled here and are carried as
    integers. *)

#[local] Unset Elimination Schemes.
Inductive JsVal : Type :=
| JUndefined
| JNull
| JBool (b : bool)
| JNum (n : Z)
| JStr (s : jsstring)
| JArr (elems : list JsVal)
| JObj (proto : option JsVal) (props : list (jsstring * JsVal)).
#[local] Set Elimination Schemes.

Section JsVal_induction.
Variable P : JsVal -> Prop.
Hypothesis Hundef : P JUndefined.
Hypothesis Hnull : P JNull.
Hypothesis Hbool : forall b, P (JBool b).
Hypothesis Hnum : forall n, P (JNum n).
Hypothesis Hstr : forall s, P (JStr s).
Hypothesis Harr : forall l, Forall P l -> P (JArr l).
Hypothesis Hobj : forall pr ps,
    (forall v, pr = Some v -> P v) ->
    Forall (fun kv => P (snd kv)) ps -> P (JObj pr ps).

Fixpoint JsVal_nested_ind (v : JsVal) : P v :=
  match v with
  | JUndefined => Hundef
  | JNull => Hnull
  | JBool b => Hbool b
  | JNum n => Hnum n
  | JStr s => Hstr s
  | JArr l =>
      Harr ((fix go (l : list JsVal) : Forall P l :=
               match l with
               | [] => Forall_nil P
               | x :: t => Forall_cons x (JsVal_nested_ind x) (go t)
               end) l)
  | JObj pr ps =>
      Hobj
        (match pr as o return (forall v, o = Some v -> P v) with
         | Some w => fun v (E : Some w = Some v) =>
                       match E in (_ = o') return
                             (match o' with Some v' => P v' | None => True end)
                       with eq_refl => JsVal_nested_ind w end
         | None => fun v (E : None = Some v) =>
                     match E in (_ = o') return
                           (match o' with Some v' => P v' | None => True end)
                     with eq_refl => I end
         end)
        ((fix go (l : list (jsstring * JsVal))
          : Forall (fun kv => P (snd kv)) l :=
            match l with
            | [] => Forall_nil _
            | kv :: t =>
                Forall_cons (P := fun kv => P (snd kv)) kv
                  (JsVal_nested_ind (snd kv)) (go t)
            end) ps)
  end.
End JsVal_induction.

(** [typeof v === 'object' && v !== null] *)
Definition es_contenedor (v : JsVal) : bool :=
  match v with
  | JArr _ | JObj _ _ => true
  | _ => false
  end.

(** JavaScript truthiness, as used by [if (v)], [!v] and [a || b]. *)
Definition truthy (v : JsVal) : bool :=
  match v with
  | JUndefined | JNull => false
  | JBool b => b
  | JNum n => negb (n =? 0)%Z
  | JStr s => match s with [] => false | _ => true end
  | JArr _ | JObj _ _ => true
  end.

(** ** limpiarEntrada *)

(** The class [[\x00-\x09\x0B\x0C\x0E-\x1F\x7F]]. *)
Definition es_control (c : N) : bool :=
  ((c <=? 9) || (c =? 11) || (c =? 12)
   || ((14 <=? c) && (c <=? 31)) || (c =? 127))%N.

(** [valor.replace(/[\x00-\x09\x0B\x0C\x0E-\x1F\x7F]/g, '').substring(0, 10000)] *)
Definition limpiarCadena (valor : jsstring) : jsstring :=
  substring0 10000 (replace_class_g es_control valor).

Definition clave_proto : jsstring := str "__proto__".

(** [resultado[clave] = valor] on an object built from [{}].  An own
    property is overwritten where it stands or added at the end.  The
    key [__proto__] is not an own property of such an object: the
    assignment reaches the accessor of [Object.prototype], which
    replaces the prototype when the value is an object or [null] and
    does nothing otherwise. *)
Fixpoint props_set (ps : list (jsstring * JsVal)) (clave : jsstring)
         (valor : JsVal) : list (jsstring * JsVal) :=
  match ps with
  | [] => [(clave, valor)]
  | (k, v) :: t =>
      if jseqb k clave then (k, valor) :: t
      else (k, v) :: props_set t clave valor
  end.

Definition obj_set (o : option JsVal * list (jsstring * JsVal))
           (clave : jsstring) (valor : JsVal)
  : option JsVal * list (jsstring * JsVal) :=
  if jseqb clave clave_proto then
    match valor with
    | JNull | JArr _ | JObj _ _ => (Some valor, snd o)
    | _ => o
    end
  else (fst o, props_set (snd o) clave valor).

(** The body of the loop: what is stored under [clave]. *)
Definition paso (rec : JsVal -> JsVal) (valor : JsVal) : JsVal :=
  match valor with
  | JStr s => JStr (limpiarCadena s)
  | JArr _ | JObj _ _ => rec valor
  | _ => valor
  end.

(** The source function.  The loop [for (const clave in obj)] visits the
    own enumerable properties in order (the inherited ones are skipped by
    the [hasOwnProperty] test); over an array these are its indices, and
    assigning them in order to [[]] rebuilds an array of the same
    length. *)
Fixpoint limpiarEntrada (obj : JsVal) : JsVal :=
  match obj with
  | JArr elems => JArr (map (paso limpiarEntrada) elems)
  | JObj _ props =>
      let resultado :=
        fold_left
          (fun resultado kv =>
             obj_set resultado (fst kv) (paso limpiarEntrada (snd kv)))
          props (None, []) in
      JObj (fst resultado) (snd resultado)
  | _ => obj
  end.

(** ** validarNumeroTelefono *)

(** [\d] *)
Definition es_digito (c : N) : bool := ((48 <=? c) && (c <=? 57))%N.

(** [\s]: the white space and line terminator code units of
    ECMAScript. *)
Definition es_espacio (c : N) : bool :=
  (((9 <=? c) && (c <=? 13)) || (c =? 32) || (c =? 160) || (c =? 5760)
   || ((8192 <=? c) && (c <=? 8202)) || (c =? 8232) || (c =? 8233)
   || (c =? 8239) || (c =? 8287) || (c =? 12288) || (c =? 65279))%N.

(** The class [[\d\s\-\+\(\)]] of [patron]. *)
Definition clase_patron (c : N) : bool :=
  (es_digito c || es_espacio c || (c =? 45) || (c =? 43)
   || (c =? 40) || (c =? 41))%N.

(** [/^[cls]{lo,hi}$/.test(s)]: the matcher consumes code units of the
    class, at most [hi] of them, and then needs the end of the input
    after at least [lo]. *)
Fixpoint test_clase_rango (cls : N -> bool) (lo hi : nat) (s : jsstring)
         {struct s} : bool :=
  match s with
  | [] => Nat.eqb lo 0
  | c :: t =>
      match hi with
      | O => false
      | S hi' => cls c && test_clase_rango cls (Nat.pred lo) hi' t
      end
  end.

Definition validarNumeroTelefono (numero : jsstring) : bool :=
  test_clase_rango clase_patron 7 20 (replace_class_g es_espacio numero).

(** ** Tokens: generarToken and verificarToken

    [jsonwebtoken] is a dependency of the program, not part of it: its
    two functions are parameters of the model.  [sign] receives the
    payload, the secret, the life span in seconds that the library reads
    from [expiresIn] and the clock (milliseconds, [Date.now()]);
    [verify] receives the token, the secret and the clock, and either
    returns the decoded payload or throws. *)

Record DatosToken := {
  dt_usuario : jsstring;
  dt_permisos : list jsstring
}.

Record Claims := {
  usuario : jsstring;
  permisos : list jsstring;
  iat : Z;
  exp : Z
}.

Inductive ErrorJwt :=
| JsonWebTokenError (message : jsstring)
| TokenExpiredError (expiredAt : Z)
| NotBeforeError (date : Z).

Record Jsonwebtoken := {
  jwt_sign : DatosToken -> jsstring -> Z -> Z -> jsstring;
  jwt_verify : jsstring -> jsstring -> Z -> ErrorJwt + Claims
}.

(** ['24h'], in seconds. *)
Definition expiresIn_24h : Z := 24 * 60 * 60.

Definition generarToken (jwt : Jsonwebtoken) (JWT_SECRET : jsstring)
           (datos : DatosToken) (ahora : Z) : jsstring :=
  jwt_sign jwt datos JWT_SECRET expiresIn_24h ahora.

(** [try { return jwt.verify(token, JWT_SECRET) } catch (error) { return null }] *)
Definition verificarToken (jwt : Jsonwebtoken) (JWT_SECRET : jsstring)
           (token : jsstring) (ahora : Z) : option Claims :=
  match jwt_verify jwt token JWT_SECRET ahora with
  | inr datos => Some datos
  | inl _ => None
  end.

(** ** The state of the gateway

    The four [let] variables of the program. *)

Record InfoMensaje := {
  de : jsstring;
  cuerpo : jsstring;
  esGrupo : bool;
  nombreGrupo : jsstring;
  autor : jsstring;
  nombreAutor : jsstring;
  numeroAutor : jsstring;
  idMensaje : jsstring;
  marcaTiempo : jsstring
}.

Record Estado := {
  estadoBot : jsstring;
  codigoQR : option jsstring;
  clienteListo : bool;
  mensajesEntrantes : list InfoMensaje
}.

Definition estadoInicial : Estado :=
  {| estadoBot := str "inicializando";
     codigoQR := None;
     clienteListo := false;
     mensajesEntrantes := [] |}.

(** ** Events of the WhatsApp client that drive the connection state

    Console output and the reconnection timer armed by [disconnected]
    leave the four variables alone and are not part of the state. *)

Inductive EventoCliente :=
| EvQr (qr : jsstring)
| EvLoadingScreen (porcentaje mensaje : jsstring)
| EvAuthenticated
| EvAuthFailure (mensaje : jsstring)
| EvReady
| EvDisconnected (razon : jsstring).

Definition alEvento (ev : EventoCliente) (st : Estado) : Estado :=
  match ev with
  | EvQr qr =>
      {| estadoBot := str "esperando_qr";
         codigoQR := Some qr;
         clienteListo := clienteListo st;
         mensajesEntrantes := mensajesEntrantes st |}
  | EvLoadingScreen porcentaje _ =>
      {| estadoBot := str "cargando_" ++ porcentaje;
         codigoQR := codigoQR st;
         clienteListo := clienteListo st;
         mensajesEntrantes := mensajesEntrantes st |}
  | EvAuthenticated =>
      {| estadoBot := str "autenticado";
         codigoQR := codigoQR st;
         clienteListo := clienteListo st;
         mensajesEntrantes := mensajesEntrantes st |}
  | EvAuthFailure _ =>
      {| estadoBot := str "error_autenticacion";
         codigoQR := None;
         clienteListo := clienteListo st;
         mensajesEntrantes := mensajesEntrantes st |}
  | EvReady =>
      {| estadoBot := str "conectado";
         codigoQR := None;
         clienteListo := true;
         mensajesEntrantes := mensajesEntrantes st |}
  | EvDisconnected _ =>
      {| estadoBot := str "desconectado";
         codigoQR := None;
         clienteListo := false;
         mensajesEntrantes := mensajesEntrantes st |}
  end.

Definition alEventos (evs : list EventoCliente) (st : Estado) : Estado :=
  fold_left (fun st ev => alEvento ev st) evs st.

(** ** The outside world

    What the handlers ask of the WhatsApp client, of the file system and
    of the other libraries.  Every call either returns or throws; an
    exception carries its [message] and its [stack]. *)

Record Excepcion := {
  message : jsstring;
  stack : jsstring
}.

Record Mensaje := {
  from : jsstring;
  body : jsstring;
  author : option jsstring;
  id_serialized : jsstring
}.

Record Contacto := {
  co_id_serialized : jsstring;
  co_id_user : jsstring;
  co_name : option jsstring;
  co_pushname : option jsstring;
  co_number : jsstring;
  co_isGroup : bool;
  co_isMe : bool
}.

Record Chat := {
  ch_id_serialized : jsstring;
  ch_name : jsstring;
  ch_isGroup : bool;
  ch_participants : list jsstring
}.

(** What is handed to [cliente.sendMessage]: the text, or the media read
    from the file with the text as caption. *)
Inductive Contenido :=
| Texto (mensaje : jsstring)
| Medio (media : jsstring) (caption : jsstring).

Record Entorno := {
  MAX_FILE_SIZE : Z;
  RATE_LIMIT_WINDOW : Z;
  ALLOWED_ORIGINS : list jsstring;
  ahora : Z;
  fechaISO : jsstring;
  paginaEstado : jsstring;
  jwt : Jsonwebtoken;
  JWT_SECRET : jsstring;
  bcrypt_compare : jsstring -> Excepcion + bool;
  isRegisteredUser : jsstring -> Excepcion + bool;
  sendMessage : jsstring -> Contenido -> Excepcion + jsstring;
  getChats : Excepcion + list Chat;
  getContacts : Excepcion + list Contacto;
  getChat : Mensaje -> Excepcion + Chat;
  getContactById : jsstring -> Excepcion + option Contacto;
  path_resolve : jsstring -> jsstring;
  existsSync : jsstring -> bool;
  statSync_size : jsstring -> Excepcion + Z;
  fromFilePath : jsstring -> Excepcion + jsstring
}.

(** The calls a handler makes, in the order it makes them. *)
Inductive Llamada :=
| LlBcryptCompare (contrasena : jsstring)
| LlIsRegisteredUser (chatId : jsstring)
| LlSendMessage (chatId : jsstring) (contenido : Contenido)
| LlGetChats
| LlGetContacts
| LlGetChat (m : Mensaje)
| LlGetContactById (id : jsstring)
| LlPathResolve (ruta : jsstring)
| LlExistsSync (ruta : jsstring)
| LlStatSync (ruta : jsstring)
| LlFromFilePath (ruta : jsstring).

(** Calls that reach the WhatsApp client. *)
Definition es_llamada_cliente (l : Llamada) : bool :=
  match l with
  | LlIsRegisteredUser _ | LlSendMessage _ _ | LlGetChats | LlGetContacts
  | LlGetChat _ | LlGetContactById _ => true
  | _ => false
  end.

(** ** Handlers as computations

    A handler reads the outside world, reads and writes the state of the
    gateway, records the calls it makes, and returns or throws. *)

Record Mundo := {
  estado : Estado;
  traza : list Llamada
}.

Definition M (A : Type) : Type :=
  Entorno -> Mundo -> (Excepcion + A) * Mundo.

Definition ret {A} (a : A) : M A := fun _ w => (inr a, w).

Definition bind {A B} (c : M A) (k : A -> M B) : M B :=
  fun env w =>
    match c env w with
    | (inr a, w') => k a env w'
    | (inl e, w') => (inl e, w')
    end.

Declare Scope m_scope.
Delimit Scope m_scope with M.
Notation "x <- c ;; k" := (bind c (fun x => k))
  (at level 61, c at next level, right associativity) : m_scope.
Open Scope m_scope.

(** [try { c } catch (error) { h error }] *)
Definition intentar {A} (c : M A) (h : Excepcion -> M A) : M A :=
  fun env w =>
    match c env w with
    | (inr a, w') => (inr a, w')
    | (inl e, w') => h e env w'
    end.

Definition llamar {A} (l : Llamada) (resp : Entorno -> Excepcion + A) : M A :=
  fun env w =>
    (resp env, {| estado := estado w; traza := traza w ++ [l] |}).

Definition leerEstado : M Estado := fun _ w => (inr (estado w), w).

Definition leerEntorno : M Entorno := fun env w => (inr env, w).

(** [mensajesEntrantes = ms] *)
Definition conMensajes (st : Estado) (ms : list InfoMensaje) : Estado :=
  {| estadoBot := estadoBot st;
     codigoQR := codigoQR st;
     clienteListo := clienteListo st;
     mensajesEntrantes := ms |}.

Definition asignarMensajes (ms : list InfoMensaje) : M unit :=
  fun _ w =>
    (inr tt, {| estado := conMensajes (estado w) ms; traza := traza w |}).

Definition ejecutar {A} (c : M A) (env : Entorno) (st : Estado)
  : (Excepcion + A) * Mundo :=
  c env {| estado := st; traza := [] |}.

(** ** Inbound messages: [cliente.on('message', ...)] *)

(** [l.slice(-n)] *)
Definition slice_neg (A : Type) (n : nat) (l : list A) : list A :=
  skipn (length l - n) l.

(** [a || b] on strings that may be undefined, with [''] at the end. *)
Definition o_vacio (a : option jsstring) (b : jsstring) : jsstring :=
  match a with
  | Some (c :: t) => c :: t
  | _ => b
  end.

Definition infoInicial (mensaje : Mensaje) (fecha : jsstring) : InfoMensaje :=
  {| de := from mensaje;
     cuerpo := substring0 1000 (body mensaje);
     esGrupo := endsWith (from mensaje) (str "@g.us");
     nombreGrupo := [];
     autor := o_vacio (author mensaje) [];
     nombreAutor := [];
     numeroAutor := [];
     idMensaje := id_serialized mensaje;
     marcaTiempo := fecha |}.

Definition conNombreGrupo (i : InfoMensaje) (n : jsstring) : InfoMensaje :=
  {| de := de i; cuerpo := cuerpo i; esGrupo := esGrupo i;
     nombreGrupo := n;
     autor := autor i; nombreAutor := nombreAutor i;
     numeroAutor := numeroAutor i; idMensaje := idMensaje i;
     marcaTiempo := marcaTiempo i |}.

Definition conAutor (i : InfoMensaje) (nombre numero : jsstring)
  : InfoMensaje :=
  {| de := de i; cuerpo := cuerpo i; esGrupo := esGrupo i;
     nombreGrupo := nombreGrupo i;
     autor := autor i; nombreAutor := nombre;
     numeroAutor := numero; idMensaje := idMensaje i;
     marcaTiempo := marcaTiempo i |}.

(** The inner [try] of the handler: the details of a group message.
    [infoMensaje] is assigned field by field, so an exception keeps what
    was assigned before it. *)
Definition detallesGrupo (mensaje : Mensaje) (info : InfoMensaje)
  : M InfoMensaje :=
  intentar
    (chat <- llamar (LlGetChat mensaje) (fun e => getChat e mensaje) ;;
     let info1 := conNombreGrupo info (ch_name chat) in
     match author mensaje with
     | Some (c :: t) =>
         intentar
           (contacto <- llamar (LlGetContactById (c :: t))
                               (fun e => getContactById e (c :: t)) ;;
            match contacto with
            | Some co =>
                ret (conAutor info1
                       (o_vacio (co_name co) (o_vacio (co_pushname co) []))
                       (co_id_user co))
            | None => ret info1
            end)
           (fun _ => ret info1)
     | _ => ret info1
     end)
    (fun _ => ret info).

(** [mensajesEntrantes.push(infoMensaje)] and the cut to the last 100. *)
Definition agregarMensaje (info : InfoMensaje) : M unit :=
  st <- leerEstado ;;
  let ms := mensajesEntrantes st ++ [info] in
  if (100 <? length ms)%nat then asignarMensajes (slice_neg 100 ms)
  else asignarMensajes ms.

Definition alMensaje (mensaje : Mensaje) : M unit :=
  if jseqb (from mensaje) (str "status@broadcast") then ret tt
  else
    intentar
      (env <- leerEntorno ;;
       let info := infoInicial mensaje (fechaISO env) in
       info' <- (if esGrupo info then detallesGrupo mensaje info
                 else ret info) ;;
       agregarMensaje info')
      (fun _ => ret tt).

(** ** The message handler on the event loop

    The handler is an [async] function.  It runs without interruption up
    to an [await]; there it leaves the call pending and gives the event
    loop back, which may deliver further messages before the call is
    answered and the handler goes on.  A message that is not from a
    group meets no [await]: its record is appended within the turn of
    its arrival.  A group message waits for [mensaje.getChat()] and, if
    it has an author, for [cliente.getContactById(...)], and is appended
    only after them.

    A suspended handler keeps its message, the record built so far and
    the world that answers its calls. *)
Inductive Pendiente :=
| EsperaChat (env : Entorno) (mensaje : Mensaje) (info : InfoMensaje)
| EsperaContacto (env : Entorno) (mensaje : Mensaje) (info : InfoMensaje)
                 (idAutor : jsstring).

Record Sistema := {
  mundo : Mundo;
  pendientes : list Pendiente
}.

(** A turn of the event loop: the client delivers a message, or the
    call awaited by the [i]-th suspended handler is answered. *)
Inductive Turno :=
| Llega (env : Entorno) (mensaje : Mensaje)
| Reanuda (i : nat).

Definition registrarLlamada (ll : Llamada) (w : Mundo) : Mundo :=
  {| estado := estado w; traza := traza w ++ [ll] |}.

Definition empujar (info : InfoMensaje) (env : Entorno) (w : Mundo) : Mundo :=
  snd (agregarMensaje info env w).

(** From the event to the first [await], or to the end. *)
Definition alLlegar (env : Entorno) (mensaje : Mensaje) (s : Sistema)
  : Sistema :=
  if jseqb (from mensaje) (str "status@broadcast") then s
  else
    let info := infoInicial mensaje (fechaISO env) in
    if esGrupo info then
      {| mundo := registrarLlamada (LlGetChat mensaje) (mundo s);
         pendientes := pendientes s ++ [EsperaChat env mensaje info] |}
    else
      {| mundo := empujar info env (mundo s);
         pendientes := pendientes s |}.

(** From an [await] to the next one, or to the end.  A rejected call is
    caught by the [try] around it and the record goes on as it is. *)
Definition alReanudar (p : Pendiente) (w : Mundo) : Mundo * option Pendiente :=
  match p with
  | EsperaChat env mensaje info =>
      match getChat env mensaje with
      | inl _ => (empujar info env w, None)
      | inr chat =>
          let info1 := conNombreGrupo info (ch_name chat) in
          match author mensaje with
          | Some (c :: t) =>
              (registrarLlamada (LlGetContactById (c :: t)) w,
               Some (EsperaContacto env mensaje info1 (c :: t)))
          | _ => (empujar info1 env w, None)
          end
      end
  | EsperaContacto env mensaje info1 idAutor =>
      match getContactById env idAutor with
      | inr (Some co) =>
          (empujar (conAutor info1
                      (o_vacio (co_name co) (o_vacio (co_pushname co) []))
                      (co_id_user co)) env w,
           None)
      | _ => (empujar info1 env w, None)
      end
  end.

Definition turno (t : Turno) (s : Sistema) : Sistema :=
  match t with
  | Llega env mensaje => alLlegar env mensaje s
  | Reanuda i =>
      match nth_error (pendientes s) i with
      | None => s
      | Some p =>
          {| mundo := fst (alReanudar p (mundo s));
             pendientes :=
               firstn i (pendientes s)
                 ++ match snd (alReanudar p (mundo s)) with
                    | Some p' => [p']
                    | None => []
                    end
                 ++ skipn (S i) (pendientes s) |}
      end
  end.

Definition turnos (ts : list Turno) (s : Sistema) : Sistema :=
  fold_left (fun s t => turno t s) ts s.

Definition sinPendientes (w : Mundo) : Sistema :=
  {| mundo := w; pendientes := [] |}.

(** ** Requests and responses *)

Record Respuesta := {
  status : Z;
  json : JsVal
}.

(** An object literal. *)
Definition objeto (ps : list (jsstring * JsVal)) : JsVal := JObj None ps.

(** [res.json(x)] and [res.status(n).json(x)] *)
Definition res_json (x : JsVal) : Respuesta := {| status := 200; json := x |}.
Definition res_status_json (n : Z) (x : JsVal) : Respuesta :=
  {| status := n; json := x |}.

(** Own property of an object literal ([undefined] when absent). *)
Fixpoint props_get (ps : list (jsstring * JsVal)) (clave : jsstring) : JsVal :=
  match ps with
  | [] => JUndefined
  | (k, v) :: t => if jseqb k clave then v else props_get t clave
  end.

Definition campo (v : JsVal) (clave : string) : JsVal :=
  match v with
  | JObj _ ps => props_get ps (str clave)
  | _ => JUndefined
  end.

Definition cadena_de_Z (z : Z) : jsstring :=
  str (NilZero.string_of_int (Z.to_int z)).

Definition json_de_info (i : InfoMensaje) : JsVal :=
  objeto [(str "de", JStr (de i));
          (str "cuerpo", JStr (cuerpo i));
          (str "esGrupo", JBool (esGrupo i));
          (str "nombreGrupo", JStr (nombreGrupo i));
          (str "autor", JStr (autor i));
          (str "nombreAutor", JStr (nombreAutor i));
          (str "numeroAutor", JStr (numeroAutor i));
          (str "idMensaje", JStr (idMensaje i));
          (str "marcaTiempo", JStr (marcaTiempo i))].

(** The fields on which the handler of [POST /api/enviar-mensaje] works,
    as they are before cleaning: two strings, an optional string and a
    value that is read as a boolean.  For a body without a [__proto__]
    member they are its own members; in general they are what the
    destructuring finds, see [camposEnvio]. *)
Record CuerpoEnvio := {
  ce_destino : jsstring;
  ce_mensaje : jsstring;
  ce_rutaArchivo : option jsstring;
  ce_esGrupo : JsVal
}.

(** A body with these members and no other, as [express.json()] leaves
    it in [req.body]. *)
Definition cuerpoJson (c : CuerpoEnvio) : JsVal :=
  objeto ([(str "destino", JStr (ce_destino c));
           (str "mensaje", JStr (ce_mensaje c))]
            ++ match ce_rutaArchivo c with
               | Some r => [(str "rutaArchivo", JStr r)]
               | None => []
               end
            ++ match ce_esGrupo c with
               | JUndefined => []
               | v => [(str "esGrupo", v)]
               end).

(** The own property [clave], if there is one. *)
Fixpoint propia (ps : list (jsstring * JsVal)) (clave : jsstring)
  : option JsVal :=
  match ps with
  | [] => None
  | (k, v) :: t => if jseqb k clave then Some v else propia t clave
  end.

(** [o[clave]] for a name that is neither an index nor a member of the
    built-in prototypes: the own property or else that of the prototype,
    up the chain; an array or [null] at the end of the chain has
    none. *)
Fixpoint leer (o : JsVal) (clave : jsstring) : JsVal :=
  match o with
  | JObj proto ps =>
      match propia ps clave with
      | Some v => v
      | None =>
          match proto with
          | Some p => leer p clave
          | None => JUndefined
          end
      end
  | _ => JUndefined
  end.

(** [const { destino, mensaje, rutaArchivo, esGrupo = false } =
    datosSanitizados]: the handler goes on with [destino] and [mensaje]
    as strings and with [rutaArchivo] as a string when there is one. *)
Definition camposEnvio (datosSanitizados : JsVal) : option CuerpoEnvio :=
  match leer datosSanitizados (str "destino"),
        leer datosSanitizados (str "mensaje") with
  | JStr destino, JStr mensaje =>
      match leer datosSanitizados (str "rutaArchivo") with
      | JUndefined =>
          Some {| ce_destino := destino; ce_mensaje := mensaje;
                  ce_rutaArchivo := None;
                  ce_esGrupo := leer datosSanitizados (str "esGrupo") |}
      | JStr rutaArchivo =>
          Some {| ce_destino := destino; ce_mensaje := mensaje;
                  ce_rutaArchivo := Some rutaArchivo;
                  ce_esGrupo := leer datosSanitizados (str "esGrupo") |}
      | _ => None
      end
  | _, _ => None
  end.

Inductive Ruta :=
| PostAuth (contrasena : jsstring)
| GetEstado
| PostEnviarMensaje (c : CuerpoEnvio)
| GetGrupos
| GetContactos
| GetMensajesRecibidos (limpiar : JsVal)
| GetVerificarNumero (numero : jsstring)
| GetRaiz
| OtraRuta.

(** An error handed to [next]: the body parser marks its errors with a
    [type]. *)
Record ErrorExpress := {
  err_type : option jsstring;
  err_excepcion : Excepcion
}.

(** A request, with the verdicts of the libraries that run before the
    handlers: the two rate limiters, the body parser and the validators
    of the route ([validationResult(req).array()]). *)
Record Peticion := {
  ruta : Ruta;
  origin : option jsstring;
  authorization : option jsstring;
  x_api_key : option jsstring;
  limiteGeneralExcedido : bool;
  limiteMensajesExcedido : bool;
  errorCuerpo : option ErrorExpress;
  errores : list JsVal
}.

(** ** The middlewares *)

Fixpoint es_prefijo (pre s : jsstring) : bool :=
  match pre, s with
  | [], _ => true
  | p :: pre', c :: s' => (p =? c)%N && es_prefijo pre' s'
  | _ :: _, [] => false
  end.

(** [s.replace(pat, '')] with a string pattern: the first occurrence. *)
Fixpoint replace_primera (pat s : jsstring) : jsstring :=
  if es_prefijo pat s then skipn (length pat) s
  else
    match s with
    | [] => []
    | c :: t => c :: replace_primera pat t
    end.

(** [req.headers.authorization?.replace('Bearer ', '') || req.headers['x-api-key']],
    [None] when the result is falsy. *)
Definition tokenDePeticion (req : Peticion) : option jsstring :=
  match option_map (replace_primera (str "Bearer ")) (authorization req) with
  | Some (c :: t) => Some (c :: t)
  | _ =>
      match x_api_key req with
      | Some (c :: t) => Some (c :: t)
      | _ => None
      end
  end.

(** A middleware answers, or calls [next] (here with what it attached to
    the request). *)
Definition requiereAutenticacion (env : Entorno) (req : Peticion)
  : Respuesta + Claims :=
  match tokenDePeticion req with
  | None =>
      inl (res_status_json 401
             (objeto [(str "exito", JBool false);
                      (str "error", JStr (str "Token de autenticación requerido"));
                      (str "mensaje",
                       JStr (str "Incluye el token en el header Authorization: Bearer <token>"))]))
  | Some token =>
      match verificarToken (jwt env) (JWT_SECRET env) token (ahora env) with
      | None =>
          inl (res_status_json 401
                 (objeto [(str "exito", JBool false);
                          (str "error", JStr (str "Token inválido o expirado"))]))
      | Some datosToken => inr datosToken
      end
  end.

Definition respuestaNoConectado (st : Estado) : Respuesta :=
  res_status_json 503
    (objeto [(str "exito", JBool false);
             (str "error", JStr (str "WhatsApp no está conectado"));
             (str "estado", JStr (estadoBot st));
             (str "mensaje",
              JStr (if jseqb (estadoBot st) (str "esperando_qr")
                    then str "Escanea el código QR primero"
                    else str "Espera a que WhatsApp se conecte"))]).

Definition requiereConexion (st : Estado) : Respuesta + unit :=
  if negb (clienteListo st) || negb (jseqb (estadoBot st) (str "conectado"))
  then inl (respuestaNoConectado st)
  else inr tt.

(** ** The routes *)

Definition respuestaValidacion (errs : list JsVal) : Respuesta :=
  res_status_json 400
    (objeto [(str "exito", JBool false); (str "errores", JArr errs)]).

Definition error400 (texto : jsstring) : Respuesta :=
  res_status_json 400
    (objeto [(str "exito", JBool false); (str "error", JStr texto)]).

Definition error500 (texto : jsstring) : Respuesta :=
  res_status_json 500
    (objeto [(str "exito", JBool false); (str "error", JStr texto)]).

Definition datosApi : DatosToken :=
  {| dt_usuario := str "api_user";
     dt_permisos := [str "enviar_mensajes"; str "leer_mensajes"] |}.

(** [POST /api/auth] *)
Definition postAuth (req : Peticion) (contrasena : jsstring) : M Respuesta :=
  match errores req with
  | _ :: _ => ret (respuestaValidacion (errores req))
  | [] =>
      intentar
        (let contrasena := limpiarCadena contrasena in
         esValida <- llamar (LlBcryptCompare contrasena)
                            (fun e => bcrypt_compare e contrasena) ;;
         if negb esValida then
           ret (res_status_json 401
                  (objeto [(str "exito", JBool false);
                           (str "error", JStr (str "Contraseña incorrecta"))]))
         else
           env <- leerEntorno ;;
           let token :=
             generarToken (jwt env) (JWT_SECRET env) datosApi (ahora env) in
           ret (res_json
                  (objeto [(str "exito", JBool true);
                           (str "token", JStr token);
                           (str "expira", JStr (str "24 horas"));
                           (str "mensaje", JStr (str "Autenticación exitosa"))])))
        (fun _ => ret (error500 (str "Error interno del servidor")))
  end.

(** [GET /api/estado] *)
Definition getEstado : M Respuesta :=
  st <- leerEstado ;;
  env <- leerEntorno ;;
  ret (res_json
         (objeto [(str "estado", JStr (estadoBot st));
                  (str "codigoQR",
                   if jseqb (estadoBot st) (str "esperando_qr")
                   then match codigoQR st with
                        | Some qr => JStr qr
                        | None => JNull
                        end
                   else JNull);
                  (str "listo", JBool (clienteListo st));
                  (str "marcaTiempo", JStr (fechaISO env));
                  (str "version", JStr (str "2.0.0"))])).

(** The fields of [limpiarEntrada(req.body)], with the default of
    [esGrupo]. *)
Definition esGrupoSaneado (v : JsVal) : JsVal :=
  match v with
  | JUndefined => JBool false
  | _ => paso limpiarEntrada v
  end.

Definition envioExitoso (idRespuesta : jsstring) : Respuesta :=
  res_json
    (objeto [(str "exito", JBool true);
             (str "idMensaje", JStr idRespuesta);
             (str "mensaje", JStr (str "Mensaje enviado correctamente"))]).

(** The handler of [POST /api/enviar-mensaje], after the middlewares.
    [usuario] is [req.usuario], as [requiereAutenticacion] left it. *)
Definition enviarMensaje (req : Peticion) (usuario : Claims)
           (c : CuerpoEnvio) : M Respuesta :=
  match errores req with
  | _ :: _ => ret (respuestaValidacion (errores req))
  | [] =>
      intentar
        (let destino := limpiarCadena (ce_destino c) in
         let mensaje := limpiarCadena (ce_mensaje c) in
         let rutaArchivo := option_map limpiarCadena (ce_rutaArchivo c) in
         let esGrupo := truthy (esGrupoSaneado (ce_esGrupo c)) in
         if negb esGrupo && negb (validarNumeroTelefono destino) then
           ret (error400 (str "Formato de número de teléfono inválido"))
         else
           let chatId :=
             if esGrupo then
               if endsWith destino (str "@g.us") then destino
               else destino ++ str "@g.us"
             else
               if endsWith destino (str "@c.us") then destino
               else destino ++ str "@c.us" in
           let envio : M Respuesta :=
             match rutaArchivo with
             | Some (r0 :: r) =>
                 rutaAbsoluta <- llamar (LlPathResolve (r0 :: r))
                                   (fun e => inr (path_resolve e (r0 :: r))) ;;
                 existe <- llamar (LlExistsSync rutaAbsoluta)
                             (fun e => inr (existsSync e rutaAbsoluta)) ;;
                 if negb existe then
                   ret (error400 (str "El archivo no existe"))
                 else
                   size <- llamar (LlStatSync rutaAbsoluta)
                             (fun e => statSync_size e rutaAbsoluta) ;;
                   env <- leerEntorno ;;
                   if (MAX_FILE_SIZE env * 1024 * 1024 <? size)%Z then
                     ret (error400
                            (str "El archivo es demasiado grande. Máximo "
                               ++ cadena_de_Z (MAX_FILE_SIZE env) ++ str "MB"))
                   else
                     media <- llamar (LlFromFilePath rutaAbsoluta)
                                (fun e => fromFilePath e rutaAbsoluta) ;;
                     respuesta <- llamar (LlSendMessage chatId (Medio media mensaje))
                                    (fun e => sendMessage e chatId
                                                (Medio media mensaje)) ;;
                     ret (envioExitoso respuesta)
             | _ =>
                 respuesta <- llamar (LlSendMessage chatId (Texto mensaje))
                                (fun e => sendMessage e chatId (Texto mensaje)) ;;
                 ret (envioExitoso respuesta)
             end in
           if negb esGrupo then
             estaRegistrado <- llamar (LlIsRegisteredUser chatId)
                                 (fun e => isRegisteredUser e chatId) ;;
             if negb estaRegistrado then
               ret (error400 (str "El número no está registrado en WhatsApp"))
             else envio
           else envio)
        (fun error =>
           ret (error500 (str "Error al enviar mensaje: " ++ message error)))
  end.

(** [GET /api/grupos] *)
Definition getGrupos (req : Peticion) (usuario : Claims) : M Respuesta :=
  intentar
    (chats <- llamar LlGetChats getChats ;;
     let grupos := filter ch_isGroup chats in
     let listaGrupos :=
       map (fun grupo =>
              objeto [(str "id", JStr (ch_id_serialized grupo));
                      (str "nombre", JStr (ch_name grupo));
                      (str "participantes",
                       JNum (Z.of_nat (length (ch_participants grupo))))])
           grupos in
     ret (res_json (objeto [(str "exito", JBool true);
                            (str "grupos", JArr listaGrupos)])))
    (fun error => ret (error500 (message error))).

(** [GET /api/contactos] *)
Definition getContactos (req : Peticion) (usuario : Claims) : M Respuesta :=
  intentar
    (contactos <- llamar LlGetContacts getContacts ;;
     let listaContactos :=
       map (fun contacto =>
              objeto [(str "id", JStr (co_id_serialized contacto));
                      (str "nombre",
                       JStr (o_vacio (co_name contacto)
                                     (o_vacio (co_pushname contacto) [])));
                      (str "numero", JStr (co_number contacto))])
           (firstn 100
              (filter (fun contacto =>
                         negb (co_isGroup contacto)
                         && negb (co_isMe contacto)
                         && match co_name contacto with
                            | Some (_ :: _) => true
                            | _ => false
                            end)
                      contactos)) in
     ret (res_json (objeto [(str "exito", JBool true);
                            (str "contactos", JArr listaContactos)])))
    (fun error => ret (error500 (message error))).

(** [req.query.limpiar === 'true'] *)
Definition es_cadena_true (v : JsVal) : bool :=
  match v with
  | JStr s => jseqb s (str "true")
  | _ => false
  end.

(** [GET /api/mensajes-recibidos] *)
Definition getMensajesRecibidos (req : Peticion) (usuario : Claims)
           (limpiar : JsVal) : M Respuesta :=
  intentar
    (if es_cadena_true limpiar then
       st <- leerEstado ;;
       let copiaMensajes := mensajesEntrantes st in
       _ <- asignarMensajes [] ;;
       ret (res_json
              (objeto [(str "exito", JBool true);
                       (str "mensajesLimpiados", JBool true);
                       (str "mensajesEliminados",
                        JNum (Z.of_nat (length copiaMensajes)))]))
     else
       st <- leerEstado ;;
       ret (res_json
              (objeto [(str "exito", JBool true);
                       (str "mensajes",
                        JArr (map json_de_info (mensajesEntrantes st)))])))
    (fun error => ret (error500 (message error))).

(** [GET /api/verificar-numero/:numero] *)
Definition getVerificarNumero (req : Peticion) (usuario : Claims)
           (numero : jsstring) : M Respuesta :=
  intentar
    (match errores req with
     | _ :: _ => ret (respuestaValidacion (errores req))
     | [] =>
         if negb (validarNumeroTelefono numero) then
           ret (error400 (str "Formato de número inválido"))
         else
           let chatId := numero ++ str "@c.us" in
           estaRegistrado <- llamar (LlIsRegisteredUser chatId)
                               (fun e => isRegisteredUser e chatId) ;;
           ret (res_json (objeto [(str "exito", JBool true);
                                  (str "existe", JBool estaRegistrado);
                                  (str "numero", JStr numero)]))
     end)
    (fun error => ret (error500 (message error))).

(** The error handler at the end of the chain. *)
Definition manejadorErrores (error : ErrorExpress) : Respuesta :=
  match err_type error with
  | Some t =>
      if jseqb t (str "entity.too.large") then
        res_status_json 413
          (objeto [(str "exito", JBool false);
                   (str "error", JStr (str "Payload demasiado grande"))])
      else error500 (str "Error interno del servidor")
  | None => error500 (str "Error interno del servidor")
  end.

Definition noEncontrado : Respuesta :=
  res_status_json 404
    (objeto [(str "exito", JBool false);
             (str "error", JStr (str "Endpoint no encontrado"));
             (str "mensaje",
              JStr (str "Visita / para ver los endpoints disponibles"))]).

(** The answers of the two rate limiters. *)
Definition respuestaLimiteGeneral (env : Entorno) : Respuesta :=
  res_status_json 429
    (objeto [(str "error",
              JStr (str "Demasiadas solicitudes, intenta de nuevo más tarde"));
             (str "retryAfter", JNum (RATE_LIMIT_WINDOW env))]).

Definition respuestaLimiteMensajes : Respuesta :=
  res_status_json 429
    (objeto [(str "error",
              JStr (str "Límite de mensajes excedido, espera un minuto"));
             (str "retryAfter", JNum 1)]).

(** The operations behind [requiereAutenticacion]. *)
Definition es_protegida (r : Ruta) : bool :=
  match r with
  | PostEnviarMensaje _ | GetGrupos | GetContactos
  | GetMensajesRecibidos _ | GetVerificarNumero _ => true
  | _ => false
  end.

(** What a protected route does once [requiereAutenticacion] has called
    [next]: the rest of its chain. *)
Definition trasAutenticacion (req : Peticion) (usuario : Claims)
  : M Respuesta :=
  match ruta req with
  | PostEnviarMensaje c =>
      st <- leerEstado ;;
      match requiereConexion st with
      | inl r => ret r
      | inr _ => enviarMensaje req usuario c
      end
  | GetGrupos =>
      st <- leerEstado ;;
      match requiereConexion st with
      | inl r => ret r
      | inr _ => getGrupos req usuario
      end
  | GetContactos =>
      st <- leerEstado ;;
      match requiereConexion st with
      | inl r => ret r
      | inr _ => getContactos req usuario
      end
  | GetMensajesRecibidos limpiar => getMensajesRecibidos req usuario limpiar
  | GetVerificarNumero numero =>
      st <- leerEstado ;;
      match requiereConexion st with
      | inl r => ret r
      | inr _ => getVerificarNumero req usuario numero
      end
  | _ => ret noEncontrado
  end.

(** The chain of a route, from its first middleware. *)
Definition atenderRuta (req : Peticion) : M Respuesta :=
  match ruta req with
  | PostAuth contrasena => postAuth req contrasena
  | GetEstado => getEstado
  | GetRaiz =>
      env <- leerEntorno ;;
      ret {| status := 200; json := JStr (paginaEstado env) |}
  | OtraRuta => ret noEncontrado
  | _ =>
      if match ruta req with
         | PostEnviarMensaje _ => limiteMensajesExcedido req
         | _ => false
         end
      then ret respuestaLimiteMensajes
      else
        env <- leerEntorno ;;
        match requiereAutenticacion env req with
        | inl r => ret r
        | inr datosToken => trasAutenticacion req datosToken
        end
  end.

(** The application ([app]): CORS, the general limiter, the body parser, the
    routes, and the error handler for what they hand to [next]. *)
Definition aplicacion (req : Peticion) : M Respuesta :=
  env <- leerEntorno ;;
  if match origin req with
     | None | Some [] => true
     | Some o => existsb (jseqb o) (ALLOWED_ORIGINS env)
     end
  then
    if limiteGeneralExcedido req then ret (respuestaLimiteGeneral env)
    else
      match errorCuerpo req with
      | Some error => ret (manejadorErrores error)
      | None => atenderRuta req
      end
  else
    ret (manejadorErrores
           {| err_type := None;
              err_excepcion :=
                {| message := str "No permitido por política CORS";
                   stack := [] |} |}).

(** ** The words of the specification, for comparison with the code *)

(** Phone numbers: digits and the symbols [+ - ( )]. *)
Definition es_simbolo_telefono (c : N) : bool :=
  (es_digito c || (c =? 43) || (c =? 45) || (c =? 40) || (c =? 41))%N.

(** "The cleaned number (whitespace stripped) must match digits and the
    symbols + - ( ) only, length 7-20." *)
Definition numero_valido_spec (numero : jsstring) : bool :=
  let limpio := replace_class_g es_espacio numero in
  forallb es_simbolo_telefono limpio
  && (7 <=? length limpio)%nat && (length limpio <=? 20)%nat.

(** "For every string leaf, removes ASCII control characters and
    truncates to 10,000 characters": what a string leaf is afterwards. *)
Definition cadena_limpia (s : jsstring) : bool :=
  forallb (fun c => negb (es_control c)) s
  && (N.of_nat (length s) <=? 10000)%N.

(** Every string leaf of a value, through arrays, properties and
    prototypes. *)
Fixpoint todas_cadenas (p : jsstring -> bool) (v : JsVal) : bool :=
  match v with
  | JStr s => p s
  | JArr elems => forallb (todas_cadenas p) elems
  | JObj proto props =>
      match proto with
      | Some w => todas_cadenas p w
      | None => true
      end
      && forallb (fun kv => todas_cadenas p (snd kv)) props
  | _ => true
  end.

(** "Recursively walks mappings and sequences; for every string leaf,
    removes the control characters and truncates; non-string,
    non-container leaves pass through unchanged." *)
Fixpoint sanear (v : JsVal) : JsVal :=
  match v with
  | JStr s => JStr (limpiarCadena s)
  | JArr elems => JArr (map sanear elems)
  | JObj _ props => JObj None (map (fun kv => (fst kv, sanear (snd kv))) props)
  | _ => v
  end.

Fixpoint sin_repetidos (ks : list jsstring) : bool :=
  match ks with
  | [] => true
  | k :: t => negb (existsb (jseqb k) t) && sin_repetidos t
  end.

(** A value as [JSON.parse] builds it, with no property named
    [__proto__]: plain objects, whose keys are distinct. *)
Fixpoint es_json_llano (v : JsVal) : bool :=
  match v with
  | JUndefined => false
  | JArr elems => forallb es_json_llano elems
  | JObj proto props =>
      match proto with None => true | Some _ => false end
      && sin_repetidos (map fst props)
      && negb (existsb (jseqb clave_proto) (map fst props))
      && forallb (fun kv => es_json_llano (snd kv)) props
  | _ => true
  end.

(** The run in which every handler finishes before the next message is
    delivered: the messages one after the other, each handled from
    beginning to end in the environment of its arrival.  The event loop
    allows other runs, see [turnos]. *)
Definition alMensajes (evs : list (Entorno * Mensaje)) (w : Mundo) : Mundo :=
  fold_left (fun w em => snd (alMensaje (snd em) (fst em) w)) evs w.

(** The broadcast/system sender. *)
Definition es_difusion (m : Mensaje) : bool :=
  jseqb (from m) (str "status@broadcast").

(** [r] is the record of the message [m] received in [env]. *)
Definition registra (r : InfoMensaje) (em : Entorno * Mensaje) : Prop :=
  de r = from (snd em)
  /\ cuerpo r = substring0 1000 (body (snd em))
  /\ esGrupo r = endsWith (from (snd em)) (str "@g.us")
  /\ autor r = o_vacio (author (snd em)) []
  /\ idMensaje r = id_serialized (snd em)
  /\ marcaTiempo r = fechaISO (fst em).

(** The messages delivered during a run of the event loop, in the order
    of their arrival. *)
Definition llegadas (ts : list Turno) : list (Entorno * Mensaje) :=
  flat_map (fun t => match t with
                     | Llega env mensaje => [(env, mensaje)]
                     | Reanuda _ => []
                     end) ts.

(** The run of the event loop in which every handler is resumed before
    the next message arrives. *)
Definition secuencial (evs : list (Entorno * Mensaje)) : list Turno :=
  flat_map (fun em => [Llega (fst em) (snd em); Reanuda 0; Reanuda 0]) evs.

(** A message that is neither from the broadcast sender nor from a
    group. *)
Definition es_directo (em : Entorno * Mensaje) : bool :=
  negb (es_difusion (snd em))
  && negb (endsWith (from (snd em)) (str "@g.us")).

(** A suspended handler belongs to a delivered group message and holds
    its record. *)
Definition pendiente_de (l : list (Entorno * Mensaje)) (p : Pendiente)
  : Prop :=
  match p with
  | EsperaChat env mensaje info | EsperaContacto env mensaje info _ =>
      In (env, mensaje) l
      /\ es_difusion mensaje = false
      /\ registra info (env, mensaje)
      /\ esGrupo info = true
  end.

(** What holds after every turn: [registros] are the records appended so
    far, in the order of the appends, and [l] the messages delivered so
    far. *)
Definition invariante (l : list (Entorno * Mensaje)) (s : Sistema)
           (registros : list InfoMensaje) : Prop :=
  mensajesEntrantes (estado (mundo s)) = slice_neg 100 registros
  /\ Forall (fun r => exists em,
                 In em l /\ es_difusion (snd em) = false /\ registra r em)
            registros
  /\ Forall (pendiente_de l) (pendientes s)
  /\ Forall2 registra (filter (fun r => negb (esGrupo r)) registros)
             (filter es_directo l)
  /\ length registros + length (pendientes s)
     = length (filter (fun em => negb (es_difusion (snd em))) l).

(** [j] is a record of the buffer as a response shows it. *)
Definition muestra (r : InfoMensaje) (j : JsVal) : Prop :=
  campo j "de" = JStr (de r)
  /\ campo j "cuerpo" = JStr (cuerpo r)
  /\ campo j "esGrupo" = JBool (esGrupo r)
  /\ campo j "nombreGrupo" = JStr (nombreGrupo r)
  /\ campo j "autor" = JStr (autor r)
  /\ campo j "nombreAutor" = JStr (nombreAutor r)
  /\ campo j "numeroAutor" = JStr (numeroAutor r)
  /\ campo j "idMensaje" = JStr (idMensaje r)
  /\ campo j "marcaTiempo" = JStr (marcaTiempo r).

(** The order in which the client reports its states, as far as the
    connected flag depends on it: once [ready] has been reported, the
    next event is [disconnected] (or [ready] again).  [listo] tells
    whether the last event was [ready]. *)
Fixpoint sigue_protocolo (listo : bool) (evs : list EventoCliente) : bool :=
  match evs with
  | [] => true
  | ev :: t =>
      match ev with
      | EvReady => sigue_protocolo true t
      | EvDisconnected _ => sigue_protocolo false t
      | _ => negb listo && sigue_protocolo false t
      end
  end.

(** Reading the calls of a handler: every call that satisfies [p] comes
    after all the calls of [requisitos]. *)
Definition precedidas (p : Llamada -> bool) (requisitos : list Llamada)
           (t : list Llamada) : Prop :=
  forall i ll,
    nth_error t i = Some ll -> p ll = true ->
    Forall (fun r => In r (firstn i t)) requisitos.

Definition es_envio (ll : Llamada) : bool :=
  match ll with
  | LlSendMessage _ _ => true
  | _ => false
  end.

(** The exception, if any, with which the outside world answers a
    call. *)
Definition excepcion_de (env : Entorno) (ll : Llamada) : option Excepcion :=
  let lanzada (A : Type) (r : Excepcion + A) :=
    match r with inl e => Some e | inr _ => None end in
  match ll with
  | LlBcryptCompare c => lanzada _ (bcrypt_compare env c)
  | LlIsRegisteredUser chatId => lanzada _ (isRegisteredUser env chatId)
  | LlSendMessage chatId contenido => lanzada _ (sendMessage env chatId contenido)
  | LlGetChats => lanzada _ (getChats env)
  | LlGetContacts => lanzada _ (getContacts env)
  | LlGetChat m => lanzada _ (getChat env m)
  | LlGetContactById id => lanzada _ (getContactById env id)
  | LlPathResolve _ | LlExistsSync _ => None
  | LlStatSync r => lanzada _ (statSync_size env r)
  | LlFromFilePath r => lanzada _ (fromFilePath env r)
  end.

Definition excepciones (env : Entorno) (t : list Llamada) : list Excepcion :=
  flat_map (fun ll => match excepcion_de env ll with
                      | Some e => [e]
                      | None => []
                      end) t.

(** The calls that check the attachment [rutaArchivo]. *)
Definition comprobaciones (env : Entorno) (rutaArchivo : jsstring)
  : list Llamada :=
  [LlPathResolve rutaArchivo;
   LlExistsSync (path_resolve env rutaArchivo);
   LlStatSync (path_resolve env rutaArchivo)].

(** What the program relies on from [jsonwebtoken], for a non-empty
    secret: [sign] stamps the payload with [iat], the clock in seconds,
    and [exp = iat + expiresIn]; [verify] with the same secret returns
    that payload while the clock in seconds is below [exp] and throws
    [TokenExpiredError] from then on. *)
Definition contrato_jwt (lib : Jsonwebtoken) : Prop :=
  forall datos secreto dur t0 t,
    secreto <> [] ->
    jwt_verify lib (jwt_sign lib datos secreto dur t0) secreto t
    = if (t / 1000 <? t0 / 1000 + dur)%Z
      then inr {| usuario := dt_usuario datos;
                  permisos := dt_permisos datos;
                  iat := t0 / 1000;
                  exp := t0 / 1000 + dur |}
      else inl (TokenExpiredError ((t0 / 1000 + dur) * 1000)).

(** How [jsonwebtoken] reads a string: [decodificar] is [jwt.decode],
    the payload of a well-formed token, whatever its signature;
    [firma_valida] tells whether the signature of a token is the one
    that the secret gives for its header and payload. *)
Record Lectura := {
  decodificar : jsstring -> option Claims;
  firma_valida : jsstring -> jsstring -> bool
}.

(** What [jsonwebtoken] promises of [verify] on any string, in the words
    of the specification: "a token is valid iff the signature verifies
    and the current time is before expires_at"; malformed encoding,
    signature mismatch and expiry make it throw.  [verify] returns the
    decoded payload of a well-formed token whose signature matches the
    secret while the clock, in seconds, is below [exp], and throws
    otherwise.  The signature of a token that [sign] made with one
    secret does not match another secret, and the empty string is not a
    token. *)
Definition contrato_verify (lib : Jsonwebtoken) (lec : Lectura) : Prop :=
  (forall token secreto t,
      match jwt_verify lib token secreto t with
      | inr c =>
          decodificar lec token = Some c
          /\ firma_valida lec token secreto = true
          /\ (t / 1000 < exp c)%Z
      | inl _ =>
          decodificar lec token = None
          \/ firma_valida lec token secreto = false
          \/ exists c,
              decodificar lec token = Some c /\ (exp c <= t / 1000)%Z
      end)
  /\ (forall datos secreto otro dur t0,
         secreto <> otro ->
         firma_valida lec (jwt_sign lib datos secreto dur t0) otro = false)
  /\ decodificar lec [] = None.

(** ** A small world for the examples

    A token library in the shape of [jsonwebtoken]: the token is the
    payload with its two dates, written field by field with the lengths
    in front, followed by the secret in the place of the signature. *)
Module Ejemplo.

Definition cod_cadena (s : jsstring) : list N := N.of_nat (length s) :: s.

Definition cod_Z (z : Z) : list N :=
  [if (z <? 0)%Z then 1%N else 0%N; Z.abs_N z].

Definition cod_lista (l : list jsstring) : list N :=
  N.of_nat (length l) :: concat (map cod_cadena l).

Definition dec_cadena (l : list N) : option (jsstring * list N) :=
  match l with
  | [] => None
  | n :: t =>
      if (N.to_nat n <=? length t)%nat
      then Some (firstn (N.to_nat n) t, skipn (N.to_nat n) t)
      else None
  end.

Definition dec_Z (l : list N) : option (Z * list N) :=
  match l with
  | s :: a :: t =>
      Some (if (s =? 0)%N then Z.of_N a else (- Z.of_N a)%Z, t)
  | _ => None
  end.

Fixpoint dec_cadenas (k : nat) (l : list N)
  : option (list jsstring * list N) :=
  match k with
  | O => Some ([], l)
  | S k' =>
      match dec_cadena l with
      | None => None
      | Some (s, t) =>
          match dec_cadenas k' t with
          | None => None
          | Some (ss, t') => Some (s :: ss, t')
          end
      end
  end.

Definition dec_lista (l : list N) : option (list jsstring * list N) :=
  match l with
  | [] => None
  | n :: t => dec_cadenas (N.to_nat n) t
  end.

Definition firmar (datos : DatosToken) (secreto : jsstring)
           (dur ahora : Z) : jsstring :=
  cod_cadena (dt_usuario datos) ++ cod_lista (dt_permisos datos)
    ++ cod_Z (ahora / 1000) ++ cod_Z (ahora / 1000 + dur) ++ secreto.

Definition verificar (token secreto : jsstring) (ahora : Z)
  : ErrorJwt + Claims :=
  match dec_cadena token with
  | None => inl (JsonWebTokenError (str "jwt malformed"))
  | Some (u, t1) =>
      match dec_lista t1 with
      | None => inl (JsonWebTokenError (str "jwt malformed"))
      | Some (ps, t2) =>
          match dec_Z t2 with
          | None => inl (JsonWebTokenError (str "jwt malformed"))
          | Some (i, t3) =>
              match dec_Z t3 with
              | None => inl (JsonWebTokenError (str "jwt malformed"))
              | Some (e, firma) =>
                  if negb (jseqb firma secreto) then
                    inl (JsonWebTokenError (str "invalid signature"))
                  else if (e <=? ahora / 1000)%Z then
                    inl (TokenExpiredError (e * 1000))
                  else
                    inr {| usuario := u; permisos := ps;
                           iat := i; exp := e |}
              end
          end
      end
  end.

Definition biblioteca : Jsonwebtoken :=
  {| jwt_sign := firmar; jwt_verify := verificar |}.

(** The payload and the signature that the library reads in a
    string. *)
Definition partes (token : jsstring) : option (Claims * jsstring) :=
  match dec_cadena token with
  | None => None
  | Some (u, t1) =>
      match dec_lista t1 with
      | None => None
      | Some (ps, t2) =>
          match dec_Z t2 with
          | None => None
          | Some (i, t3) =>
              match dec_Z t3 with
              | None => None
              | Some (e, firma) =>
                  Some ({| usuario := u; permisos := ps;
                           iat := i; exp := e |}, firma)
              end
          end
      end
  end.

Definition carga (token : jsstring) : option Claims :=
  option_map fst (partes token).

Definition firma_correcta (token secreto : jsstring) : bool :=
  match partes token with
  | Some (_, firma) => jseqb firma secreto
  | None => false
  end.

Definition lectura : Lectura :=
  {| decodificar := carga; firma_valida := firma_correcta |}.

Definition fallo : Excepcion :=
  {| message := str "Evaluation failed"; stack := str "at ExecutionContext" |}.

(** A world where the client is linked, every number is registered,
    sending works and the only file is [/tmp/foto.png], of 2048
    bytes. *)
Definition entorno : Entorno :=
  {| MAX_FILE_SIZE := 10;
     RATE_LIMIT_WINDOW := 15;
     ALLOWED_ORIGINS := [str "http://localhost:3000"];
     ahora := 1700000000000;
     fechaISO := str "2023-11-14T22:13:20.000Z";
     paginaEstado := str "<!DOCTYPE html>";
     jwt := biblioteca;
     JWT_SECRET := str "secreto";
     bcrypt_compare := fun c => inr (jseqb c (str "Learsi20"));
     isRegisteredUser := fun _ => inr true;
     sendMessage := fun _ _ => inr (str "3EB0");
     getChats := inr [];
     getContacts := inr [];
     getChat := fun m =>
       inr {| ch_id_serialized := from m; ch_name := str "Familia";
              ch_isGroup := true; ch_participants := [] |};
     getContactById := fun _ => inr None;
     path_resolve := fun r => r;
     existsSync := fun r => jseqb r (str "/tmp/foto.png");
     statSync_size := fun _ => inr 2048%Z;
     fromFilePath := fun _ => inr (str "iVBORw0KGgo=") |}.

(** The same world with a client that fails on [sendMessage]. *)
Definition entornoFalla (e : Excepcion) : Entorno :=
  {| MAX_FILE_SIZE := MAX_FILE_SIZE entorno;
     RATE_LIMIT_WINDOW := RATE_LIMIT_WINDOW entorno;
     ALLOWED_ORIGINS := ALLOWED_ORIGINS entorno;
     ahora := ahora entorno;
     fechaISO := fechaISO entorno;
     paginaEstado := paginaEstado entorno;
     jwt := jwt entorno;
     JWT_SECRET := JWT_SECRET entorno;
     bcrypt_compare := bcrypt_compare entorno;
     isRegisteredUser := isRegisteredUser entorno;
     sendMessage := fun _ _ => inl e;
     getChats := getChats entorno;
     getContacts := getContacts entorno;
     getChat := getChat entorno;
     getContactById := getContactById entorno;
     path_resolve := path_resolve entorno;
     existsSync := existsSync entorno;
     statSync_size := statSync_size entorno;
     fromFilePath := fromFilePath entorno |}.

Definition mensaje1 : Mensaje :=
  {| from := str "5215512345678@c.us"; body := str "hola";
     author := None; id_serialized := str "false_5215512345678@c.us_A1" |}.

Definition mensajeGrupo : Mensaje :=
  {| from := str "120363000000000000@g.us"; body := str "reunion a las 5";
     author := Some (str "5215587654321@c.us");
     id_serialized := str "false_120363000000000000@g.us_B2" |}.

Definition mensajeDifusion : Mensaje :=
  {| from := str "status@broadcast"; body := str "estado";
     author := Some (str "5215512345678@c.us");
     id_serialized := str "false_status@broadcast_C3" |}.

Definition mundoInicial : Mundo := {| estado := estadoInicial; traza := [] |}.

Definition unRegistro : InfoMensaje :=
  infoInicial mensaje1 (fechaISO entorno).

(** A request for [r], from no particular origin, within the limits
    and with a well-formed body, that presents [token]. *)
Definition peticion (r : Ruta) (token : option jsstring) : Peticion :=
  {| ruta := r;
     origin := None;
     authorization := option_map (fun t => str "Bearer " ++ t) token;
     x_api_key := None;
     limiteGeneralExcedido := false;
     limiteMensajesExcedido := false;
     errorCuerpo := None;
     errores := [] |}.

Definition unUsuario : Claims :=
  {| usuario := str "api_user";
     permisos := [str "enviar_mensajes"; str "leer_mensajes"];
     iat := 1700000000; exp := 1700086400 |}.

(** The token that [POST /api/auth] hands out in this world, and a
    token signed with the same secret whose list of permissions is
    empty. *)
Definition tokenApi : jsstring :=
  generarToken biblioteca (JWT_SECRET entorno) datosApi (ahora entorno).

Definition tokenSinPermisos : jsstring :=
  generarToken biblioteca (JWT_SECRET entorno)
    {| dt_usuario := str "api_user"; dt_permisos := [] |} (ahora entorno).

Definition envio1 : CuerpoEnvio :=
  {| ce_destino := str "5215512345678";
     ce_mensaje := str "hola";
     ce_rutaArchivo := None;
     ce_esGrupo := JUndefined |}.

Definition envioConArchivo : CuerpoEnvio :=
  {| ce_destino := str "5215512345678";
     ce_mensaje := str "la foto";
     ce_rutaArchivo := Some (str "/tmp/foto.png");
     ce_esGrupo := JUndefined |}.

Definition envioGrupoConArchivo : CuerpoEnvio :=
  {| ce_destino := str "120363000000000000";
     ce_mensaje := str "la foto";
     ce_rutaArchivo := Some (str "/tmp/foto.png");
     ce_esGrupo := JBool true |}.

(** The same world with a client whose [getChat] fails. *)
Definition entornoSinChat (e : Excepcion) : Entorno :=
  {| MAX_FILE_SIZE := MAX_FILE_SIZE entorno;
     RATE_LIMIT_WINDOW := RATE_LIMIT_WINDOW entorno;
     ALLOWED_ORIGINS := ALLOWED_ORIGINS entorno;
     ahora := ahora entorno;
     fechaISO := fechaISO entorno;
     paginaEstado := paginaEstado entorno;
     jwt := jwt entorno;
     JWT_SECRET := JWT_SECRET entorno;
     bcrypt_compare := bcrypt_compare entorno;
     isRegisteredUser := isRegisteredUser entorno;
     sendMessage := sendMessage entorno;
     getChats := getChats entorno;
     getContacts := getContacts entorno;
     getChat := fun _ => inl e;
     getContactById := getContactById entorno;
     path_resolve := path_resolve entorno;
     existsSync := existsSync entorno;
     statSync_size := statSync_size entorno;
     fromFilePath := fromFilePath entorno |}.

(** The same world one second before, and at, the end of the 24 hours
    of a token issued in [entorno]. *)
Definition entornoEn (t : Z) : Entorno :=
  {| MAX_FILE_SIZE := MAX_FILE_SIZE entorno;
     RATE_LIMIT_WINDOW := RATE_LIMIT_WINDOW entorno;
     ALLOWED_ORIGINS := ALLOWED_ORIGINS entorno;
     ahora := t;
     fechaISO := fechaISO entorno;
     paginaEstado := paginaEstado entorno;
     jwt := jwt entorno;
     JWT_SECRET := JWT_SECRET entorno;
     bcrypt_compare := bcrypt_compare entorno;
     isRegisteredUser := isRegisteredUser entorno;
     sendMessage := sendMessage entorno;
     getChats := getChats entorno;
     getContacts := getContacts entorno;
     getChat := getChat entorno;
     getContactById := getContactById entorno;
     path_resolve := path_resolve entorno;
     existsSync := existsSync entorno;
     statSync_size := statSync_size entorno;
     fromFilePath := fromFilePath entorno |}.

(** The same world with a client whose [getChats] fails. *)
Definition entornoSinChats (e : Excepcion) : Entorno :=
  {| MAX_FILE_SIZE := MAX_FILE_SIZE entorno;
     RATE_LIMIT_WINDOW := RATE_LIMIT_WINDOW entorno;
     ALLOWED_ORIGINS := ALLOWED_ORIGINS entorno;
     ahora := ahora entorno;
     fechaISO := fechaISO entorno;
     paginaEstado := paginaEstado entorno;
     jwt := jwt entorno;
     JWT_SECRET := JWT_SECRET entorno;
     bcrypt_compare := bcrypt_compare entorno;
     isRegisteredUser := isRegisteredUser entorno;
     sendMessage := sendMessage entorno;
     getChats := inl e;
     getContacts := getContacts entorno;
     getChat := getChat entorno;
     getContactById := getContactById entorno;
     path_resolve := path_resolve entorno;
     existsSync := existsSync entorno;
     statSync_size := statSync_size entorno;
     fromFilePath := fromFilePath entorno |}.

(** An address book: a group, the account itself, a contact without a
    name, one with an empty name and two with a name. *)
Definition contacto (id : string) (nombre apodo : option string)
           (grupo yo : bool) : Contacto :=
  {| co_id_serialized := str id ++ str (if grupo then "@g.us" else "@c.us");
     co_id_user := str id;
     co_name := option_map str nombre;
     co_pushname := option_map str apodo;
     co_number := str id;
     co_isGroup := grupo;
     co_isMe := yo |}.

Definition contactoAna : Contacto :=
  contacto "5215511111111" (Some "Ana"%string) (Some "anita"%string) false false.

Definition contactoLuis : Contacto :=
  contacto "5215522222222" (Some "Luis"%string) None false false.

Definition agenda : list Contacto :=
  [contacto "120363000000000000" (Some "Familia"%string) None true false;
   contacto "5215500000000" (Some "Yo"%string) None false true;
   contacto "5215533333333" None (Some "sin nombre"%string) false false;
   contactoAna;
   contacto "5215544444444" (Some ""%string) (Some "vacio"%string) false false;
   contactoLuis].

(** The same world with that address book. *)
Definition entornoContactos : Entorno :=
  {| MAX_FILE_SIZE := MAX_FILE_SIZE entorno;
     RATE_LIMIT_WINDOW := RATE_LIMIT_WINDOW entorno;
     ALLOWED_ORIGINS := ALLOWED_ORIGINS entorno;
     ahora := ahora entorno;
     fechaISO := fechaISO entorno;
     paginaEstado := paginaEstado entorno;
     jwt := jwt entorno;
     JWT_SECRET := JWT_SECRET entorno;
     bcrypt_compare := bcrypt_compare entorno;
     isRegisteredUser := isRegisteredUser entorno;
     sendMessage := sendMessage entorno;
     getChats := getChats entorno;
     getContacts := inr agenda;
     getChat := getChat entorno;
     getContactById := getContactById entorno;
     path_resolve := path_resolve entorno;
     existsSync := existsSync entorno;
     statSync_size := statSync_size entorno;
     fromFilePath := fromFilePath entorno |}.

Definition envioSinArchivo : CuerpoEnvio :=
  {| ce_destino := str "5215512345678";
     ce_mensaje := str "la foto";
     ce_rutaArchivo := Some (str "/tmp/otra.png");
     ce_esGrupo := JUndefined |}.

End Ejemplo.

(** ** The status page

    The script of the page served at [/] turns the state reported by
    [GET /api/estado] into a style class. *)

(** [s.includes(sub)] *)
Fixpoint includes (s sub : jsstring) : bool :=
  es_prefijo sub s
  || match s with
     | [] => false
     | _ :: t => includes t sub
     end.

Definition obtenerClaseEstado (estado : jsstring) : jsstring :=
  if jseqb estado (str "conectado") then str "conectado"
  else if includes estado (str "cargando")
          || jseqb estado (str "autenticado")
          || jseqb estado (str "inicializando") then str "cargando"
  else if jseqb estado (str "esperando_qr") then str "esperando"
  else str "desconectado".

(** ** Reading the answers of the routes *)

(** The contacts that [GET /api/contactos] keeps: not a group, not the
    account itself, with a name. *)
Definition contacto_listado (co : Contacto) : Prop :=
  co_isGroup co = false /\ co_isMe co = false
  /\ exists n0 n, co_name co = Some (n0 :: n).

(** The same as a test. *)
Definition es_listado (co : Contacto) : bool :=
  negb (co_isGroup co) && negb (co_isMe co)
  && match co_name co with
     | Some (_ :: _) => true
     | _ => false
     end.

(** The answer of [requiereAutenticacion] to a token that does not
    verify. *)
Definition respuestaTokenInvalido : Respuesta :=
  res_status_json 401
    (objeto [(str "exito", JBool false);
             (str "error", JStr (str "Token inválido o expirado"))]).

(** The chat a call to the client is about. *)
Definition chat_de_llamada (ll : Llamada) : option jsstring :=
  match ll with
  | LlIsRegisteredUser chatId | LlSendMessage chatId _ => Some chatId
  | _ => None
  end.

(** * Properties *)

(** ** Strings *)

Lemma jseqb_eq a b : jseqb a b = true <-> a = b.
Proof.
  unfold jseqb. destruct (list_eq_dec N.eq_dec a b); split; congruence.
Qed.

Lemma jseqb_refl a : jseqb a a = true.
Proof. apply jseqb_eq. reflexivity. Qed.

Lemma jseqb_neq a b : jseqb a b = false <-> a <> b.
Proof.
  unfold jseqb. destruct (list_eq_dec N.eq_dec a b); split; congruence.
Qed.

Example str_ej : str "está" = [101; 115; 116; 225]%N.
Proof. reflexivity. Qed.

(** ** validarNumeroTelefono *)

Lemma test_clase_rango_spec cls s : forall lo hi,
  test_clase_rango cls lo hi s
  = forallb cls s && (lo <=? length s)%nat && (length s <=? hi)%nat.
Proof.
  induction s as [|c t IH]; intros lo hi; simpl.
  - destruct lo; reflexivity.
  - destruct hi as [|hi'].
    + rewrite andb_false_r. reflexivity.
    + rewrite IH. destruct (cls c); simpl; [|reflexivity].
      destruct lo as [|lo']; simpl; reflexivity.
Qed.

Lemma sin_espacios numero :
  forallb (fun c => negb (es_espacio c)) (replace_class_g es_espacio numero)
  = true.
Proof.
  apply forallb_forall. intros c Hc.
  apply filter_In in Hc. tauto.
Qed.

Lemma clase_patron_sin_espacio c :
  es_espacio c = false -> clase_patron c = es_simbolo_telefono c.
Proof.
  intros H. unfold clase_patron, es_simbolo_telefono. rewrite H.
  destruct (es_digito c), (c =? 45)%N, (c =? 43)%N, (c =? 40)%N, (c =? 41)%N;
    reflexivity.
Qed.

Lemma forallb_ext_in (A : Type) (f g : A -> bool) (l : list A) :
  (forall x, In x l -> f x = g x) -> forallb f l = forallb g l.
Proof.
  induction l as [|a t IH]; intros H; simpl; [reflexivity|].
  rewrite (H a (or_introl eq_refl)), IH; [reflexivity|].
  intros x Hx. apply H. right. exact Hx.
Qed.

Lemma validarNumeroTelefono_spec numero :
  validarNumeroTelefono numero = numero_valido_spec numero.
Proof.
  unfold validarNumeroTelefono, numero_valido_spec.
  rewrite test_clase_rango_spec. cbv zeta.
  f_equal. f_equal.
  apply forallb_ext_in. intros c Hc.
  apply clase_patron_sin_espacio.
  apply filter_In in Hc. destruct Hc as [_ Hc].
  destruct (es_espacio c); [discriminate|reflexivity].
Qed.

Lemma digito_no_espacio c : es_digito c = true -> es_espacio c = false.
Proof.
  unfold es_digito, es_espacio. intros H.
  apply andb_true_iff in H. destruct H as [H1 H2].
  apply N.leb_le in H1. apply N.leb_le in H2.
  repeat match goal with
         | |- context [(?a <=? ?b)%N] =>
             destruct (N.leb_spec a b); try lia
         | |- context [(?a =? ?b)%N] =>
             destruct (N.eqb_spec a b); try lia
         end; reflexivity.
Qed.

(** C7. The validator accepts a number exactly when, once white space is
    stripped, it is made of digits and the symbols [+ - ( )] only and has
    between 7 and 20 code units; it accepts "+1 (555) 123-4567" and
    rejects "abc" and every string of 25 digits. *)
Theorem C7_validarNumeroTelefono :
  (forall numero,
      validarNumeroTelefono numero = true <->
      (let limpio := replace_class_g es_espacio numero in
       Forall (fun c => es_simbolo_telefono c = true) limpio
       /\ (7 <= length limpio <= 20)%nat))
  /\ validarNumeroTelefono (str "+1 (555) 123-4567") = true
  /\ validarNumeroTelefono (str "abc") = false
  /\ (forall numero,
         length numero = 25%nat ->
         Forall (fun c => es_digito c = true) numero ->
         validarNumeroTelefono numero = false).
Proof.
  split; [|split; [reflexivity|split; [reflexivity|]]].
  - intros numero. rewrite validarNumeroTelefono_spec.
    unfold numero_valido_spec. cbv zeta.
    rewrite !andb_true_iff, forallb_forall, Forall_forall.
    rewrite !Nat.leb_le. tauto.
  - intros numero Hlen Hdig.
    rewrite validarNumeroTelefono_spec. unfold numero_valido_spec. cbv zeta.
    assert (E : replace_class_g es_espacio numero = numero).
    { unfold replace_class_g. apply forallb_filter_id.
      apply forallb_forall. intros c Hc.
      rewrite Forall_forall in Hdig.
      rewrite (digito_no_espacio c (Hdig c Hc)). reflexivity. }
    rewrite E, Hlen. rewrite andb_false_r. reflexivity.
Qed.

Lemma C7_validarNumeroTelefono_witness :
  validarNumeroTelefono (str "1234567890123456789012345") = false.
Proof.
  apply (proj2 (proj2 (proj2 C7_validarNumeroTelefono))).
  - reflexivity.
  - apply Forall_forall. apply forallb_forall. reflexivity.
Defined.

(** ** limpiarEntrada *)

Example limpiarEntrada_ej1 :
  limpiarEntrada
    (objeto [(str "destino", JStr (1%N :: str "555 1234"));
             (str "n", JNum 7);
             (str "l", JArr [JStr [65; 0; 66]%N; JNull])])
  = objeto [(str "destino", JStr (str "555 1234"));
            (str "n", JNum 7);
            (str "l", JArr [JStr [65; 66]%N; JNull])].
Proof. reflexivity. Qed.

Example limpiarEntrada_ej_proto :
  limpiarEntrada
    (objeto [(clave_proto, JNum 5); (str "a", JStr [7; 97]%N)])
  = objeto [(str "a", JStr [97]%N)].
Proof. reflexivity. Qed.

Lemma In_firstn (A : Type) (x : A) n l : In x (firstn n l) -> In x l.
Proof.
  intros H. rewrite <- (firstn_skipn n l). apply in_or_app. left. exact H.
Qed.

Lemma limpiarCadena_limpia s : cadena_limpia (limpiarCadena s) = true.
Proof.
  unfold cadena_limpia, limpiarCadena, substring0, replace_class_g.
  apply andb_true_iff. split.
  - apply forallb_forall. intros c Hc.
    apply In_firstn in Hc.
    apply filter_In in Hc. tauto.
  - apply N.leb_le.
    pose proof (firstn_le_length (N.to_nat 10000)
                  (filter (fun c => negb (es_control c)) s)) as H.
    lia.
Qed.

Section limpios.
Let P (v : JsVal) : Prop := todas_cadenas cadena_limpia v = true.

Lemma paso_limpio (v : JsVal) :
  (es_contenedor v = true -> P (limpiarEntrada v)) ->
  P (paso limpiarEntrada v).
Proof.
  unfold P. destruct v; simpl; intros H; try reflexivity.
  - apply limpiarCadena_limpia.
  - apply H. reflexivity.
  - apply H. reflexivity.
Qed.

Lemma props_set_limpio ps k v :
  forallb (fun kv => todas_cadenas cadena_limpia (snd kv)) ps = true ->
  P v ->
  forallb (fun kv => todas_cadenas cadena_limpia (snd kv))
          (props_set ps k v) = true.
Proof.
  unfold P. induction ps as [|[k0 v0] t IH]; simpl; intros Hps Hv.
  - rewrite Hv. reflexivity.
  - apply andb_true_iff in Hps. destruct Hps as [H0 Ht].
    destruct (jseqb k0 k); simpl.
    + rewrite Hv, Ht. reflexivity.
    + rewrite H0, IH by assumption. reflexivity.
Qed.

Lemma obj_set_limpio o k v :
  P (JObj (fst o) (snd o)) -> P v -> P (JObj (fst (obj_set o k v))
                                             (snd (obj_set o k v))).
Proof.
  unfold P, obj_set. destruct o as [pr ps]. simpl. intros Ho Hv.
  apply andb_true_iff in Ho. destruct Ho as [Hpr Hps].
  destruct (jseqb k clave_proto).
  - destruct v; simpl; simpl in Hv;
      try (rewrite Hpr, Hps; reflexivity);
      try (rewrite Hv, Hps; reflexivity).
    rewrite Hps. reflexivity.
  - simpl. rewrite Hpr. simpl. apply props_set_limpio; assumption.
Qed.

Lemma bucle_limpio (props : list (jsstring * JsVal)) :
  Forall (fun kv => es_contenedor (snd kv) = true ->
                    P (limpiarEntrada (snd kv))) props ->
  forall o, P (JObj (fst o) (snd o)) ->
  let r := fold_left
             (fun resultado kv =>
                obj_set resultado (fst kv) (paso limpiarEntrada (snd kv)))
             props o in
  P (JObj (fst r) (snd r)).
Proof.
  induction 1 as [|kv t Hkv Ht IH]; intros o Ho; simpl.
  - exact Ho.
  - apply IH. apply obj_set_limpio; [exact Ho|].
    apply paso_limpio. exact Hkv.
Qed.

Lemma limpiarEntrada_limpia (obj : JsVal) :
  es_contenedor obj = true -> P (limpiarEntrada obj).
Proof.
  induction obj as [ | | | | |l IH|pr ps _ IH] using JsVal_nested_ind;
    try discriminate; intros _.
  - unfold P. simpl. apply forallb_forall. intros v Hv.
    apply in_map_iff in Hv. destruct Hv as [x [<- Hx]].
    apply paso_limpio. rewrite Forall_forall in IH. apply IH. exact Hx.
  - cbn [limpiarEntrada].
    apply (bucle_limpio IH (None, [])). reflexivity.
Qed.
End limpios.

Lemma existsb_jseqb_In k ks : existsb (jseqb k) ks = true <-> In k ks.
Proof.
  rewrite existsb_exists. split.
  - intros [x [Hx E]]. apply jseqb_eq in E. subst. exact Hx.
  - intros H. exists k. split; [exact H|apply jseqb_refl].
Qed.

Lemma sin_repetidos_NoDup ks : sin_repetidos ks = true <-> NoDup ks.
Proof.
  induction ks as [|k t IH]; simpl.
  - split; [constructor|reflexivity].
  - rewrite andb_true_iff, negb_true_iff, IH. split.
    + intros [Hk Ht]. constructor; [|exact Ht].
      intros Hin. apply existsb_jseqb_In in Hin. congruence.
    + intros H. inversion H as [|? ? Hk Ht]; subst. split; [|exact Ht].
      destruct (existsb (jseqb k) t) eqn:E; [|reflexivity].
      apply existsb_jseqb_In in E. contradiction.
Qed.

Lemma props_set_nueva ps k v :
  ~ In k (map fst ps) -> props_set ps k v = ps ++ [(k, v)].
Proof.
  induction ps as [|[k0 v0] t IH]; simpl; intros H; [reflexivity|].
  destruct (jseqb k0 k) eqn:E.
  - apply jseqb_eq in E. subst. tauto.
  - rewrite IH by tauto. reflexivity.
Qed.

Lemma bucle_llano (g : JsVal -> JsVal) (l : list (jsstring * JsVal)) :
  forall pr acc,
    NoDup (map fst acc ++ map fst l) ->
    ~ In clave_proto (map fst l) ->
    fold_left (fun resultado kv => obj_set resultado (fst kv) (g (snd kv)))
              l (pr, acc)
    = (pr, acc ++ map (fun kv => (fst kv, g (snd kv))) l).
Proof.
  induction l as [|[k v] t IH]; intros pr acc Hnd Hp; simpl.
  - rewrite app_nil_r. reflexivity.
  - simpl in Hnd, Hp.
    assert (Hk : jseqb k clave_proto = false).
    { apply jseqb_neq. intros ->. tauto. }
    unfold obj_set at 2. rewrite Hk. cbn [fst snd].
    apply NoDup_remove in Hnd as Hnd'. destruct Hnd' as [Hnd1 Hnd2].
    rewrite props_set_nueva.
    + rewrite IH.
      * rewrite <- app_assoc. reflexivity.
      * rewrite map_app, <- app_assoc. exact Hnd.
      * tauto.
    + intros Hin. apply Hnd2. apply in_or_app. left. exact Hin.
Qed.

Lemma paso_sanear (v : JsVal) :
  (es_contenedor v = true -> limpiarEntrada v = sanear v) ->
  paso limpiarEntrada v = sanear v.
Proof.
  destruct v; simpl; intros H; try reflexivity; apply H; reflexivity.
Qed.

Lemma limpiarEntrada_sanear (obj : JsVal) :
  es_json_llano obj = true -> es_contenedor obj = true ->
  limpiarEntrada obj = sanear obj.
Proof.
  induction obj as [ | | | | |l IH|pr ps _ IH] using JsVal_nested_ind;
    try discriminate; intros Hj _.
  - simpl. f_equal. apply map_ext_in. intros v Hv.
    apply paso_sanear. intros Hc.
    rewrite Forall_forall in IH. apply IH; [exact Hv| |exact Hc].
    simpl in Hj. rewrite forallb_forall in Hj. apply Hj. exact Hv.
  - simpl in Hj. rewrite !andb_true_iff in Hj.
    destruct Hj as [[[Hpr Hnd] Hp] Hps].
    cbn [limpiarEntrada sanear].
    rewrite bucle_llano.
    + cbn [fst snd app]. f_equal. apply map_ext_in. intros kv Hkv.
      f_equal. apply paso_sanear. intros Hc.
      rewrite Forall_forall in IH. apply IH; [exact Hkv| |exact Hc].
      rewrite forallb_forall in Hps. apply Hps. exact Hkv.
    + simpl. apply sin_repetidos_NoDup. exact Hnd.
    + intros Hin. apply existsb_jseqb_In in Hin.
      rewrite Hin in Hp. discriminate.
Qed.

(** C2, as stated in the specification, fails: the guard at the top of
    [limpiarEntrada] returns a payload that is not an object as it is, so
    a payload that is itself a string keeps its control characters. *)
Lemma C2_counterexample :
  ~ (forall payload : JsVal,
        todas_cadenas cadena_limpia (limpiarEntrada payload) = true).
Proof.
  intros H. specialize (H (JStr [0%N])). discriminate H.
Qed.

(** C2, amended.  A payload that is an object or an array comes out with
    every string leaf free of the control characters 0x00-0x09,
    0x0B-0x0C, 0x0E-0x1F, 0x7F and at most 10,000 code units long; when
    it is plain JSON data with no property named [__proto__], the result
    is the payload with every string leaf cleaned and truncated and every
    other leaf unchanged; a payload that is not an object or an array is
    returned unchanged. *)
Theorem C2_limpiarEntrada (payload : JsVal) :
  (es_contenedor payload = true ->
   todas_cadenas cadena_limpia (limpiarEntrada payload) = true
   /\ (es_json_llano payload = true ->
       limpiarEntrada payload = sanear payload))
  /\ (es_contenedor payload = false -> limpiarEntrada payload = payload).
Proof.
  split.
  - intros Hc. split.
    + apply limpiarEntrada_limpia. exact Hc.
    + intros Hj. apply limpiarEntrada_sanear; assumption.
  - destruct payload; simpl; intros H; try reflexivity; discriminate H.
Qed.

Lemma C2_limpiarEntrada_witness :
  let payload :=
    objeto [(str "mensaje", JStr (str "hola" ++ [7; 27]%N));
            (str "esGrupo", JBool false);
            (str "lista", JArr [JNum 3; JStr [0; 104; 127]%N])] in
  todas_cadenas cadena_limpia (limpiarEntrada payload) = true
  /\ limpiarEntrada payload
     = objeto [(str "mensaje", JStr (str "hola"));
               (str "esGrupo", JBool false);
               (str "lista", JArr [JNum 3; JStr [104%N]])].
Proof.
  intros payload.
  destruct (proj1 (C2_limpiarEntrada payload) eq_refl) as [H1 H2].
  split; [exact H1|].
  rewrite (H2 eq_refl). reflexivity.
Defined.

(** ** The inbound buffer *)

Lemma slice_neg_corto (A : Type) n (l : list A) :
  length l <= n -> slice_neg n l = l.
Proof.
  intros H. unfold slice_neg.
  replace (length l - n) with 0 by lia. reflexivity.
Qed.

Lemma slice_neg_length (A : Type) n (l : list A) :
  n <= length l -> length (slice_neg n l) = n.
Proof.
  intros H. unfold slice_neg. rewrite length_skipn. lia.
Qed.

Lemma slice_neg_sufijo (A : Type) n (l : list A) :
  exists descartados, l = descartados ++ slice_neg n l.
Proof.
  exists (firstn (length l - n) l). unfold slice_neg.
  symmetry. apply firstn_skipn.
Qed.

Lemma slice_neg_app (A : Type) n (l l' : list A) :
  slice_neg n (slice_neg n l ++ l') = slice_neg n (l ++ l').
Proof.
  destruct (Nat.le_gt_cases (length l) n) as [H|H].
  - rewrite (slice_neg_corto l H). reflexivity.
  - unfold slice_neg at 1 3.
    rewrite !length_app, slice_neg_length by lia.
    unfold slice_neg. rewrite !skipn_app, length_skipn, skipn_skipn.
    replace (n + length l' - n + (length l - n))
      with (length l + length l' - n) by lia.
    f_equal. f_equal. lia.
Qed.

Lemma agregarMensaje_run info env w :
  agregarMensaje info env w
  = (inr tt,
     {| estado := conMensajes (estado w)
                    (slice_neg 100 (mensajesEntrantes (estado w) ++ [info]));
        traza := traza w |}).
Proof.
  unfold agregarMensaje, bind, leerEstado, asignarMensajes, conMensajes.
  destruct (100 <? length (mensajesEntrantes (estado w) ++ [info])) eqn:E.
  - reflexivity.
  - apply Nat.ltb_ge in E. rewrite (slice_neg_corto _ E). reflexivity.
Qed.

Lemma detallesGrupo_run mensaje info env w :
  exists info' w',
    detallesGrupo mensaje info env w = (inr info', w')
    /\ estado w' = estado w
    /\ de info' = de info /\ cuerpo info' = cuerpo info
    /\ esGrupo info' = esGrupo info /\ autor info' = autor info
    /\ idMensaje info' = idMensaje info
    /\ marcaTiempo info' = marcaTiempo info.
Proof.
  unfold detallesGrupo, intentar, bind, llamar, ret.
  destruct (getChat env mensaje) as [e|chat].
  - eexists _, _. split; [reflexivity|]. simpl. tauto.
  - destruct (author mensaje) as [[|c t]|].
    + eexists _, _. split; [reflexivity|]. simpl. tauto.
    + destruct (getContactById env (c :: t)) as [e|[co|]];
        (eexists _, _; split; [reflexivity|]; simpl; tauto).
    + eexists _, _. split; [reflexivity|]. simpl. tauto.
Qed.

Lemma alMensaje_difusion mensaje env w :
  es_difusion mensaje = true -> alMensaje mensaje env w = (inr tt, w).
Proof.
  unfold es_difusion, alMensaje. intros ->. reflexivity.
Qed.

Lemma alMensaje_otro mensaje env w :
  es_difusion mensaje = false ->
  exists r,
    registra r (env, mensaje)
    /\ estado (snd (alMensaje mensaje env w))
       = conMensajes (estado w)
           (slice_neg 100 (mensajesEntrantes (estado w) ++ [r])).
Proof.
  unfold es_difusion, alMensaje. intros ->.
  unfold intentar, bind at 1, leerEntorno. unfold bind at 1.
  set (info := infoInicial mensaje (fechaISO env)).
  destruct (esGrupo info) eqn:Eg.
  - destruct (detallesGrupo_run mensaje info env w)
      as (info' & w' & Hrun & Hst & H1 & H2 & H3 & H4 & H5 & H6).
    rewrite Hrun, agregarMensaje_run. simpl. rewrite Hst.
    exists info'. split; [|reflexivity].
    unfold registra. simpl. rewrite H1, H2, H3, H4, H5, H6.
    unfold info. simpl. tauto.
  - unfold ret. rewrite agregarMensaje_run. simpl.
    exists info. split; [|reflexivity].
    unfold registra, info. simpl. tauto.
Qed.

Lemma alMensajes_buffer evs : forall w,
  exists registros,
    Forall2 registra registros
            (filter (fun em => negb (es_difusion (snd em))) evs)
    /\ (registros = [] -> estado (alMensajes evs w) = estado w)
    /\ (registros <> [] ->
        estado (alMensajes evs w)
        = conMensajes (estado w)
            (slice_neg 100 (mensajesEntrantes (estado w) ++ registros))).
Proof.
  induction evs as [|[env m] t IH]; intros w.
  - exists []. split; [constructor|]. split; [reflexivity|congruence].
  - unfold alMensajes. cbn [fold_left filter snd fst].
    fold (alMensajes t (snd (alMensaje m env w))).
    destruct (es_difusion m) eqn:Ed; cbn [negb].
    + rewrite (alMensaje_difusion m env w Ed). cbn [snd]. apply IH.
    + destruct (alMensaje_otro m env w Ed) as (r & Hr & Hst).
      destruct (IH (snd (alMensaje m env w))) as (rs & Hrs & Hnil & Hcons).
      exists (r :: rs). split; [constructor; assumption|].
      split; [discriminate|]. intros _.
      destruct rs as [|r' rs'].
      * rewrite (Hnil eq_refl). exact Hst.
      * rewrite Hcons by discriminate. rewrite Hst. unfold conMensajes.
        cbn [estadoBot codigoQR clienteListo mensajesEntrantes].
        f_equal.
        rewrite slice_neg_app, <- app_assoc. reflexivity.
Qed.

(** When every handler finishes before the next message is delivered,
    the buffer, empty at the start, holds the records of the messages
    that are not from the broadcast sender in the order of their
    arrival: all of them when they are at most 100, the last 100 of them
    otherwise. *)
Lemma alMensajes_en_orden (evs : list (Entorno * Mensaje)) (w : Mundo) :
  mensajesEntrantes (estado w) = [] ->
  exists registros,
    Forall2 registra registros
            (filter (fun em => negb (es_difusion (snd em))) evs)
    /\ (length registros <= 100 ->
        mensajesEntrantes (estado (alMensajes evs w)) = registros)
    /\ (100 < length registros ->
        length (mensajesEntrantes (estado (alMensajes evs w))) = 100
        /\ exists descartados,
            registros
            = descartados ++ mensajesEntrantes (estado (alMensajes evs w)))
    /\ (forall mensaje env w0,
           es_difusion mensaje = true ->
           alMensaje mensaje env w0 = (inr tt, w0)).
Proof.
  intros Hvacio.
  destruct (alMensajes_buffer evs w) as (rs & Hrs & Hnil & Hcons).
  exists rs. split; [exact Hrs|].
  assert (Hbuf : mensajesEntrantes (estado (alMensajes evs w))
                 = slice_neg 100 rs).
  { destruct rs as [|r rs'].
    - rewrite (Hnil eq_refl). exact Hvacio.
    - rewrite Hcons by discriminate. simpl. rewrite Hvacio. reflexivity. }
  rewrite Hbuf. repeat split.
  - intros Hle. apply slice_neg_corto. exact Hle.
  - apply slice_neg_length. lia.
  - apply slice_neg_sufijo.
  - intros mensaje env w0. apply alMensaje_difusion.
Qed.

(** ** The buffer under the event loop *)

Lemma empujar_buffer info env w :
  mensajesEntrantes (estado (empujar info env w))
  = slice_neg 100 (mensajesEntrantes (estado w) ++ [info]).
Proof.
  unfold empujar. rewrite agregarMensaje_run. reflexivity.
Qed.

Lemma turnos_app ts ts' s :
  turnos (ts ++ ts') s = turnos ts' (turnos ts s).
Proof.
  unfold turnos. apply fold_left_app.
Qed.

Lemma llegadas_app ts ts' :
  llegadas (ts ++ ts') = llegadas ts ++ llegadas ts'.
Proof.
  unfold llegadas. apply flat_map_app.
Qed.

(** One message handled from its arrival to its end with no other turn
    in between is the handler run in one piece. *)
Lemma turnos_de_un_mensaje env mensaje w :
  turnos [Llega env mensaje; Reanuda 0; Reanuda 0] (sinPendientes w)
  = sinPendientes (snd (alMensaje mensaje env w)).
Proof.
  unfold turnos, sinPendientes, alMensaje.
  cbn [fold_left]. unfold turno at 3. unfold alLlegar.
  destruct (jseqb (from mensaje) (str "status@broadcast")); [reflexivity|].
  unfold intentar, bind at 1, leerEntorno. unfold bind at 1.
  cbn [mundo pendientes].
  set (info := infoInicial mensaje (fechaISO env)).
  destruct (esGrupo info) eqn:Eg.
  - unfold turno at 2.
    cbn [mundo pendientes app nth_error firstn skipn alReanudar].
    unfold detallesGrupo, intentar, bind at 1, llamar.
    destruct (getChat env mensaje) as [e|chat].
    + cbn [fst snd app turno mundo pendientes nth_error].
      unfold ret, empujar, registrarLlamada.
      rewrite !agregarMensaje_run. reflexivity.
    + destruct (author mensaje) as [[|c t]|].
      * cbn [fst snd app turno mundo pendientes nth_error].
        unfold ret, empujar, registrarLlamada.
        rewrite !agregarMensaje_run. reflexivity.
      * cbn [fst snd app turno mundo pendientes nth_error firstn skipn
             alReanudar].
        unfold intentar, bind, llamar.
        destruct (getContactById env (c :: t)) as [e|[co|]];
          cbn [fst snd app mundo pendientes];
          unfold ret, empujar, registrarLlamada;
          rewrite !agregarMensaje_run; reflexivity.
      * cbn [fst snd app turno mundo pendientes nth_error].
        unfold ret, empujar, registrarLlamada.
        rewrite !agregarMensaje_run. reflexivity.
  - cbn [turno mundo pendientes nth_error]. unfold ret, empujar.
    rewrite !agregarMensaje_run. reflexivity.
Qed.

Lemma turnos_secuencial evs : forall w,
  turnos (secuencial evs) (sinPendientes w) = sinPendientes (alMensajes evs w).
Proof.
  induction evs as [|[env m] t IH]; intros w; [reflexivity|].
  change (secuencial ((env, m) :: t))
    with ([Llega env m; Reanuda 0; Reanuda 0] ++ secuencial t).
  rewrite turnos_app, turnos_de_un_mensaje, IH. reflexivity.
Qed.

Lemma pendiente_de_mas l l' p : pendiente_de l p -> pendiente_de (l ++ l') p.
Proof.
  destruct p; cbn [pendiente_de]; intros (H1 & H2); (split; [|exact H2]);
    apply in_or_app; left; exact H1.
Qed.

Lemma registro_de_mas l l' (r : InfoMensaje) :
  (exists em, In em l /\ es_difusion (snd em) = false /\ registra r em) ->
  exists em, In em (l ++ l') /\ es_difusion (snd em) = false /\ registra r em.
Proof.
  intros (em & H1 & H2). exists em. split; [|exact H2].
  apply in_or_app. left. exact H1.
Qed.

Lemma invariante_empujar l s registros r env em0 ps :
  invariante l s registros ->
  In em0 l -> es_difusion (snd em0) = false -> registra r em0 ->
  esGrupo r = true ->
  Forall (pendiente_de l) ps ->
  S (length ps) = length (pendientes s) ->
  invariante l {| mundo := empujar r env (mundo s); pendientes := ps |}
             (registros ++ [r]).
Proof.
  intros (Hb & Hr & Hp & Hd & Hn) Hin Hdif Hreg Hg Hps Hlen.
  unfold invariante. cbn [mundo pendientes].
  split; [|split; [|split; [|split]]].
  - rewrite empujar_buffer, Hb. apply slice_neg_app.
  - apply Forall_app. split; [exact Hr|].
    constructor; [|constructor]. exists em0. tauto.
  - exact Hps.
  - rewrite filter_app. cbn [filter]. rewrite Hg. cbn [negb].
    rewrite app_nil_r. exact Hd.
  - rewrite length_app. cbn [length]. lia.
Qed.

Lemma invariante_turno t l s registros :
  invariante l s registros ->
  exists registros', invariante (l ++ llegadas [t]) (turno t s) registros'.
Proof.
  intros Hinv. pose proof Hinv as (Hb & Hr & Hp & Hd & Hn).
  destruct t as [env m|i]; cbn [llegadas flat_map turno].
  - rewrite app_nil_r. unfold alLlegar.
    fold (es_difusion m).
    destruct (es_difusion m) eqn:Edif.
    + exists registros. unfold invariante.
      rewrite !filter_app. cbn [filter snd]. unfold es_directo at 2.
      cbn [snd]. rewrite Edif. cbn [negb andb]. rewrite !app_nil_r.
      repeat split; try assumption.
      * eapply Forall_impl; [|exact Hr]. intros r. apply registro_de_mas.
      * eapply Forall_impl; [|exact Hp]. intros p. apply pendiente_de_mas.
    + set (info := infoInicial m (fechaISO env)).
      assert (Hinfo : registra info (env, m)).
      { unfold registra, info. cbn. tauto. }
      assert (Hin : In (env, m) (l ++ [(env, m)])).
      { apply in_or_app. right. left. reflexivity. }
      destruct (esGrupo info) eqn:Eg.
      * exists registros. unfold invariante. cbn [mundo pendientes].
        rewrite !filter_app. cbn [filter snd]. unfold es_directo at 2.
        cbn [snd]. rewrite Edif.
        replace (endsWith (from m) (str "@g.us")) with true
          by (symmetry; exact Eg).
        cbn [negb andb]. rewrite !app_nil_r, !length_app. cbn [length].
        split; [exact Hb|]. split; [|split; [|split]].
        -- eapply Forall_impl; [|exact Hr]. intros r. apply registro_de_mas.
        -- apply Forall_app. split.
           ++ eapply Forall_impl; [|exact Hp]. intros p.
              apply pendiente_de_mas.
           ++ constructor; [|constructor]. cbn [pendiente_de]. tauto.
        -- exact Hd.
        -- lia.
      * exists (registros ++ [info]). unfold invariante.
        cbn [mundo pendientes].
        rewrite !filter_app. cbn [filter snd]. unfold es_directo at 2.
        cbn [snd]. rewrite Edif, Eg.
        replace (endsWith (from m) (str "@g.us")) with false
          by (symmetry; exact Eg).
        cbn [negb andb]. rewrite !length_app. cbn [length].
        split; [|split; [|split; [|split]]].
        -- rewrite empujar_buffer, Hb. apply slice_neg_app.
        -- apply Forall_app. split.
           ++ eapply Forall_impl; [|exact Hr]. intros r.
              apply registro_de_mas.
           ++ constructor; [|constructor]. exists (env, m). tauto.
        -- eapply Forall_impl; [|exact Hp]. intros p. apply pendiente_de_mas.
        -- apply Forall2_app; [exact Hd|].
           constructor; [exact Hinfo|constructor].
        -- lia.
  - rewrite app_nil_r.
    destruct (nth_error (pendientes s) i) as [p|] eqn:Ep;
      [|exists registros; exact Hinv].
    destruct (nth_error_split _ _ Ep) as (l1 & l2 & Hps & Hl1).
    assert (Hf : firstn i (pendientes s) = l1).
    { rewrite Hps, <- Hl1, firstn_app, firstn_all, Nat.sub_diag.
      cbn [firstn]. apply app_nil_r. }
    assert (Hs : skipn (S i) (pendientes s) = l2).
    { rewrite Hps, <- Hl1.
      change (l1 ++ p :: l2) with (l1 ++ [p] ++ l2).
      rewrite app_assoc.
      replace (S (length l1)) with (length (l1 ++ [p]))
        by (rewrite length_app; cbn [length]; lia).
      rewrite skipn_app, skipn_all, Nat.sub_diag. reflexivity. }
    rewrite Hf, Hs.
    assert (Hpp : pendiente_de l p /\ Forall (pendiente_de l) (l1 ++ l2)
                  /\ S (length (l1 ++ l2)) = length (pendientes s)).
    { rewrite Hps in Hp. apply Forall_app in Hp as (Hp1 & Hp2).
      apply Forall_cons_iff in Hp2 as (Hp0 & Hp2').
      split; [exact Hp0|]. split; [apply Forall_app; tauto|].
      rewrite Hps, !length_app. cbn [length]. lia. }
    destruct Hpp as (Hp0 & Hresto & Hlen).
    destruct p as [env m info|env m info idAutor]; cbn [pendiente_de] in Hp0;
      destruct Hp0 as (Hin & Hdif & Hreg & Hg); cbn [alReanudar].
    + destruct (getChat env m) as [e|chat]; cbn [fst snd app].
      * exists (registros ++ [info]).
        apply invariante_empujar with (em0 := (env, m)); assumption.
      * assert (Hreg1 : registra (conNombreGrupo info (ch_name chat)) (env, m))
          by exact Hreg.
        destruct (author m) as [[|c t]|] eqn:Ea; cbn [fst snd app].
        -- exists (registros ++ [conNombreGrupo info (ch_name chat)]).
           apply invariante_empujar with (em0 := (env, m)); assumption.
        -- exists registros. unfold invariante. cbn [mundo pendientes].
           split; [exact Hb|]. split; [exact Hr|]. split; [|split].
           ++ apply Forall_app in Hresto as (H1 & H2).
              apply Forall_app. split; [exact H1|].
              constructor; [|exact H2]. cbn [pendiente_de]. tauto.
           ++ exact Hd.
           ++ rewrite <- Hn. f_equal.
              rewrite length_app in *. cbn [length]. lia.
        -- exists (registros ++ [conNombreGrupo info (ch_name chat)]).
           apply invariante_empujar with (em0 := (env, m)); assumption.
    + destruct (getContactById env idAutor) as [e|[co|]]; cbn [fst snd app].
      * exists (registros ++ [info]).
        apply invariante_empujar with (em0 := (env, m)); assumption.
      * eexists (registros ++ [conAutor info _ _]).
        apply invariante_empujar with (em0 := (env, m)); assumption.
      * exists (registros ++ [info]).
        apply invariante_empujar with (em0 := (env, m)); assumption.
Qed.

Lemma invariante_turnos ts : forall l s registros,
  invariante l s registros ->
  exists registros', invariante (l ++ llegadas ts) (turnos ts s) registros'.
Proof.
  induction ts as [|t ts IH]; intros l s registros Hinv.
  - exists registros. cbn. rewrite app_nil_r. exact Hinv.
  - destruct (invariante_turno t Hinv) as (r1 & H1).
    destruct (IH _ _ _ H1) as (r2 & H2).
    exists r2.
    change (t :: ts) with ([t] ++ ts).
    rewrite llegadas_app, app_assoc, turnos_app. exact H2.
Qed.




Example alMensajes_ej :
  map nombreGrupo
      (mensajesEntrantes
         (estado (alMensajes [(Ejemplo.entorno, Ejemplo.mensaje1);
                              (Ejemplo.entorno, Ejemplo.mensajeDifusion);
                              (Ejemplo.entorno, Ejemplo.mensajeGrupo)]
                             Ejemplo.mundoInicial)))
  = [[]; str "Familia"].
Proof. reflexivity. Qed.

(** ** The connection state *)

Example alEventos_ej :
  let st := alEventos [EvQr (str "2@abc"); EvAuthenticated; EvReady]
                      estadoInicial in
  estadoBot st = str "conectado" /\ codigoQR st = None
  /\ clienteListo st = true.
Proof. repeat split. Qed.

Lemma no_conectado (s : jsstring) (c : N) :
  c <> 111%N -> jseqb (99%N :: c :: s) (str "conectado") = false.
Proof.
  intros H. apply jseqb_neq. intros E. apply H.
  change (str "conectado") with (99 :: 111 :: str "nectado")%N in E.
  congruence.
Qed.

Lemma alEvento_invariante ev st :
  clienteListo st = jseqb (estadoBot st) (str "conectado") ->
  sigue_protocolo (clienteListo st) [ev] = true ->
  clienteListo (alEvento ev st)
  = jseqb (estadoBot (alEvento ev st)) (str "conectado").
Proof.
  intros Hinv Hp.
  destruct ev; cbn [alEvento clienteListo estadoBot]; try reflexivity;
    cbn [sigue_protocolo] in Hp; rewrite andb_true_r in Hp;
    apply negb_true_iff in Hp; rewrite Hp; symmetry.
  - reflexivity.
  - apply (no_conectado (str "rgando_" ++ porcentaje)). discriminate.
  - reflexivity.
  - reflexivity.
Qed.

Lemma alEventos_invariante evs : forall st,
  clienteListo st = jseqb (estadoBot st) (str "conectado") ->
  sigue_protocolo (clienteListo st) evs = true ->
  clienteListo (alEventos evs st)
  = jseqb (estadoBot (alEventos evs st)) (str "conectado").
Proof.
  induction evs as [|ev t IH]; intros st Hinv Hp; [exact Hinv|].
  unfold alEventos. cbn [fold_left]. fold (alEventos t (alEvento ev st)).
  assert (H1 : sigue_protocolo (clienteListo st) [ev] = true).
  { destruct ev; simpl in *; try reflexivity;
      apply andb_true_iff in Hp; destruct Hp as [Hp _];
      rewrite Hp; reflexivity. }
  apply IH.
  - apply alEvento_invariante; assumption.
  - destruct ev; simpl in *; try exact Hp;
      apply andb_true_iff in Hp; destruct Hp as [Hl Hp];
      apply negb_true_iff in Hl; rewrite Hl; exact Hp.
Qed.

(** C4, as stated in the specification, fails: only the handler of
    [disconnected] resets [clienteListo]; after [ready], the handler of
    [authenticated] enters another state with the flag still set. *)
Lemma C4_counterexample :
  ~ (forall ev st,
        (ev = EvReady ->
         codigoQR (alEvento ev st) = None
         /\ clienteListo (alEvento ev st) = true)
        /\ (ev <> EvReady -> clienteListo (alEvento ev st) = false)).
Proof.
  intros H.
  destruct (H EvAuthenticated (alEvento EvReady estadoInicial)) as [_ H2].
  assert (E : EvAuthenticated <> EvReady) by discriminate.
  specialize (H2 E). discriminate H2.
Qed.

(** C4, amended.  Entering [ready] clears the pairing code and sets the
    connected flag; entering [disconnected] clears the flag; the handlers
    of the other states leave the flag as it was.  So, from the initial
    state, the flag is set exactly in the [ready] state as long as the
    client reports nothing but [disconnected] (or [ready]) after
    [ready]. *)
Theorem C4_estado_conexion :
  (forall st,
      let st' := alEvento EvReady st in
      estadoBot st' = str "conectado"
      /\ codigoQR st' = None /\ clienteListo st' = true)
  /\ (forall razon st, clienteListo (alEvento (EvDisconnected razon) st) = false)
  /\ (forall ev st,
         match ev with
         | EvReady | EvDisconnected _ => True
         | _ => clienteListo (alEvento ev st) = clienteListo st
         end)
  /\ (forall evs,
         sigue_protocolo false evs = true ->
         let st' := alEventos evs estadoInicial in
         clienteListo st' = true <-> estadoBot st' = str "conectado").
Proof.
  split; [|split; [|split]].
  - intros st. simpl. repeat split.
  - reflexivity.
  - intros ev st. destruct ev; simpl; auto.
  - intros evs Hp st'. subst st'.
    rewrite (alEventos_invariante evs estadoInicial eq_refl Hp).
    apply jseqb_eq.
Qed.

Lemma C4_estado_conexion_witness :
  let st' := alEventos [EvQr (str "2@abc"); EvAuthenticated; EvReady;
                        EvDisconnected (str "LOGOUT");
                        EvLoadingScreen (str "40") (str "WhatsApp")]
                       estadoInicial in
  clienteListo st' = true <-> estadoBot st' = str "conectado".
Proof.
  apply (proj2 (proj2 (proj2 C4_estado_conexion))). reflexivity.
Defined.

(** ** Reading and clearing the buffer: [GET /api/mensajes-recibidos] *)

(** C1, as stated in the specification, fails: with [limpiar=true] the
    answer carries the number of records removed, not the records. *)
Lemma C1_counterexample :
  ~ (forall env w req usuario resp w',
        getMensajesRecibidos req usuario (JStr (str "true")) env w
        = (inr resp, w') ->
        campo (json resp) "mensajes"
        = JArr (map json_de_info (mensajesEntrantes (estado w)))
        /\ mensajesEntrantes (estado w') = []).
Proof.
  intros H.
  destruct (H Ejemplo.entorno
              {| estado := conMensajes estadoInicial [Ejemplo.unRegistro];
                 traza := [] |}
              (Ejemplo.peticion (GetMensajesRecibidos (JStr (str "true"))) None) Ejemplo.unUsuario
              _ _ eq_refl) as [Hm _].
  discriminate Hm.
Qed.

(** C1, amended.  For every state of the buffer, the fetch with
    [limpiar=true] empties the buffer and answers, in the same step, with
    the number of records it removed (the records themselves are not
    returned); a fetch that follows finds the buffer empty, so no record
    is delivered after it was cleared. *)
Theorem C1_limpiar_mensajes env w req usuario :
  let r := getMensajesRecibidos req usuario (JStr (str "true")) env w in
  fst r
  = inr (res_json
           (objeto [(str "exito", JBool true);
                    (str "mensajesLimpiados", JBool true);
                    (str "mensajesEliminados",
                     JNum (Z.of_nat (length (mensajesEntrantes (estado w)))))]))
  /\ snd r = {| estado := conMensajes (estado w) []; traza := traza w |}
  /\ (forall env' req' usuario' limpiar,
         es_cadena_true limpiar = false ->
         getMensajesRecibidos req' usuario' limpiar env' (snd r)
         = (inr (res_json (objeto [(str "exito", JBool true);
                                   (str "mensajes", JArr [])])),
            snd r)).
Proof.
  repeat split.
  intros env' req' usuario' limpiar Hl.
  unfold getMensajesRecibidos at 1. rewrite Hl. reflexivity.
Qed.

Lemma C1_limpiar_mensajes_witness :
  let w := {| estado := conMensajes estadoInicial [Ejemplo.unRegistro];
              traza := [] |} in
  let r := getMensajesRecibidos (Ejemplo.peticion (GetMensajesRecibidos (JStr (str "true"))) None)
             Ejemplo.unUsuario (JStr (str "true")) Ejemplo.entorno w in
  getMensajesRecibidos (Ejemplo.peticion (GetMensajesRecibidos JUndefined) None) Ejemplo.unUsuario JUndefined
                       Ejemplo.entorno (snd r)
  = (inr (res_json (objeto [(str "exito", JBool true);
                            (str "mensajes", JArr [])])),
     snd r).
Proof.
  intros w r.
  apply (proj2 (proj2 (C1_limpiar_mensajes Ejemplo.entorno w
                         (Ejemplo.peticion (GetMensajesRecibidos (JStr (str "true"))) None) Ejemplo.unUsuario))).
  reflexivity.
Defined.

(** ** The middlewares in front of the protected routes *)

Lemma requiereConexion_no_listo st :
  clienteListo st = false \/ estadoBot st <> str "conectado" ->
  requiereConexion st = inl (respuestaNoConectado st).
Proof.
  intros H. unfold requiereConexion.
  assert (E : negb (clienteListo st)
              || negb (jseqb (estadoBot st) (str "conectado")) = true).
  { destruct H as [H|H].
    - rewrite H. reflexivity.
    - apply jseqb_neq in H. rewrite H. apply orb_true_r. }
  rewrite E. reflexivity.
Qed.

Lemma muestra_json_de_info (l : list InfoMensaje) :
  Forall2 muestra l (map json_de_info l).
Proof.
  induction l as [|r l IH]; cbn [map]; constructor; [|exact IH].
  unfold muestra. repeat split.
Qed.

(** C9, as the specification has it: a request for the inbound messages
    is answered with the buffered messages whatever the state of the
    connection.  With [limpiar=true] the answer carries no messages,
    only how many were removed. *)
Lemma C9_counterexample :
  ~ (forall env w req usuario limpiar,
        ruta req = GetMensajesRecibidos limpiar ->
        clienteListo (estado w) = false ->
        exists resp arr,
          fst (trasAutenticacion req usuario env w) = inr resp
          /\ status resp = 200%Z
          /\ campo (json resp) "mensajes" = JArr arr
          /\ Forall2 muestra (mensajesEntrantes (estado w)) arr).
Proof.
  intros H.
  destruct (H Ejemplo.entorno
              {| estado := conMensajes estadoInicial [Ejemplo.unRegistro];
                 traza := [] |}
              (Ejemplo.peticion (GetMensajesRecibidos (JStr (str "true")))
                                (Some Ejemplo.tokenApi))
              Ejemplo.unUsuario (JStr (str "true")) eq_refl eq_refl)
    as (resp & arr & Hresp & _ & Hcampo & _).
  vm_compute in Hresp. injection Hresp as <-.
  vm_compute in Hcampo. discriminate Hcampo.
Qed.

(** C9. While the connection is not ready, a request to send a message
    that has passed [requiereAutenticacion] is answered with status 503,
    [exito: false], the error text and the current connection state, and
    nothing is asked of the client nor changed.  A request for the
    inbound messages that has passed it is answered with status 200
    whatever the state of the connection: with the buffered records,
    field by field and in the order of the buffer, when it does not
    clear; with the number of removed records and no messages when it
    clears. *)
Theorem C9_conexion_y_mensajes env w req usuario :
  (forall c,
      ruta req = PostEnviarMensaje c ->
      clienteListo (estado w) = false
      \/ estadoBot (estado w) <> str "conectado" ->
      exists resp,
        trasAutenticacion req usuario env w = (inr resp, w)
        /\ status resp = 503%Z
        /\ campo (json resp) "exito" = JBool false
        /\ campo (json resp) "error"
           = JStr (str "WhatsApp no está conectado")
        /\ campo (json resp) "estado" = JStr (estadoBot (estado w))
        /\ campo (json resp) "mensaje"
           = JStr (if jseqb (estadoBot (estado w)) (str "esperando_qr")
                   then str "Escanea el código QR primero"
                   else str "Espera a que WhatsApp se conecte")
        /\ (limiteMensajesExcedido req = false ->
            requiereAutenticacion env req = inr usuario ->
            atenderRuta req env w = (inr resp, w)))
  /\ (forall limpiar,
         ruta req = GetMensajesRecibidos limpiar ->
         (requiereAutenticacion env req = inr usuario ->
          atenderRuta req env w = trasAutenticacion req usuario env w)
         /\ (forall bot qr listo,
                let w' := {| estado :=
                               {| estadoBot := bot; codigoQR := qr;
                                  clienteListo := listo;
                                  mensajesEntrantes :=
                                    mensajesEntrantes (estado w) |};
                             traza := traza w |} in
                fst (trasAutenticacion req usuario env w')
                = fst (trasAutenticacion req usuario env w))
         /\ (exists resp w1,
                trasAutenticacion req usuario env w = (inr resp, w1)
                /\ status resp = 200%Z
                /\ campo (json resp) "exito" = JBool true
                /\ traza w1 = traza w
                /\ estadoBot (estado w1) = estadoBot (estado w)
                /\ clienteListo (estado w1) = clienteListo (estado w)
                /\ (es_cadena_true limpiar = false ->
                    w1 = w
                    /\ exists arr,
                        campo (json resp) "mensajes" = JArr arr
                        /\ Forall2 muestra (mensajesEntrantes (estado w)) arr)
                /\ (es_cadena_true limpiar = true ->
                    campo (json resp) "mensajes" = JUndefined
                    /\ campo (json resp) "mensajesLimpiados" = JBool true
                    /\ campo (json resp) "mensajesEliminados"
                       = JNum (Z.of_nat
                                 (length (mensajesEntrantes (estado w))))
                    /\ mensajesEntrantes (estado w1) = []))).
Proof.
  split.
  - intros c Hr Hno.
    assert (H1 : trasAutenticacion req usuario env w
                 = (inr (respuestaNoConectado (estado w)), w)).
    { unfold trasAutenticacion. rewrite Hr.
      unfold bind, leerEstado.
      rewrite (requiereConexion_no_listo _ Hno). reflexivity. }
    exists (respuestaNoConectado (estado w)).
    split; [exact H1|].
    do 5 (split; [reflexivity|]).
    intros Hlim Hauth. unfold atenderRuta. rewrite Hr, Hlim.
    unfold bind at 1, leerEntorno. rewrite Hauth. exact H1.
  - intros limpiar Hr. split; [|split].
    + intros Hauth. unfold atenderRuta. rewrite Hr.
      unfold bind at 1, leerEntorno. rewrite Hauth. reflexivity.
    + intros bot qr listo w'. unfold trasAutenticacion. rewrite Hr.
      unfold getMensajesRecibidos.
      destruct (es_cadena_true limpiar); reflexivity.
    + unfold trasAutenticacion. rewrite Hr. unfold getMensajesRecibidos.
      destruct (es_cadena_true limpiar).
      * eexists _, _. split; [reflexivity|].
        do 5 (split; [reflexivity|]).
        split; [discriminate|]. intros _. repeat split.
      * eexists _, _. split; [reflexivity|].
        do 5 (split; [reflexivity|]).
        split; [|discriminate]. intros _.
        split; [destruct w; reflexivity|].
        eexists. split; [reflexivity|]. apply muestra_json_de_info.
Qed.

Lemma C9_conexion_y_mensajes_witness :
  let req := Ejemplo.peticion (PostEnviarMensaje Ejemplo.envio1)
                              (Some Ejemplo.tokenApi) in
  exists resp,
    atenderRuta req Ejemplo.entorno Ejemplo.mundoInicial
    = (inr resp, Ejemplo.mundoInicial)
    /\ status resp = 503%Z
    /\ campo (json resp) "estado" = JStr (str "inicializando").
Proof.
  intros req.
  assert (Hno : clienteListo (estado Ejemplo.mundoInicial) = false
                \/ estadoBot (estado Ejemplo.mundoInicial) <> str "conectado")
    by (left; reflexivity).
  assert (Hauth : requiereAutenticacion Ejemplo.entorno req
                  = inr Ejemplo.unUsuario) by (vm_compute; reflexivity).
  destruct (proj1 (C9_conexion_y_mensajes Ejemplo.entorno Ejemplo.mundoInicial
                     req Ejemplo.unUsuario) Ejemplo.envio1 eq_refl Hno)
    as (resp & _ & H503 & _ & _ & Hestado & _ & Hruta).
  exists resp. split; [|split].
  - exact (Hruta eq_refl Hauth).
  - exact H503.
  - exact Hestado.
Defined.

Example atenderRuta_sin_token :
  option_map status
    (match fst (atenderRuta
                  (Ejemplo.peticion (PostEnviarMensaje Ejemplo.envio1) None)
                  Ejemplo.entorno Ejemplo.mundoInicial) with
     | inr r => Some r
     | inl _ => None
     end) = Some 401%Z.
Proof. reflexivity. Qed.

(** C10. A protected operation admits every request whose token
    [jwt.verify] accepts (signature and expiry), whatever the claims it
    returns: no operation reads the permissions, or anything else, of
    [req.usuario]. *)
Theorem C10_permisos_sin_inspeccionar env req token datos :
  tokenDePeticion req = Some token ->
  jwt_verify (jwt env) token (JWT_SECRET env) (ahora env) = inr datos ->
  requiereAutenticacion env req = inr datos
  /\ (es_protegida (ruta req) = true ->
      limiteMensajesExcedido req = false ->
      forall w, atenderRuta req env w = trasAutenticacion req datos env w)
  /\ (forall datos' : Claims,
         trasAutenticacion req datos' = trasAutenticacion req datos).
Proof.
  intros Htok Hver.
  assert (Hauth : requiereAutenticacion env req = inr datos).
  { unfold requiereAutenticacion, verificarToken. rewrite Htok, Hver.
    reflexivity. }
  split; [exact Hauth|]. split.
  - intros Hprot Hlim w. unfold atenderRuta.
    destruct (ruta req); try discriminate Hprot;
      try rewrite Hlim; unfold bind at 1, leerEntorno;
      rewrite Hauth; reflexivity.
  - intros datos'. unfold trasAutenticacion.
    destruct (ruta req); reflexivity.
Qed.

Lemma C10_permisos_sin_inspeccionar_witness :
  let req := Ejemplo.peticion (GetMensajesRecibidos JUndefined)
                              (Some Ejemplo.tokenSinPermisos) in
  exists datos,
    permisos datos = []
    /\ requiereAutenticacion Ejemplo.entorno req = inr datos
    /\ forall w, atenderRuta req Ejemplo.entorno w
                 = trasAutenticacion req datos Ejemplo.entorno w.
Proof.
  intros req.
  exists {| usuario := str "api_user"; permisos := [];
            iat := 1700000000; exp := 1700086400 |}.
  split; [reflexivity|].
  destruct (C10_permisos_sin_inspeccionar Ejemplo.entorno req
              (token := Ejemplo.tokenSinPermisos)
              (datos := {| usuario := str "api_user"; permisos := [];
                           iat := 1700000000; exp := 1700086400 |}))
    as (H1 & H2 & _).
  - vm_compute. reflexivity.
  - vm_compute. reflexivity.
  - split; [exact H1|]. apply H2; reflexivity.
Defined.

(** ** Tokens *)

Lemma dec_cadena_cod s resto :
  Ejemplo.dec_cadena (Ejemplo.cod_cadena s ++ resto) = Some (s, resto).
Proof.
  unfold Ejemplo.dec_cadena, Ejemplo.cod_cadena. simpl.
  rewrite Nnat.Nat2N.id.
  assert (H : (length s <=? length (s ++ resto))%nat = true).
  { apply Nat.leb_le. rewrite length_app. lia. }
  rewrite H.
  rewrite firstn_app, skipn_app, Nat.sub_diag, firstn_all, skipn_all.
  simpl. rewrite app_nil_r. reflexivity.
Qed.

Lemma dec_cadenas_cod l resto :
  Ejemplo.dec_cadenas (length l)
    (concat (map Ejemplo.cod_cadena l) ++ resto) = Some (l, resto).
Proof.
  induction l as [|s t IH]; [reflexivity|].
  cbn [length map concat Ejemplo.dec_cadenas].
  rewrite <- app_assoc, dec_cadena_cod, IH. reflexivity.
Qed.

Lemma dec_lista_cod l resto :
  Ejemplo.dec_lista (Ejemplo.cod_lista l ++ resto) = Some (l, resto).
Proof.
  unfold Ejemplo.dec_lista, Ejemplo.cod_lista. simpl.
  rewrite Nnat.Nat2N.id. apply dec_cadenas_cod.
Qed.

Lemma dec_Z_cod z resto :
  Ejemplo.dec_Z (Ejemplo.cod_Z z ++ resto) = Some (z, resto).
Proof.
  unfold Ejemplo.dec_Z, Ejemplo.cod_Z. simpl.
  destruct (Z.ltb_spec z 0); simpl; f_equal; f_equal; lia.
Qed.

Lemma contrato_jwt_ejemplo : contrato_jwt Ejemplo.biblioteca.
Proof.
  intros datos secreto dur t0 t _. simpl.
  unfold Ejemplo.verificar, Ejemplo.firmar.
  rewrite dec_cadena_cod, dec_lista_cod, !dec_Z_cod.
  rewrite jseqb_refl. cbn [negb].
  rewrite Z.leb_antisym.
  destruct (t / 1000 <? t0 / 1000 + dur)%Z; reflexivity.
Qed.

Example verificar_malformado :
  verificarToken Ejemplo.biblioteca (str "secreto") (str "abc") 0 = None.
Proof. reflexivity. Qed.

Example verificar_otra_firma :
  verificarToken Ejemplo.biblioteca (str "otro secreto")
                 Ejemplo.tokenApi (ahora Ejemplo.entorno) = None.
Proof. reflexivity. Qed.

Lemma segundos_tras_24h (t0 t : Z) :
  (t0 + 24 * 60 * 60 * 1000 <= t ->
   t0 / 1000 + expiresIn_24h <= t / 1000)%Z.
Proof.
  intros H. unfold expiresIn_24h.
  replace (t0 / 1000 + 24 * 60 * 60)%Z
    with ((t0 + 24 * 60 * 60 * 1000) / 1000)%Z.
  - apply Z.div_le_mono; lia.
  - replace (t0 + 24 * 60 * 60 * 1000)%Z with (t0 + 86400 * 1000)%Z by lia.
    rewrite Z.div_add by lia. lia.
Qed.

Lemma contrato_verify_ejemplo :
  contrato_verify Ejemplo.biblioteca Ejemplo.lectura.
Proof.
  split; [|split; [|reflexivity]].
  - intros token secreto t.
    unfold Ejemplo.biblioteca, Ejemplo.lectura, Ejemplo.verificar,
      Ejemplo.carga, Ejemplo.firma_correcta, Ejemplo.partes.
    cbn [jwt_verify decodificar firma_valida].
    destruct (Ejemplo.dec_cadena token) as [[u t1]|]; [|left; reflexivity].
    destruct (Ejemplo.dec_lista t1) as [[ps t2]|]; [|left; reflexivity].
    destruct (Ejemplo.dec_Z t2) as [[i t3]|]; [|left; reflexivity].
    destruct (Ejemplo.dec_Z t3) as [[e firma]|]; [|left; reflexivity].
    cbn [fst snd option_map].
    destruct (jseqb firma secreto); cbn [negb].
    + destruct (Z.leb_spec e (t / 1000)).
      * right. right. eexists. split; [reflexivity|]. assumption.
      * repeat split. assumption.
    + right. left. reflexivity.
  - intros datos secreto otro dur t0 Hne.
    unfold Ejemplo.biblioteca, Ejemplo.lectura, Ejemplo.firma_correcta,
      Ejemplo.partes, Ejemplo.firmar.
    cbn [jwt_sign firma_valida].
    rewrite dec_cadena_cod, dec_lista_cod, !dec_Z_cod.
    apply jseqb_neq. exact Hne.
Qed.



(** ** Sending a message: the order of the calls and the failures *)

Example enviarMensaje_traza_ej :
  traza (snd (ejecutar (enviarMensaje
                          (Ejemplo.peticion
                             (PostEnviarMensaje Ejemplo.envioConArchivo) None)
                          Ejemplo.unUsuario Ejemplo.envioConArchivo)
                       Ejemplo.entorno estadoInicial))
  = [LlIsRegisteredUser (str "5215512345678@c.us");
     LlPathResolve (str "/tmp/foto.png");
     LlExistsSync (str "/tmp/foto.png");
     LlStatSync (str "/tmp/foto.png");
     LlFromFilePath (str "/tmp/foto.png");
     LlSendMessage (str "5215512345678@c.us")
                   (Medio (str "iVBORw0KGgo=") (str "la foto"))].
Proof. reflexivity. Qed.

(** C3, as stated in the specification, fails: for an individual
    destination the handler asks the client whether the number is
    registered before it looks at the file. *)
Lemma C3_counterexample :
  ~ (forall env st req usuario c rutaArchivo,
        option_map limpiarCadena (ce_rutaArchivo c) = Some rutaArchivo ->
        precedidas es_llamada_cliente (comprobaciones env rutaArchivo)
          (traza (snd (ejecutar (enviarMensaje req usuario c) env st)))).
Proof.
  intros H.
  specialize (H Ejemplo.entorno estadoInicial
                (Ejemplo.peticion (PostEnviarMensaje Ejemplo.envioConArchivo)
                                  None)
                Ejemplo.unUsuario Ejemplo.envioConArchivo
                (str "/tmp/foto.png") eq_refl
                0%nat (LlIsRegisteredUser (str "5215512345678@c.us"))
                eq_refl eq_refl).
  inversion H as [|? ? Hin _]. destruct Hin.
Qed.

Section envio.
#[local] Opaque limpiarCadena str validarNumeroTelefono endsWith cadena_de_Z.

Ltac casos_envio :=
  unfold ejecutar, enviarMensaje, intentar, bind, llamar, ret, leerEntorno;
  cbn [estado traza app negb andb];
  repeat match goal with
         | |- context [match ?x with _ => _ end] =>
             lazymatch x with
             | context [match _ with _ => _ end] => fail
             | _ => destruct x eqn:?; cbn [negb andb]
             end
         | |- context [if ?x then _ else _] =>
             lazymatch x with
             | context [if _ then _ else _] => fail
             | context [match _ with _ => _ end] => fail
             | _ => destruct x eqn:?; cbn [negb andb]
             end
         end;
  cbn [fst snd estado traza app].

Ltac por_posicion :=
  let i := fresh "i" in
  let ll := fresh "ll" in
  let Hn := fresh "Hn" in
  let Hp := fresh "Hp" in
  intros i ll Hn Hp;
  repeat (destruct i as [|i]; cbn [nth_error] in Hn;
          [injection Hn as <-; cbn in Hp; try discriminate Hp;
           repeat constructor; cbn [firstn In]; tauto|]);
  try (destruct i; discriminate Hn); try discriminate Hn.

Lemma envio_tras_comprobar env st req usuario c r0 r :
  option_map limpiarCadena (ce_rutaArchivo c) = Some (r0 :: r) ->
  precedidas es_envio (comprobaciones env (r0 :: r))
    (traza (snd (ejecutar (enviarMensaje req usuario c) env st))).
Proof.
  intros Hr. unfold comprobaciones.
  unfold ejecutar, enviarMensaje. rewrite Hr.
  casos_envio; por_posicion.
Qed.

Lemma cliente_tras_comprobar_grupo env st req usuario c r0 r :
  option_map limpiarCadena (ce_rutaArchivo c) = Some (r0 :: r) ->
  truthy (esGrupoSaneado (ce_esGrupo c)) = true ->
  precedidas es_llamada_cliente (comprobaciones env (r0 :: r))
    (traza (snd (ejecutar (enviarMensaje req usuario c) env st))).
Proof.
  intros Hr Hg. unfold comprobaciones.
  unfold ejecutar, enviarMensaje. cbv zeta. rewrite Hr, Hg.
  casos_envio; por_posicion.
Qed.

Lemma envio_con_archivo_comprobado env st req usuario c r0 r :
  option_map limpiarCadena (ce_rutaArchivo c) = Some (r0 :: r) ->
  forall chatId contenido,
    In (LlSendMessage chatId contenido)
       (traza (snd (ejecutar (enviarMensaje req usuario c) env st))) ->
    existsSync env (path_resolve env (r0 :: r)) = true
    /\ exists size,
        statSync_size env (path_resolve env (r0 :: r)) = inr size
        /\ (size <= MAX_FILE_SIZE env * 1024 * 1024)%Z.
Proof.
  intros Hr chatId contenido.
  unfold ejecutar, enviarMensaje. rewrite Hr.
  casos_envio; intros Hin; cbn [In] in Hin;
    repeat (destruct Hin as [Hin|Hin]; try discriminate Hin);
    try contradiction;
    (split;
     [apply negb_false_iff; assumption
     |eexists; split; [reflexivity|apply Z.ltb_ge; assumption]]).
Qed.

Lemma registro_primero env st req usuario c :
  truthy (esGrupoSaneado (ce_esGrupo c)) = false ->
  let t := traza (snd (ejecutar (enviarMensaje req usuario c) env st)) in
  t = [] \/ exists chatId resto, t = LlIsRegisteredUser chatId :: resto.
Proof.
  intros Hg. unfold ejecutar, enviarMensaje. cbv zeta. rewrite Hg.
  casos_envio; try (left; reflexivity);
    right; eexists _, _; reflexivity.
Qed.

Lemma enviarMensaje_excepciones env st req usuario c :
  exists resp w',
    ejecutar (enviarMensaje req usuario c) env st = (inr resp, w')
    /\ estado w' = st
    /\ match excepciones env (traza w') with
       | [] => (status resp =? 500)%Z = false
       | [e] =>
           resp = error500 (str "Error al enviar mensaje: " ++ message e)
       | _ => False
       end.
Proof.
  casos_envio; eexists _, _; (split; [reflexivity|]);
    (split; [reflexivity|]);
    unfold excepciones; cbn [traza flat_map excepcion_de app];
    repeat match goal with
           | H : isRegisteredUser _ _ = _ |- _ => rewrite H; clear H
           | H : statSync_size _ _ = _ |- _ => rewrite H; clear H
           | H : fromFilePath _ _ = _ |- _ => rewrite H; clear H
           | H : sendMessage _ _ _ = _ |- _ => rewrite H; clear H
           end;
    cbn [app]; reflexivity.
Qed.
End envio.

(** C3, amended.  When an attachment path is supplied (a path that is
    not empty once cleaned), the path is resolved and the existence and
    the size of the file are checked before the message is handed to the
    client, and it is handed over only if the file exists and is no
    larger than the configured maximum; for a group destination these
    checks come before every call to the client, while for an individual
    destination the handler first asks the client whether the number is
    registered. *)
Theorem C3_comprobaciones_antes_de_enviar env st req usuario c r0 r :
  option_map limpiarCadena (ce_rutaArchivo c) = Some (r0 :: r) ->
  let t := traza (snd (ejecutar (enviarMensaje req usuario c) env st)) in
  precedidas es_envio (comprobaciones env (r0 :: r)) t
  /\ (forall chatId contenido,
         In (LlSendMessage chatId contenido) t ->
         existsSync env (path_resolve env (r0 :: r)) = true
         /\ exists size,
             statSync_size env (path_resolve env (r0 :: r)) = inr size
             /\ (size <= MAX_FILE_SIZE env * 1024 * 1024)%Z)
  /\ (truthy (esGrupoSaneado (ce_esGrupo c)) = true ->
      precedidas es_llamada_cliente (comprobaciones env (r0 :: r)) t)
  /\ (truthy (esGrupoSaneado (ce_esGrupo c)) = false ->
      t = [] \/ exists chatId resto, t = LlIsRegisteredUser chatId :: resto).
Proof.
  intros Hr t. subst t. split; [|split; [|split]].
  - apply envio_tras_comprobar. exact Hr.
  - apply envio_con_archivo_comprobado. exact Hr.
  - intros Hg. apply cliente_tras_comprobar_grupo; assumption.
  - intros Hg. apply registro_primero. exact Hg.
Qed.

Lemma C3_comprobaciones_antes_de_enviar_witness :
  precedidas es_llamada_cliente
    (comprobaciones Ejemplo.entorno (str "/tmp/foto.png"))
    (traza (snd (ejecutar
                   (enviarMensaje
                      (Ejemplo.peticion
                         (PostEnviarMensaje Ejemplo.envioGrupoConArchivo) None)
                      Ejemplo.unUsuario Ejemplo.envioGrupoConArchivo)
                   Ejemplo.entorno estadoInicial))).
Proof.
  apply (proj1 (proj2 (proj2
           (@C3_comprobaciones_antes_de_enviar Ejemplo.entorno estadoInicial
              (Ejemplo.peticion
                 (PostEnviarMensaje Ejemplo.envioGrupoConArchivo) None)
              Ejemplo.unUsuario Ejemplo.envioGrupoConArchivo
              47%N (str "tmp/foto.png") eq_refl)))).
  reflexivity.
Defined.

(** ** Internal failures *)

Lemma postAuth_excepciones env st req contrasena :
  exists resp w',
    ejecutar (postAuth req contrasena) env st = (inr resp, w')
    /\ match excepciones env (traza w') with
       | [] => (status resp =? 500)%Z = false
       | _ => resp = error500 (str "Error interno del servidor")
       end.
Proof.
  unfold ejecutar, postAuth, intentar, bind, llamar, ret, leerEntorno.
  destruct (errores req).
  - cbn [estado traza app].
    destruct (bcrypt_compare env (limpiarCadena contrasena)) as [e|[|]] eqn:E;
      eexists _, _; (split; [reflexivity|]);
      unfold excepciones; cbn [traza flat_map excepcion_de];
      rewrite E; reflexivity.
  - eexists _, _. split; reflexivity.
Qed.



Example enviarMensaje_falla_ej :
  fst (ejecutar (enviarMensaje
                   (Ejemplo.peticion (PostEnviarMensaje Ejemplo.envio1) None)
                   Ejemplo.unUsuario Ejemplo.envio1)
                (Ejemplo.entornoFalla Ejemplo.fallo) estadoInicial)
  = inr (error500 (str "Error al enviar mensaje: Evaluation failed")).
Proof. reflexivity. Qed.

(** * Further properties of the code *)

(** ** The sanitizer on strings and on clean data *)

Lemma limpiarCadena_fija s : cadena_limpia s = true -> limpiarCadena s = s.
Proof.
  unfold cadena_limpia, limpiarCadena, substring0, replace_class_g.
  intros H. apply andb_true_iff in H. destruct H as [Hc Hl].
  rewrite (forallb_filter_id _ _ Hc).
  apply firstn_all2. apply N.leb_le in Hl. lia.
Qed.

(** X1. A string is left as it is by the cleaning step exactly when it
    holds no control character of the class and at most 10,000 code
    units; cleaning twice is cleaning once; the result only holds code
    units of the input that are outside the class, so line feeds and
    carriage returns stay while tabs go. *)
Theorem X1_limpiarCadena (s : jsstring) :
  (limpiarCadena s = s <-> cadena_limpia s = true)
  /\ limpiarCadena (limpiarCadena s) = limpiarCadena s
  /\ (forall c, In c (limpiarCadena s) -> In c s /\ es_control c = false)
  /\ es_control 10 = false /\ es_control 13 = false /\ es_control 9 = true.
Proof.
  split; [|split; [|split]].
  - split.
    + intros H. rewrite <- H. apply limpiarCadena_limpia.
    + apply limpiarCadena_fija.
  - apply limpiarCadena_fija. apply limpiarCadena_limpia.
  - intros c Hc. unfold limpiarCadena, substring0, replace_class_g in Hc.
    apply In_firstn in Hc. apply filter_In in Hc.
    destruct Hc as [Hin Hn]. split; [exact Hin|].
    apply negb_true_iff. exact Hn.
  - repeat split.
Qed.

Lemma X1_limpiarCadena_witness :
  limpiarCadena (str "hola" ++ [10%N]) = str "hola" ++ [10%N].
Proof.
  apply (proj1 (X1_limpiarCadena (str "hola" ++ [10%N]))). reflexivity.
Defined.

Lemma sanear_fija (v : JsVal) :
  es_json_llano v = true -> todas_cadenas cadena_limpia v = true ->
  sanear v = v.
Proof.
  induction v as [ | | | |s|l IH|pr ps _ IH] using JsVal_nested_ind;
    simpl; intros Hj Hc; try reflexivity.
  - rewrite (limpiarCadena_fija _ Hc). reflexivity.
  - f_equal. rewrite <- (map_id l) at 2. apply map_ext_in. intros x Hx.
    rewrite Forall_forall in IH. rewrite forallb_forall in Hj, Hc.
    apply IH; auto.
  - rewrite !andb_true_iff in Hj. destruct Hj as [[[Hpr _] _] Hps].
    destruct pr; [discriminate|]. simpl in Hc.
    f_equal. rewrite <- (map_id ps) at 2. apply map_ext_in.
    intros [k x] Hx. simpl. f_equal.
    rewrite Forall_forall in IH. rewrite forallb_forall in Hps, Hc.
    apply (IH (k, x) Hx); [apply (Hps (k, x) Hx)|apply (Hc (k, x) Hx)].
Qed.

Lemma sanear_json_llano (v : JsVal) :
  es_json_llano v = true -> es_json_llano (sanear v) = true.
Proof.
  induction v as [ | | | |s|l IH|pr ps _ IH] using JsVal_nested_ind;
    simpl; intros Hj; try reflexivity; try discriminate.
  - rewrite forallb_forall in *. intros y Hy.
    apply in_map_iff in Hy. destruct Hy as [x [<- Hx]].
    rewrite Forall_forall in IH. apply IH; auto.
  - rewrite !andb_true_iff in Hj. destruct Hj as [[[_ Hnd] Hp] Hps].
    assert (E : map fst (map (fun kv : jsstring * JsVal =>
                               (fst kv, sanear (snd kv))) ps)
                = map fst ps).
    { rewrite map_map. apply map_ext. reflexivity. }
    rewrite E, Hnd, Hp. simpl.
    rewrite forallb_forall in *. intros y Hy.
    apply in_map_iff in Hy. destruct Hy as [x [<- Hx]]. simpl.
    rewrite Forall_forall in IH. apply IH; auto.
Qed.

Lemma sanear_contenedor (v : JsVal) :
  es_contenedor (sanear v) = es_contenedor v.
Proof. destruct v; reflexivity. Qed.

Lemma sanear_limpia (v : JsVal) :
  todas_cadenas cadena_limpia (sanear v) = true.
Proof.
  induction v as [ | | | |s|l IH|pr ps _ IH] using JsVal_nested_ind;
    simpl; try reflexivity.
  - apply limpiarCadena_limpia.
  - apply forallb_forall. intros y Hy.
    apply in_map_iff in Hy. destruct Hy as [x [<- Hx]].
    rewrite Forall_forall in IH. apply IH; auto.
  - apply forallb_forall. intros y Hy.
    apply in_map_iff in Hy. destruct Hy as [x [<- Hx]]. simpl.
    rewrite Forall_forall in IH. apply IH; auto.
Qed.

(** X2. On a payload that is plain JSON data (an object or an array,
    no property named [__proto__]), sanitizing is idempotent, and it
    returns the payload itself when every string in it is already
    clean. *)
Theorem X2_limpiarEntrada_idempotente (payload : JsVal) :
  es_contenedor payload = true ->
  es_json_llano payload = true ->
  limpiarEntrada (limpiarEntrada payload) = limpiarEntrada payload
  /\ (todas_cadenas cadena_limpia payload = true ->
      limpiarEntrada payload = payload).
Proof.
  intros Hc Hj.
  rewrite (limpiarEntrada_sanear payload Hj Hc). split.
  - rewrite limpiarEntrada_sanear.
    + apply sanear_fija; [apply sanear_json_llano; exact Hj|].
      apply sanear_limpia.
    + apply sanear_json_llano. exact Hj.
    + rewrite sanear_contenedor. exact Hc.
  - intros Hl. apply sanear_fija; assumption.
Qed.

Lemma X2_limpiarEntrada_idempotente_witness :
  let payload :=
    objeto [(str "destino", JStr (str "5215512345678"));
            (str "mensaje", JStr (str "hola"));
            (str "esGrupo", JBool false)] in
  limpiarEntrada payload = payload.
Proof.
  intros payload.
  apply (proj2 (X2_limpiarEntrada_idempotente payload eq_refl eq_refl)).
  reflexivity.
Defined.

(** ** The keys of a sanitized object *)

Lemma props_set_claves ps k v x :
  In x (map fst (props_set ps k v)) <-> In x (map fst ps) \/ x = k.
Proof.
  induction ps as [|[k0 v0] t IH]; simpl.
  - split; [intros [H|[]]; auto|intros [[]|H]; auto].
  - destruct (jseqb k0 k) eqn:E; simpl.
    + apply jseqb_eq in E. subst k0. split; [tauto|].
      intros [[H|H]|H]; auto.
    + rewrite IH. tauto.
Qed.

Lemma props_set_NoDup ps k v :
  NoDup (map fst ps) -> NoDup (map fst (props_set ps k v)).
Proof.
  induction ps as [|[k0 v0] t IH]; simpl; intros H.
  - constructor; [intros []|constructor].
  - inversion H as [|? ? Hk Ht]; subst.
    destruct (jseqb k0 k) eqn:E; simpl.
    + constructor; assumption.
    + constructor; [|apply IH; exact Ht].
      rewrite props_set_claves. intros [Hin|Heq]; [contradiction|].
      apply jseqb_neq in E. congruence.
Qed.

Lemma obj_set_claves o k v x :
  In x (map fst (snd (obj_set o k v)))
  <-> In x (map fst (snd o)) \/ (x = k /\ k <> clave_proto).
Proof.
  unfold obj_set. destruct (jseqb k clave_proto) eqn:E.
  - apply jseqb_eq in E.
    assert (H : snd match v with
                    | JNull | JArr _ | JObj _ _ => (Some v, snd o)
                    | _ => o
                    end = snd o) by (destruct v; reflexivity).
    rewrite H. tauto.
  - apply jseqb_neq in E. simpl. rewrite props_set_claves.
    split; [intros [H|H]; auto|tauto].
Qed.

Lemma obj_set_NoDup o k v :
  NoDup (map fst (snd o)) -> NoDup (map fst (snd (obj_set o k v))).
Proof.
  unfold obj_set. destruct (jseqb k clave_proto).
  - destruct v; auto.
  - simpl. apply props_set_NoDup.
Qed.

Lemma obj_set_proto o k v :
  k <> clave_proto -> fst (obj_set o k v) = fst o.
Proof.
  intros H. apply jseqb_neq in H. unfold obj_set. rewrite H. reflexivity.
Qed.

Lemma bucle_claves (g : JsVal -> JsVal) (l : list (jsstring * JsVal)) :
  forall o,
    NoDup (map fst (snd o)) ->
    let r := fold_left
               (fun resultado kv => obj_set resultado (fst kv) (g (snd kv)))
               l o in
    NoDup (map fst (snd r))
    /\ (forall x, In x (map fst (snd r))
                  <-> In x (map fst (snd o))
                      \/ (In x (map fst l) /\ x <> clave_proto))
    /\ (~ In clave_proto (map fst l) -> fst r = fst o).
Proof.
  induction l as [|[k v] t IH]; intros o Hnd; simpl.
  - split; [exact Hnd|]. split; [intros x; tauto|reflexivity].
  - destruct (IH (obj_set o k (g v)) (obj_set_NoDup o k (g v) Hnd))
      as (H1 & H2 & H3).
    split; [exact H1|]. split.
    + intros x. rewrite H2, obj_set_claves. split.
      * intros [[H|[-> H]]|[H Hx]]; auto.
      * intros [H|[[<-|H] Hx]]; auto.
    + intros Hp. rewrite H3 by tauto. apply obj_set_proto.
      intros ->. tauto.
Qed.

(** X3. The sanitized copy of an object has distinct own keys: the keys
    of the input except [__proto__], which is never an own key of the
    result; and unless the input has a property of that name, the result
    has the default prototype. *)
Theorem X3_claves_saneadas (pr : option JsVal)
        (ps : list (jsstring * JsVal)) :
  exists pr' ps',
    limpiarEntrada (JObj pr ps) = JObj pr' ps'
    /\ NoDup (map fst ps')
    /\ (forall k, In k (map fst ps')
                  <-> In k (map fst ps) /\ k <> clave_proto)
    /\ (~ In clave_proto (map fst ps) -> pr' = None).
Proof.
  cbn [limpiarEntrada].
  destruct (bucle_claves (paso limpiarEntrada) ps (None, []) (NoDup_nil _))
    as (H1 & H2 & H3).
  eexists _, _. split; [reflexivity|]. split; [exact H1|]. split.
  - intros k. rewrite H2. simpl. tauto.
  - exact H3.
Qed.

Lemma X3_claves_saneadas_witness :
  exists pr' ps',
    limpiarEntrada
      (objeto [(clave_proto, objeto [(str "rutaArchivo", JStr (str "/x"))]);
               (str "destino", JStr (str "5215512345678"))])
    = JObj pr' ps'
    /\ ~ In clave_proto (map fst ps').
Proof.
  destruct (X3_claves_saneadas None
              [(clave_proto, objeto [(str "rutaArchivo", JStr (str "/x"))]);
               (str "destino", JStr (str "5215512345678"))])
    as (pr' & ps' & E & _ & Hk & _).
  exists pr', ps'. split; [exact E|].
  intros Hin. apply Hk in Hin. destruct Hin as [_ Hn]. apply Hn. reflexivity.
Defined.

(** ** Phone numbers and chat identifiers *)

Lemma In_skipn (A : Type) (x : A) n l : In x (skipn n l) -> In x l.
Proof.
  intros H. rewrite <- (firstn_skipn n l). apply in_or_app. right. exact H.
Qed.

Lemma endsWith_In s suf c :
  endsWith s suf = true -> In c suf -> In c s.
Proof.
  unfold endsWith. intros H Hc.
  apply andb_true_iff in H. destruct H as [H _].
  apply jseqb_eq in H. rewrite <- H in Hc.
  apply In_skipn in Hc. exact Hc.
Qed.

Lemma endsWith_app s suf : endsWith (s ++ suf) suf = true.
Proof.
  unfold endsWith. rewrite length_app.
  replace (length s + length suf - length suf)%nat with (length s) by lia.
  rewrite skipn_app, skipn_all, Nat.sub_diag. simpl.
  rewrite jseqb_refl. simpl. apply Nat.leb_le. lia.
Qed.

Lemma validar_solo_simbolos numero c :
  validarNumeroTelefono numero = true -> In c numero ->
  es_espacio c = true \/ es_simbolo_telefono c = true.
Proof.
  rewrite validarNumeroTelefono_spec. unfold numero_valido_spec. cbv zeta.
  rewrite !andb_true_iff. intros [[H _] _] Hc.
  destruct (es_espacio c) eqn:E; [left; reflexivity|right].
  rewrite forallb_forall in H. apply H.
  unfold replace_class_g. apply filter_In. rewrite E. auto.
Qed.

Lemma validar_sin_sufijo numero suf :
  validarNumeroTelefono numero = true ->
  In 64%N suf -> endsWith numero suf = false.
Proof.
  intros Hv Hs. destruct (endsWith numero suf) eqn:E; [|reflexivity].
  destruct (validar_solo_simbolos numero 64 Hv (endsWith_In _ _ _ E Hs))
    as [H|H]; discriminate H.
Qed.

(** X4. White space anywhere in a number does not change the verdict of
    the validator, and a number it accepts holds nothing but white
    space, digits and [+ - ( )]: in particular it does not carry the
    suffix [@c.us] or [@g.us]. *)
Theorem X4_validar_espacios_y_sufijos :
  (forall a ws b,
      forallb es_espacio ws = true ->
      validarNumeroTelefono (a ++ ws ++ b) = validarNumeroTelefono (a ++ b))
  /\ (forall numero,
         validarNumeroTelefono numero = true ->
         Forall (fun c => es_espacio c = true
                          \/ es_simbolo_telefono c = true) numero
         /\ endsWith numero (str "@c.us") = false
         /\ endsWith numero (str "@g.us") = false).
Proof.
  split.
  - intros a ws b Hws. unfold validarNumeroTelefono, replace_class_g.
    rewrite !filter_app.
    assert (E : filter (fun c => negb (es_espacio c)) ws = []).
    { induction ws as [|c t IH]; [reflexivity|]. simpl in *.
      apply andb_true_iff in Hws. destruct Hws as [Hc Ht].
      rewrite Hc. simpl. apply IH. exact Ht. }
    rewrite E. reflexivity.
  - intros numero Hv. split; [|split].
    + apply Forall_forall. intros c Hc.
      apply (validar_solo_simbolos numero c Hv Hc).
    + apply validar_sin_sufijo; [exact Hv|]. simpl. tauto.
    + apply validar_sin_sufijo; [exact Hv|]. simpl. tauto.
Qed.

Lemma X4_validar_espacios_y_sufijos_witness :
  validarNumeroTelefono (str "+52" ++ str "  " ++ str "5512345678")
  = validarNumeroTelefono (str "+52" ++ str "5512345678")
  /\ endsWith (str "+52 55 1234 5678") (str "@c.us") = false.
Proof.
  split.
  - apply (proj1 X4_validar_espacios_y_sufijos). reflexivity.
  - apply (proj2 X4_validar_espacios_y_sufijos (str "+52 55 1234 5678")).
    reflexivity.
Defined.

Lemma arroba_en_c_us : In 64%N (str "@c.us").
Proof. simpl. tauto. Qed.

Section destinos.
#[local] Opaque limpiarCadena str validarNumeroTelefono endsWith cadena_de_Z.

Ltac casos_envio :=
  unfold ejecutar, enviarMensaje, intentar, bind, llamar, ret, leerEntorno;
  cbn [estado traza app negb andb];
  repeat match goal with
         | |- context [match ?x with _ => _ end] =>
             lazymatch x with
             | context [match _ with _ => _ end] => fail
             | _ => destruct x eqn:?; cbn [negb andb]
             end
         | |- context [if ?x then _ else _] =>
             lazymatch x with
             | context [if _ then _ else _] => fail
             | context [match _ with _ => _ end] => fail
             | _ => destruct x eqn:?; cbn [negb andb]
             end
         end;
  cbn [fst snd estado traza app].

Ltac por_llamada :=
  let ll := fresh "ll" in
  let Hin := fresh "Hin" in
  let Hc := fresh "Hc" in
  intros ll Hin Hc; cbn [In] in Hin;
  repeat (destruct Hin as [Hin|Hin];
          [subst ll; cbn in Hc; try discriminate Hc|]);
  try contradiction.

Lemma destino_individual env st req usuario c :
  truthy (esGrupoSaneado (ce_esGrupo c)) = false ->
  forall ll,
    In ll (traza (snd (ejecutar (enviarMensaje req usuario c) env st))) ->
    es_llamada_cliente ll = true ->
    validarNumeroTelefono (limpiarCadena (ce_destino c)) = true
    /\ chat_de_llamada ll
       = Some (limpiarCadena (ce_destino c) ++ str "@c.us").
Proof.
  intros Hg. unfold ejecutar, enviarMensaje. cbv zeta. rewrite Hg.
  cbn [negb andb].
  destruct (validarNumeroTelefono (limpiarCadena (ce_destino c))) eqn:Hv.
  - rewrite (validar_sin_sufijo _ (str "@c.us") Hv arroba_en_c_us).
    cbv beta iota. casos_envio; por_llamada; split; reflexivity.
  - cbn [negb]. casos_envio; por_llamada.
Qed.

Lemma destino_grupo env st req usuario c :
  truthy (esGrupoSaneado (ce_esGrupo c)) = true ->
  forall ll,
    In ll (traza (snd (ejecutar (enviarMensaje req usuario c) env st))) ->
    es_llamada_cliente ll = true ->
    exists chatId contenido,
      ll = LlSendMessage chatId contenido
      /\ endsWith chatId (str "@g.us") = true
      /\ (chatId = limpiarCadena (ce_destino c)
          \/ chatId = limpiarCadena (ce_destino c) ++ str "@g.us").
Proof.
  intros Hg. unfold ejecutar, enviarMensaje. cbv zeta. rewrite Hg.
  cbn [negb andb].
  destruct (endsWith (limpiarCadena (ce_destino c)) (str "@g.us")) eqn:He;
    casos_envio; por_llamada;
    eexists _, _; (split; [reflexivity|]);
    (split; [first [exact He|apply endsWith_app]|]); auto.
Qed.
End destinos.

(** X5. Every call that the send handler makes to the client carries the
    suffix of its address space.  For an individual destination the chat
    is always the cleaned [destino], accepted by the validator, followed
    by [@c.us] (a [destino] that already ends in [@c.us] never gets that
    far); for a group only [sendMessage] is called, on a chat that ends
    in [@g.us], the suffix being added when it is missing. *)
Theorem X5_destino_de_las_llamadas env st req usuario c ll :
  In ll (traza (snd (ejecutar (enviarMensaje req usuario c) env st))) ->
  es_llamada_cliente ll = true ->
  if truthy (esGrupoSaneado (ce_esGrupo c)) then
    exists chatId contenido,
      ll = LlSendMessage chatId contenido
      /\ endsWith chatId (str "@g.us") = true
      /\ (chatId = limpiarCadena (ce_destino c)
          \/ chatId = limpiarCadena (ce_destino c) ++ str "@g.us")
  else
    validarNumeroTelefono (limpiarCadena (ce_destino c)) = true
    /\ chat_de_llamada ll
       = Some (limpiarCadena (ce_destino c) ++ str "@c.us").
Proof.
  intros Hin Hc.
  destruct (truthy (esGrupoSaneado (ce_esGrupo c))) eqn:Hg.
  - apply (destino_grupo env st req usuario c Hg ll Hin Hc).
  - apply (destino_individual env st req usuario c Hg ll Hin Hc).
Qed.

Lemma X5_destino_de_las_llamadas_witness :
  chat_de_llamada (LlIsRegisteredUser (str "5215512345678@c.us"))
  = Some (limpiarCadena (str "5215512345678") ++ str "@c.us").
Proof.
  apply (@X5_destino_de_las_llamadas Ejemplo.entorno estadoInicial
           (Ejemplo.peticion (PostEnviarMensaje Ejemplo.envio1) None)
           Ejemplo.unUsuario Ejemplo.envio1
           (LlIsRegisteredUser (str "5215512345678@c.us"))).
  - left. reflexivity.
  - reflexivity.
Defined.

(** ** The connection state as the routes see it *)

Lemma alEventos_ultimo evs ev st :
  alEventos (evs ++ [ev]) st = alEvento ev (alEventos evs st).
Proof. unfold alEventos. rewrite fold_left_app. reflexivity. Qed.

Lemma estadoBot_tras_evento ev st :
  estadoBot (alEvento ev st)
  = match ev with
    | EvQr _ => str "esperando_qr"
    | EvLoadingScreen porcentaje _ => str "cargando_" ++ porcentaje
    | EvAuthenticated => str "autenticado"
    | EvAuthFailure _ => str "error_autenticacion"
    | EvReady => str "conectado"
    | EvDisconnected _ => str "desconectado"
    end.
Proof. destruct ev; reflexivity. Qed.

Lemma cargando_no_es (porcentaje otro : jsstring) (c : N) :
  c <> 97%N ->
  jseqb (str "cargando_" ++ porcentaje) (99%N :: c :: otro) = false
  /\ jseqb (str "cargando_" ++ porcentaje) (101%N :: otro) = false.
Proof.
  intros H. split; apply jseqb_neq; intros E;
    change (str "cargando_") with (99 :: 97 :: str "rgando_")%N in E;
    simpl in E; congruence.
Qed.

(** X6. Whatever the client has reported before, the connection
    middleware lets a request through exactly when the last event of the
    client is [ready]; before any event it answers 503. *)
Theorem X6_conexion_tras_eventos (evs : list EventoCliente)
        (ev : EventoCliente) (st : Estado) :
  (requiereConexion (alEventos (evs ++ [ev]) st) = inr tt <-> ev = EvReady)
  /\ requiereConexion estadoInicial
     = inl (respuestaNoConectado estadoInicial).
Proof.
  split; [|reflexivity].
  rewrite alEventos_ultimo. unfold requiereConexion.
  rewrite estadoBot_tras_evento.
  destruct ev; cbn [alEvento clienteListo]; try reflexivity.
  - rewrite orb_comm. simpl. split; discriminate.
  - destruct (cargando_no_es porcentaje (str "nectado") (c := 111))
      as [E _]; [discriminate|].
    change (str "conectado") with (99 :: 111 :: str "nectado")%N.
    rewrite E, orb_comm. simpl. split; discriminate.
  - rewrite orb_comm. simpl. split; discriminate.
  - rewrite orb_comm. simpl. split; discriminate.
  - simpl. split; reflexivity.
  - simpl. split; discriminate.
Qed.

Lemma X6_conexion_tras_eventos_witness :
  requiereConexion
    (alEventos ([EvReady; EvDisconnected (str "LOGOUT");
                 EvQr (str "2@abc"); EvAuthenticated] ++ [EvReady])
               estadoInicial)
  = inr tt.
Proof.
  apply (proj1 (X6_conexion_tras_eventos _ EvReady estadoInicial)).
  reflexivity.
Defined.

(** X7. After any events of the client, the public status route reports
    the current state and shows a pairing code only when the last event
    is [qr], in which case it is the code of that event: a code kept
    from an earlier [qr] event is not disclosed.  The route changes
    nothing and asks nothing of the client. *)
Theorem X7_estado_publico (evs : list EventoCliente) (ev : EventoCliente)
        (st : Estado) (env : Entorno) (t : list Llamada) :
  let w := {| estado := alEventos (evs ++ [ev]) st; traza := t |} in
  exists resp,
    getEstado env w = (inr resp, w)
    /\ status resp = 200%Z
    /\ campo (json resp) "estado" = JStr (estadoBot (estado w))
    /\ campo (json resp) "listo" = JBool (clienteListo (estado w))
    /\ campo (json resp) "codigoQR"
       = match ev with
         | EvQr qr => JStr qr
         | _ => JNull
         end.
Proof.
  intros w. subst w. rewrite alEventos_ultimo.
  unfold getEstado, bind, leerEstado, leerEntorno, ret. cbn [estado].
  eexists. split; [reflexivity|]. split; [reflexivity|].
  split; [reflexivity|]. split; [reflexivity|].
  cbn [json res_json campo objeto]. rewrite estadoBot_tras_evento.
  destruct ev; reflexivity.
Qed.

(** X8. The style class that the status page derives from the reported
    state: after any events of the client it is [conectado] after
    [ready], [esperando] after [qr], [cargando] after [loading_screen]
    (whatever the percentage) and [authenticated], and [desconectado]
    after [disconnected] and [auth_failure]; before any event it is
    [cargando]. *)
Theorem X8_clase_de_estado (evs : list EventoCliente) (ev : EventoCliente)
        (st : Estado) :
  obtenerClaseEstado (estadoBot (alEventos (evs ++ [ev]) st))
  = match ev with
    | EvReady => str "conectado"
    | EvQr _ => str "esperando"
    | EvLoadingScreen _ _ | EvAuthenticated => str "cargando"
    | EvAuthFailure _ | EvDisconnected _ => str "desconectado"
    end
  /\ obtenerClaseEstado (estadoBot estadoInicial) = str "cargando".
Proof.
  split; [|reflexivity].
  rewrite alEventos_ultimo, estadoBot_tras_evento.
  destruct ev; reflexivity.
Qed.

(** ** Bounds and failures of the inbound handler *)

Lemma slice_neg_cota (A : Type) n (l : list A) : length (slice_neg n l) <= n.
Proof. unfold slice_neg. rewrite length_skipn. lia. Qed.

Lemma slice_neg_Forall (A : Type) (P : A -> Prop) n (l : list A) :
  Forall P l -> Forall P (slice_neg n l).
Proof.
  rewrite !Forall_forall. intros H x Hx. apply H.
  unfold slice_neg in Hx. apply In_skipn in Hx. exact Hx.
Qed.

Lemma registra_cuerpo r em : registra r em -> length (cuerpo r) <= 1000.
Proof.
  intros (_ & H & _). rewrite H. unfold substring0.
  apply (firstn_le_length (N.to_nat 1000)).
Qed.

(** X9. The handler of inbound messages keeps the buffer within 100
    records and every record body within 1000 code units, and it never
    touches the connection state, the pairing code or the connected
    flag. *)
Theorem X9_cotas_del_buffer (evs : list (Entorno * Mensaje)) (w : Mundo) :
  length (mensajesEntrantes (estado w)) <= 100 ->
  Forall (fun r => length (cuerpo r) <= 1000)
         (mensajesEntrantes (estado w)) ->
  let st' := estado (alMensajes evs w) in
  length (mensajesEntrantes st') <= 100
  /\ Forall (fun r => length (cuerpo r) <= 1000) (mensajesEntrantes st')
  /\ estadoBot st' = estadoBot (estado w)
  /\ codigoQR st' = codigoQR (estado w)
  /\ clienteListo st' = clienteListo (estado w).
Proof.
  intros Hlen Hc st'. subst st'.
  destruct (alMensajes_buffer evs w) as (rs & Hrs & Hnil & Hcons).
  destruct rs as [|r rs'].
  - rewrite (Hnil eq_refl). repeat split; assumption.
  - rewrite Hcons by discriminate. cbn. repeat split.
    + apply slice_neg_cota.
    + apply slice_neg_Forall. apply Forall_app. split; [exact Hc|].
      clear - Hrs. induction Hrs as [|x y xs ys Hxy _ IH]; constructor.
      * apply (registra_cuerpo Hxy).
      * exact IH.
Qed.

Lemma X9_cotas_del_buffer_witness :
  length (mensajesEntrantes
            (estado (alMensajes
                       (repeat (Ejemplo.entorno, Ejemplo.mensaje1) 120)
                       Ejemplo.mundoInicial))) <= 100.
Proof.
  apply (X9_cotas_del_buffer (repeat (Ejemplo.entorno, Ejemplo.mensaje1) 120)
           Ejemplo.mundoInicial).
  - simpl. lia.
  - constructor.
Defined.

(** X10. A lookup that fails never loses a message.  A message that is
    neither a broadcast nor from a group is recorded without asking the
    client anything; for a group message whose [getChat] throws, the
    record is appended with empty group and author names after that one
    call; when [getChat] answers but [getContactById] throws, the record
    keeps the name of the group. *)
Theorem X10_mensaje_ante_fallos (mensaje : Mensaje) (env : Entorno)
        (w : Mundo) :
  es_difusion mensaje = false ->
  let info := infoInicial mensaje (fechaISO env) in
  let tras (r : InfoMensaje) (llamadas : list Llamada) :=
    (inr tt : Excepcion + unit,
     {| estado := conMensajes (estado w)
                    (slice_neg 100 (mensajesEntrantes (estado w) ++ [r]));
        traza := traza w ++ llamadas |}) in
  (endsWith (from mensaje) (str "@g.us") = false ->
   alMensaje mensaje env w = tras info [])
  /\ (endsWith (from mensaje) (str "@g.us") = true ->
      forall e, getChat env mensaje = inl e ->
      alMensaje mensaje env w = tras info [LlGetChat mensaje])
  /\ (endsWith (from mensaje) (str "@g.us") = true ->
      forall chat a0 a e,
        getChat env mensaje = inr chat ->
        author mensaje = Some (a0 :: a) ->
        getContactById env (a0 :: a) = inl e ->
        alMensaje mensaje env w
        = tras (conNombreGrupo info (ch_name chat))
               [LlGetChat mensaje; LlGetContactById (a0 :: a)]).
Proof.
  intros Hd. unfold es_difusion in Hd. cbv zeta.
  unfold alMensaje. rewrite Hd.
  unfold intentar at 1, bind at 1, leerEntorno. unfold bind at 1.
  cbn [esGrupo infoInicial]. split; [|split].
  - intros Hg. rewrite Hg. unfold ret. rewrite agregarMensaje_run.
    cbn [estado traza]. rewrite app_nil_r. destruct w; reflexivity.
  - intros Hg e He. rewrite Hg.
    unfold detallesGrupo, intentar, bind, llamar, ret.
    rewrite He, agregarMensaje_run. reflexivity.
  - intros Hg chat a0 a e Hchat Haut Hco. rewrite Hg.
    unfold detallesGrupo, intentar, bind, llamar, ret.
    rewrite Hchat, Haut. cbn [estado traza].
    rewrite Hco, agregarMensaje_run.
    cbn [estado traza]. rewrite <- app_assoc. reflexivity.
Qed.

Lemma X10_mensaje_ante_fallos_witness :
  alMensaje Ejemplo.mensajeGrupo (Ejemplo.entornoSinChat Ejemplo.fallo)
            Ejemplo.mundoInicial
  = (inr tt,
     {| estado :=
          conMensajes (estado Ejemplo.mundoInicial)
            (slice_neg 100
               (mensajesEntrantes (estado Ejemplo.mundoInicial)
                  ++ [infoInicial Ejemplo.mensajeGrupo
                        (fechaISO (Ejemplo.entornoSinChat Ejemplo.fallo))]));
        traza := traza Ejemplo.mundoInicial
                   ++ [LlGetChat Ejemplo.mensajeGrupo] |}).
Proof.
  apply (proj1 (proj2 (@X10_mensaje_ante_fallos Ejemplo.mensajeGrupo
                         (Ejemplo.entornoSinChat Ejemplo.fallo)
                         Ejemplo.mundoInicial eq_refl)))
    with (e := Ejemplo.fallo).
  - vm_compute. reflexivity.
  - reflexivity.
Defined.

(** ** Presenting a token *)

Lemma es_prefijo_app pre s : es_prefijo pre (pre ++ s) = true.
Proof.
  induction pre as [|p t IH]; [destruct s; reflexivity|].
  simpl. rewrite N.eqb_refl. exact IH.
Qed.

Lemma replace_primera_eq pat s :
  replace_primera pat s
  = if es_prefijo pat s then skipn (length pat) s
    else match s with
         | [] => []
         | c :: t => c :: replace_primera pat t
         end.
Proof. destruct s; reflexivity. Qed.

Lemma replace_primera_prefijo pat s : replace_primera pat (pat ++ s) = s.
Proof.
  rewrite replace_primera_eq, es_prefijo_app.
  rewrite skipn_app, skipn_all, Nat.sub_diag. reflexivity.
Qed.

(** X11. How a request presents its token.  [Authorization: Bearer t]
    with a non-empty [t] presents [t], whatever [x-api-key] holds; when
    the [Authorization] header is missing, empty or just [Bearer ], the
    value of [x-api-key] is presented; with neither, the request is
    answered 401 without any verification. *)
Theorem X11_token_de_la_peticion (env : Entorno) (req : Peticion) :
  (forall t,
      authorization req = Some (str "Bearer " ++ t) -> t <> [] ->
      tokenDePeticion req = Some t)
  /\ (authorization req = None \/ authorization req = Some []
      \/ authorization req = Some (str "Bearer ") ->
      tokenDePeticion req
      = match x_api_key req with
        | Some (c :: k) => Some (c :: k)
        | _ => None
        end)
  /\ (tokenDePeticion req = None ->
      exists r, requiereAutenticacion env req = inl r
                /\ status r = 401%Z
                /\ campo (json r) "error"
                   = JStr (str "Token de autenticación requerido")).
Proof.
  split; [|split].
  - intros t Ha Ht. unfold tokenDePeticion. rewrite Ha.
    cbn [option_map]. rewrite replace_primera_prefijo.
    destruct t; [contradiction|reflexivity].
  - intros [Ha|[Ha|Ha]]; unfold tokenDePeticion; rewrite Ha; reflexivity.
  - intros Hn. unfold requiereAutenticacion. rewrite Hn.
    eexists. repeat split.
Qed.

Lemma X11_token_de_la_peticion_witness :
  tokenDePeticion
    {| ruta := GetGrupos; origin := None;
       authorization := Some (str "Bearer " ++ str "abc.def.ghi");
       x_api_key := Some (str "otra");
       limiteGeneralExcedido := false; limiteMensajesExcedido := false;
       errorCuerpo := None; errores := [] |}
  = Some (str "abc.def.ghi").
Proof.
  apply (proj1 (X11_token_de_la_peticion Ejemplo.entorno _)).
  - reflexivity.
  - discriminate.
Defined.

(** ** Logging in *)

Lemma postAuth_casos env st req contrasena :
  ejecutar (postAuth req contrasena) env st
  = match errores req with
    | _ :: _ =>
        (inr (respuestaValidacion (errores req)),
         {| estado := st; traza := [] |})
    | [] =>
        (inr match bcrypt_compare env (limpiarCadena contrasena) with
             | inl _ => error500 (str "Error interno del servidor")
             | inr false =>
                 res_status_json 401
                   (objeto [(str "exito", JBool false);
                            (str "error", JStr (str "Contraseña incorrecta"))])
             | inr true =>
                 res_json
                   (objeto [(str "exito", JBool true);
                            (str "token",
                             JStr (generarToken (jwt env) (JWT_SECRET env)
                                     datosApi (ahora env)));
                            (str "expira", JStr (str "24 horas"));
                            (str "mensaje",
                             JStr (str "Autenticación exitosa"))])
             end,
         {| estado := st;
            traza := [LlBcryptCompare (limpiarCadena contrasena)] |})
    end.
Proof.
  unfold ejecutar, postAuth, intentar, bind, llamar, ret, leerEntorno.
  destruct (errores req); [|reflexivity].
  cbn [estado traza app].
  destruct (bcrypt_compare env (limpiarCadena contrasena)) as [e|[|]];
    reflexivity.
Qed.

(** X12. The authentication route hands out a token only when the
    validators found nothing wrong and [bcrypt] accepted the cleaned
    password, and then answers 200; when the validators complain it
    answers 400 without consulting [bcrypt]; a wrong password gives 401.
    It never changes the state of the gateway. *)
Theorem X12_postAuth (env : Entorno) (st : Estado) (req : Peticion)
        (contrasena : jsstring) :
  exists resp w',
    ejecutar (postAuth req contrasena) env st = (inr resp, w')
    /\ estado w' = st
    /\ (campo (json resp) "token" <> JUndefined
        <-> errores req = []
            /\ bcrypt_compare env (limpiarCadena contrasena) = inr true)
    /\ (status resp = 200%Z
        <-> errores req = []
            /\ bcrypt_compare env (limpiarCadena contrasena) = inr true)
    /\ (errores req <> [] -> traza w' = [] /\ status resp = 400%Z)
    /\ (errores req = [] ->
        bcrypt_compare env (limpiarCadena contrasena) = inr false ->
        status resp = 401%Z).
Proof.
  rewrite postAuth_casos.
  destruct (errores req) as [|err errs].
  - destruct (bcrypt_compare env (limpiarCadena contrasena)) as [e|[|]];
      eexists _, _; (split; [reflexivity|]); (split; [reflexivity|]);
      repeat split; intros; try reflexivity; try discriminate;
      try congruence;
      match goal with
      | H : _ /\ _ |- _ => destruct H; discriminate
      | H : _ <> _ |- _ => exfalso; apply H; reflexivity
      | _ => idtac
      end.
  - eexists _, _. split; [reflexivity|]. split; [reflexivity|].
    repeat split; intros; try reflexivity; try discriminate;
      match goal with
      | H : _ /\ _ |- _ => destruct H; discriminate
      | H : _ <> _ |- _ => exfalso; apply H; reflexivity
      | _ => idtac
      end.
Qed.

Lemma X12_postAuth_witness :
  exists resp w',
    ejecutar (postAuth (Ejemplo.peticion (PostAuth (str "Learsi20")) None)
                       (str "Learsi20"))
             Ejemplo.entorno estadoInicial = (inr resp, w')
    /\ status resp = 200%Z.
Proof.
  destruct (X12_postAuth Ejemplo.entorno estadoInicial
              (Ejemplo.peticion (PostAuth (str "Learsi20")) None)
              (str "Learsi20"))
    as (resp & w' & Hrun & _ & _ & Hok & _).
  exists resp, w'. split; [exact Hrun|].
  apply Hok. split; reflexivity.
Defined.

(** X13. From logging in to using the token, with a library that keeps
    the contract of [jsonwebtoken] and a non-empty secret: the token
    that the authentication route hands out, presented as
    [Authorization: Bearer <token>], passes the authentication
    middleware as [api_user] with both permissions while the clock, in
    seconds, is below the issue time plus 24 hours, and is answered 401
    from then on. *)
Theorem X13_del_login_al_uso (env : Entorno) (st : Estado) (req : Peticion)
        (contrasena : jsstring) (resp : Respuesta) (w' : Mundo)
        (tok : jsstring) :
  contrato_jwt (jwt env) ->
  JWT_SECRET env <> [] ->
  ejecutar (postAuth req contrasena) env st = (inr resp, w') ->
  campo (json resp) "token" = JStr tok ->
  tok <> [] ->
  forall env' req',
    jwt env' = jwt env ->
    JWT_SECRET env' = JWT_SECRET env ->
    authorization req' = Some (str "Bearer " ++ tok) ->
    ((ahora env' / 1000 < ahora env / 1000 + 24 * 60 * 60)%Z ->
     requiereAutenticacion env' req'
     = inr {| usuario := str "api_user";
              permisos := [str "enviar_mensajes"; str "leer_mensajes"];
              iat := ahora env / 1000;
              exp := ahora env / 1000 + 24 * 60 * 60 |})
    /\ ((ahora env / 1000 + 24 * 60 * 60 <= ahora env' / 1000)%Z ->
        requiereAutenticacion env' req' = inl respuestaTokenInvalido).
Proof.
  intros Hlib Hsec Hrun Htok Hne env' req' Hjwt Hsec' Hauth.
  assert (E : tok = generarToken (jwt env) (JWT_SECRET env) datosApi
                                 (ahora env)).
  { rewrite postAuth_casos in Hrun.
    destruct (errores req).
    - destruct (bcrypt_compare env (limpiarCadena contrasena)) as [e|[|]];
        injection Hrun as <- _; simpl in Htok;
        try discriminate Htok.
      injection Htok as <-. reflexivity.
    - injection Hrun as <- _. discriminate Htok. }
  assert (Ht : tokenDePeticion req' = Some tok).
  { unfold tokenDePeticion. rewrite Hauth. cbn [option_map].
    rewrite replace_primera_prefijo. destruct tok; [contradiction|].
    reflexivity. }
  unfold requiereAutenticacion, verificarToken.
  rewrite Ht, Hjwt, Hsec', E. unfold generarToken.
  rewrite (Hlib datosApi (JWT_SECRET env) expiresIn_24h (ahora env)
                (ahora env') Hsec).
  unfold expiresIn_24h. split; intros H.
  - apply Z.ltb_lt in H. rewrite H. reflexivity.
  - apply Z.ltb_ge in H. rewrite H. reflexivity.
Qed.

Lemma X13_del_login_al_uso_witness :
  requiereAutenticacion
    (Ejemplo.entornoEn 1700086400000)
    (Ejemplo.peticion GetGrupos (Some Ejemplo.tokenApi))
  = inl respuestaTokenInvalido.
Proof.
  pose (resp := res_json
                  (objeto [(str "exito", JBool true);
                           (str "token", JStr Ejemplo.tokenApi);
                           (str "expira", JStr (str "24 horas"));
                           (str "mensaje",
                            JStr (str "Autenticación exitosa"))])).
  pose (w' := {| estado := estadoInicial;
                 traza := [LlBcryptCompare (str "Learsi20")] |}).
  assert (Hsec : JWT_SECRET Ejemplo.entorno <> []) by discriminate.
  assert (Hrun : ejecutar
                   (postAuth
                      (Ejemplo.peticion (PostAuth (str "Learsi20")) None)
                      (str "Learsi20"))
                   Ejemplo.entorno estadoInicial = (inr resp, w'))
    by (vm_compute; reflexivity).
  assert (Htok : campo (json resp) "token" = JStr Ejemplo.tokenApi)
    by (vm_compute; reflexivity).
  assert (Hne : Ejemplo.tokenApi <> []) by (vm_compute; discriminate).
  assert (Ha : authorization
                 (Ejemplo.peticion GetGrupos (Some Ejemplo.tokenApi))
               = Some (str "Bearer " ++ Ejemplo.tokenApi))
    by (vm_compute; reflexivity).
  assert (Hpasado :
            (ahora Ejemplo.entorno / 1000 + 24 * 60 * 60
             <= ahora (Ejemplo.entornoEn 1700086400000) / 1000)%Z)
    by (vm_compute; discriminate).
  assert (Hj : jwt (Ejemplo.entornoEn 1700086400000) = jwt Ejemplo.entorno)
    by reflexivity.
  assert (Hs : JWT_SECRET (Ejemplo.entornoEn 1700086400000)
               = JWT_SECRET Ejemplo.entorno) by reflexivity.
  exact (proj2 (@X13_del_login_al_uso Ejemplo.entorno estadoInicial
                  (Ejemplo.peticion (PostAuth (str "Learsi20")) None)
                  (str "Learsi20") resp w' Ejemplo.tokenApi
                  contrato_jwt_ejemplo Hsec Hrun Htok Hne
                  (Ejemplo.entornoEn 1700086400000)
                  (Ejemplo.peticion GetGrupos (Some Ejemplo.tokenApi))
                  Hj Hs Ha) Hpasado).
Defined.

(** ** The outcome of sending *)

Section resultado_envio.
#[local] Opaque limpiarCadena str validarNumeroTelefono endsWith cadena_de_Z.

Ltac casos_envio :=
  unfold ejecutar, enviarMensaje, intentar, bind, llamar, ret, leerEntorno;
  cbn [estado traza app negb andb];
  repeat match goal with
         | |- context [match ?x with _ => _ end] =>
             lazymatch x with
             | context [match _ with _ => _ end] => fail
             | _ => destruct x eqn:?; cbn [negb andb]
             end
         | |- context [if ?x then _ else _] =>
             lazymatch x with
             | context [if _ then _ else _] => fail
             | context [match _ with _ => _ end] => fail
             | _ => destruct x eqn:?; cbn [negb andb]
             end
         end;
  cbn [fst snd estado traza app].

(** X14. The send route answers with the success body exactly when its
    last call is [sendMessage] and the client returned: the [idMensaje]
    of the answer is the identifier the client gave.  What it hands to
    the client is the cleaned message, as text or as the caption of the
    attachment, and it calls [sendMessage] at most once per request. *)
Theorem X14_resultado_del_envio env st req usuario c :
  exists resp w',
    ejecutar (enviarMensaje req usuario c) env st = (inr resp, w')
    /\ match rev (traza w') with
       | LlSendMessage chatId contenido :: _ =>
           (contenido = Texto (limpiarCadena (ce_mensaje c))
            \/ exists media,
                contenido = Medio media (limpiarCadena (ce_mensaje c)))
           /\ match sendMessage env chatId contenido with
              | inr id => resp = envioExitoso id
              | inl e =>
                  resp = error500 (str "Error al enviar mensaje: "
                                     ++ message e)
              end
       | _ => (status resp =? 200)%Z = false
       end
    /\ length (filter es_envio (traza w')) <= 1.
Proof.
  casos_envio; eexists _, _; (split; [reflexivity|]);
    cbn [traza rev app filter es_envio length];
    (split; [|lia]);
    try reflexivity;
    (split; [first [left; reflexivity|right; eexists; reflexivity]|]);
    repeat match goal with
           | H : sendMessage _ _ _ = _ |- _ => rewrite H; clear H
           end;
    reflexivity.
Qed.

Lemma enviarMensaje_invalido env st req usuario c :
  (errores req <> [] ->
   ejecutar (enviarMensaje req usuario c) env st
   = (inr (respuestaValidacion (errores req)),
      {| estado := st; traza := [] |}))
  /\ (errores req = [] ->
      truthy (esGrupoSaneado (ce_esGrupo c)) = false ->
      validarNumeroTelefono (limpiarCadena (ce_destino c)) = false ->
      ejecutar (enviarMensaje req usuario c) env st
      = (inr (error400 (str "Formato de número de teléfono inválido")),
         {| estado := st; traza := [] |})).
Proof.
  split.
  - intros He. unfold ejecutar, enviarMensaje.
    destruct (errores req); [contradiction|reflexivity].
  - intros He Hg Hv. unfold ejecutar, enviarMensaje. cbv zeta.
    rewrite He, Hg, Hv. reflexivity.
Qed.
End resultado_envio.

(** ** What the send handler reads from the body *)

Lemma propia_In ps clave v : propia ps clave = Some v -> In (clave, v) ps.
Proof.
  induction ps as [|[k x] t IH]; cbn [propia]; [discriminate|].
  destruct (jseqb k clave) eqn:E.
  - intros H. injection H as <-. apply jseqb_eq in E. subst k.
    left. reflexivity.
  - intros H. right. exact (IH H).
Qed.

Lemma leer_todas_cadenas (p : jsstring -> bool) (clave : jsstring)
      (v : JsVal) :
  todas_cadenas p v = true -> todas_cadenas p (leer v clave) = true.
Proof.
  induction v as [ | | | | |l IH|pr ps IHpr IHps] using JsVal_nested_ind;
    try reflexivity.
  cbn [leer todas_cadenas]. intros H.
  apply andb_true_iff in H as [Hpr Hps].
  destruct (propia ps clave) as [x|] eqn:E.
  - apply propia_In in E. rewrite forallb_forall in Hps.
    exact (Hps _ E).
  - destruct pr as [w|]; [|reflexivity].
    apply (IHpr w eq_refl). exact Hpr.
Qed.

Lemma truthy_esGrupoSaneado (v : JsVal) :
  todas_cadenas cadena_limpia v = true ->
  truthy (esGrupoSaneado v) = truthy v.
Proof.
  destruct v as [ | |b|n|s|l|pr ps]; try reflexivity.
  cbn [todas_cadenas esGrupoSaneado paso]. intros H.
  rewrite (limpiarCadena_fija _ H). reflexivity.
Qed.

(** The fields that the handler destructures are clean already: the
    cleaning that [enviarMensaje] applies to them changes nothing. *)
Lemma camposEnvio_limpios (body : JsVal) (c : CuerpoEnvio) :
  camposEnvio (limpiarEntrada body) = Some c ->
  limpiarCadena (ce_destino c) = ce_destino c
  /\ limpiarCadena (ce_mensaje c) = ce_mensaje c
  /\ option_map limpiarCadena (ce_rutaArchivo c) = ce_rutaArchivo c
  /\ ce_esGrupo c = leer (limpiarEntrada body) (str "esGrupo")
  /\ truthy (esGrupoSaneado (ce_esGrupo c))
     = truthy (leer (limpiarEntrada body) (str "esGrupo")).
Proof.
  intros Hc.
  assert (Hcont : es_contenedor body = true).
  { destruct body; try reflexivity; discriminate Hc. }
  pose proof (limpiarEntrada_limpia body Hcont) as Hl.
  pose proof (fun k => @leer_todas_cadenas cadena_limpia k _ Hl) as Hk.
  unfold camposEnvio in Hc.
  pose proof (Hk (str "destino")) as Hd.
  pose proof (Hk (str "mensaje")) as Hm.
  pose proof (Hk (str "rutaArchivo")) as Hr.
  pose proof (Hk (str "esGrupo")) as Hg.
  destruct (leer (limpiarEntrada body) (str "destino")) as [ | | | |d| | ];
    try discriminate Hc.
  destruct (leer (limpiarEntrada body) (str "mensaje")) as [ | | | |m| | ];
    try discriminate Hc.
  destruct (leer (limpiarEntrada body) (str "rutaArchivo"))
    as [ | | | |r| | ]; try discriminate Hc;
    injection Hc as <-; cbn [ce_destino ce_mensaje ce_rutaArchivo ce_esGrupo
                                todas_cadenas option_map] in *;
    rewrite ?(limpiarCadena_fija _ Hd), ?(limpiarCadena_fija _ Hm),
      ?(limpiarCadena_fija _ Hr);
    repeat split; apply truthy_esGrupoSaneado; exact Hg.
Qed.

(** For a body without a [__proto__] member the fields are its own
    members, cleaned. *)
Lemma campos_saneados (c : CuerpoEnvio) :
  camposEnvio (limpiarEntrada (cuerpoJson c))
  = Some {| ce_destino := limpiarCadena (ce_destino c);
            ce_mensaje := limpiarCadena (ce_mensaje c);
            ce_rutaArchivo := option_map limpiarCadena (ce_rutaArchivo c);
            ce_esGrupo := match ce_esGrupo c with
                          | JUndefined => JUndefined
                          | v => paso limpiarEntrada v
                          end |}.
Proof.
  unfold cuerpoJson, objeto.
  destruct (ce_rutaArchivo c) as [r|], (ce_esGrupo c) as [ | |b|n|s|l|pr ps];
    reflexivity.
Qed.

Section cuerpo_con_prototipo.
#[local] Opaque limpiarCadena validarNumeroTelefono endsWith.

(** A body whose [__proto__] member carries [esGrupo: true]: the sanitizer
    makes that member the prototype of its result, and the handler reads
    [esGrupo] from it. *)
Lemma camposEnvio_prototipo (d m : jsstring) :
  let body := objeto [(str "destino", JStr d);
                      (str "mensaje", JStr m);
                      (clave_proto, objeto [(str "esGrupo", JBool true)])] in
  campo body "esGrupo" = JUndefined
  /\ camposEnvio (limpiarEntrada body)
     = Some {| ce_destino := limpiarCadena d;
               ce_mensaje := limpiarCadena m;
               ce_rutaArchivo := None;
               ce_esGrupo := JBool true |}.
Proof.
  split; reflexivity.
Qed.

Lemma enviarMensaje_como_grupo env st req usuario (d m id : jsstring) :
  let c := {| ce_destino := limpiarCadena d;
              ce_mensaje := limpiarCadena m;
              ce_rutaArchivo := None;
              ce_esGrupo := JBool true |} in
  let chatId := if endsWith (limpiarCadena d) (str "@g.us")
                then limpiarCadena d
                else limpiarCadena d ++ str "@g.us" in
  errores req = [] ->
  sendMessage env chatId (Texto (limpiarCadena m)) = inr id ->
  ejecutar (enviarMensaje req usuario c) env st
  = (inr (envioExitoso id),
     {| estado := st;
        traza := [LlSendMessage chatId (Texto (limpiarCadena m))] |}).
Proof.
  intros c chatId He Hs. subst c chatId.
  unfold ejecutar, enviarMensaje. rewrite He.
  cbn [ce_destino ce_mensaje ce_rutaArchivo ce_esGrupo option_map
       esGrupoSaneado paso truthy negb andb].
  rewrite !(limpiarCadena_fija _ (limpiarCadena_limpia _)).
  unfold intentar, bind, llamar, ret. cbn [estado traza app].
  rewrite Hs. reflexivity.
Qed.
End cuerpo_con_prototipo.

(** X15. The send handler works on the fields that it destructures from
    the sanitized body, each read from the object or else from its
    prototype, and these are clean already.  It answers 400 and makes no
    call when the validators complain, and when the [esGrupo] so read is
    falsy and the [destino] so read fails the number validator.  The
    sanitizer turns a [__proto__] member of the body into the prototype
    of its result: a body with [__proto__: {esGrupo: true}], in which the
    validators find no [esGrupo], is handled as a group, its number is
    not validated and the client is asked to send to [destino@g.us].
    The route that checks a number takes it from the path: it answers
    400 and makes no call when the validators complain or the validator
    rejects the number. *)
Theorem X15_entrada_invalida env st req usuario :
  (forall body c,
      camposEnvio (limpiarEntrada body) = Some c ->
      (limpiarCadena (ce_destino c) = ce_destino c
       /\ limpiarCadena (ce_mensaje c) = ce_mensaje c
       /\ option_map limpiarCadena (ce_rutaArchivo c) = ce_rutaArchivo c)
      /\ (errores req <> [] ->
          ejecutar (enviarMensaje req usuario c) env st
          = (inr (respuestaValidacion (errores req)),
             {| estado := st; traza := [] |}))
      /\ (errores req = [] ->
          truthy (leer (limpiarEntrada body) (str "esGrupo")) = false ->
          validarNumeroTelefono (ce_destino c) = false ->
          ejecutar (enviarMensaje req usuario c) env st
          = (inr (error400 (str "Formato de número de teléfono inválido")),
             {| estado := st; traza := [] |})))
  /\ (forall d m id,
         let body :=
           objeto [(str "destino", JStr d);
                   (str "mensaje", JStr m);
                   (clave_proto, objeto [(str "esGrupo", JBool true)])] in
         let chatId := if endsWith (limpiarCadena d) (str "@g.us")
                       then limpiarCadena d
                       else limpiarCadena d ++ str "@g.us" in
         errores req = [] ->
         sendMessage env chatId (Texto (limpiarCadena m)) = inr id ->
         campo body "esGrupo" = JUndefined
         /\ exists c,
             camposEnvio (limpiarEntrada body) = Some c
             /\ ce_destino c = limpiarCadena d
             /\ ce_esGrupo c = JBool true
             /\ ejecutar (enviarMensaje req usuario c) env st
                = (inr (envioExitoso id),
                   {| estado := st;
                      traza := [LlSendMessage chatId
                                  (Texto (limpiarCadena m))] |}))
  /\ (forall numero,
         (errores req <> [] ->
          ejecutar (getVerificarNumero req usuario numero) env st
          = (inr (respuestaValidacion (errores req)),
             {| estado := st; traza := [] |}))
         /\ (errores req = [] ->
             validarNumeroTelefono numero = false ->
             ejecutar (getVerificarNumero req usuario numero) env st
             = (inr (error400 (str "Formato de número inválido")),
                {| estado := st; traza := [] |}))).
Proof.
  split; [|split].
  - intros body c Hc.
    destruct (camposEnvio_limpios body Hc) as (Hd & Hm & Hr & _ & Hg).
    split; [tauto|].
    destruct (enviarMensaje_invalido env st req usuario c) as (H1 & H2).
    split; [exact H1|].
    intros He Hf Hv. apply H2; [exact He| |].
    + rewrite Hg. exact Hf.
    + rewrite Hd. exact Hv.
  - intros d m id body chatId He Hs.
    destruct (camposEnvio_prototipo d m) as (H1 & H2).
    split; [exact H1|].
    eexists. split; [exact H2|].
    split; [reflexivity|]. split; [reflexivity|].
    exact (@enviarMensaje_como_grupo env st req usuario d m id He Hs).
  - intros numero. unfold ejecutar, getVerificarNumero, intentar. split.
    + intros He. destruct (errores req); [contradiction|reflexivity].
    + intros He Hv. rewrite He, Hv. reflexivity.
Qed.

Lemma X15_entrada_invalida_witness :
  let body := objeto [(str "destino", JStr (str "abcdefgh"));
                      (str "mensaje", JStr (str "hola"));
                      (clave_proto, objeto [(str "esGrupo", JBool true)])] in
  let c := {| ce_destino := str "abcdefgh"; ce_mensaje := str "hola";
              ce_rutaArchivo := None; ce_esGrupo := JBool true |} in
  let req := Ejemplo.peticion (PostEnviarMensaje c) None in
  validarNumeroTelefono (str "abcdefgh") = false
  /\ campo body "esGrupo" = JUndefined
  /\ camposEnvio (limpiarEntrada body) = Some c
  /\ ejecutar (enviarMensaje req Ejemplo.unUsuario c)
              Ejemplo.entorno estadoInicial
     = (inr (envioExitoso (str "3EB0")),
        {| estado := estadoInicial;
           traza := [LlSendMessage (str "abcdefgh@g.us")
                       (Texto (str "hola"))] |}).
Proof.
  intros body c req. split; [reflexivity|].
  assert (He : errores req = []) by reflexivity.
  assert (Hcc : camposEnvio (limpiarEntrada body) = Some c)
    by (vm_compute; reflexivity).
  destruct (proj1 (proj2 (X15_entrada_invalida
                            Ejemplo.entorno estadoInicial req
                            Ejemplo.unUsuario))
              (str "abcdefgh") (str "hola") (str "3EB0") He eq_refl)
    as (H1 & c' & Hc & _ & _ & Hrun).
  split; [exact H1|]. split; [exact Hcc|].
  fold body in Hc. rewrite Hcc in Hc. injection Hc as <-.
  exact Hrun.
Defined.

(** ** The data routes *)

Lemma es_listado_spec (co : Contacto) :
  es_listado co = true <-> contacto_listado co.
Proof.
  unfold es_listado, contacto_listado.
  rewrite !andb_true_iff, !negb_true_iff. split.
  - intros [[Hg Hm] Hn]. split; [exact Hg|]. split; [exact Hm|].
    destruct (co_name co) as [[|n0 n]|]; try discriminate Hn.
    exists n0, n. reflexivity.
  - intros (Hg & Hm & n0 & n & Hn). rewrite Hn. tauto.
Qed.

Lemma contactos_filtrados (l : list Contacto) :
  let elegidos := firstn 100 (filter es_listado l) in
  length elegidos <= 100
  /\ Forall contacto_listado elegidos
  /\ (forall co, In co elegidos -> In co l)
  /\ (length (filter es_listado l) <= 100 ->
      forall co, In co l -> contacto_listado co -> In co elegidos).
Proof.
  intros elegidos. subst elegidos. split; [apply firstn_le_length|].
  split; [|split].
  - apply Forall_forall. intros co Hco. apply In_firstn in Hco.
    apply filter_In in Hco. apply es_listado_spec. tauto.
  - intros co Hco. apply In_firstn in Hco.
    apply filter_In in Hco. tauto.
  - intros Hle co Hco Hlis. rewrite firstn_all2 by exact Hle.
    apply filter_In. split; [exact Hco|]. apply es_listado_spec. exact Hlis.
Qed.

(** X16. When the client returns its contacts, the contacts route
    answers 200 with exactly the first 100, in the order of the client,
    of the contacts that are not a group, not the account itself and
    have a non-empty name: when at most 100 qualify every one of them is
    listed.  Each is shown with its id, its number and that name: the
    fall-back to [pushname] or to the empty string never applies.  The
    route asks the client once and leaves the state alone. *)
Theorem X16_contactos env st req usuario (l : list Contacto) :
  getContacts env = inr l ->
  exists elegidos arr,
    ejecutar (getContactos req usuario) env st
    = (inr {| status := 200;
              json := objeto [(str "exito", JBool true);
                              (str "contactos", JArr arr)] |},
       {| estado := st; traza := [LlGetContacts] |})
    /\ elegidos = firstn 100 (filter es_listado l)
    /\ Forall2 (fun co j =>
                  campo j "id" = JStr (co_id_serialized co)
                  /\ campo j "numero" = JStr (co_number co)
                  /\ exists n0 n,
                      co_name co = Some (n0 :: n)
                      /\ campo j "nombre" = JStr (n0 :: n))
               elegidos arr
    /\ length elegidos <= 100
    /\ Forall contacto_listado elegidos
    /\ (forall co, In co elegidos -> In co l)
    /\ (length (filter es_listado l) <= 100 ->
        forall co, In co l -> contacto_listado co -> In co elegidos).
Proof.
  intros Hl.
  destruct (contactos_filtrados l) as (H1 & H2 & H3 & H4).
  set (elegidos := firstn 100 (filter es_listado l)) in *.
  exists elegidos. eexists. split.
  { unfold ejecutar, getContactos, intentar, bind, llamar, ret.
    rewrite Hl. cbn [estado traza app]. reflexivity. }
  split; [reflexivity|].
  split; [|split; [exact H1|split; [exact H2|split; [exact H3|exact H4]]]].
  fold es_listado. fold elegidos.
  clear H1 H3 H4. induction elegidos as [|co t IH]; cbn [map].
  - constructor.
  - apply Forall_cons_iff in H2 as ((_ & _ & n0 & n & Hn) & H2).
    constructor; [|exact (IH H2)].
    split; [reflexivity|]. split; [reflexivity|].
    exists n0, n. split; [exact Hn|].
    cbv [campo objeto]. cbn [props_get]. rewrite Hn. reflexivity.
Qed.

Lemma X16_contactos_witness :
  exists elegidos arr,
    ejecutar (getContactos (Ejemplo.peticion GetContactos None)
                           Ejemplo.unUsuario)
             Ejemplo.entornoContactos estadoInicial
    = (inr {| status := 200;
              json := objeto [(str "exito", JBool true);
                              (str "contactos", JArr arr)] |},
       {| estado := estadoInicial; traza := [LlGetContacts] |})
    /\ elegidos = [Ejemplo.contactoAna; Ejemplo.contactoLuis]
    /\ length arr = 2.
Proof.
  destruct (@X16_contactos Ejemplo.entornoContactos estadoInicial
              (Ejemplo.peticion GetContactos None) Ejemplo.unUsuario
              Ejemplo.agenda eq_refl)
    as (elegidos & arr & H1 & H2 & H3 & _).
  exists elegidos, arr. split; [exact H1|]. split; [exact H2|].
  rewrite <- (Forall2_length H3), H2. reflexivity.
Defined.



(** ** Requests that are turned away *)

Lemma requiereAutenticacion_401 env req r :
  requiereAutenticacion env req = inl r -> status r = 401%Z.
Proof.
  unfold requiereAutenticacion.
  destruct (tokenDePeticion req) as [token|].
  - destruct (verificarToken (jwt env) (JWT_SECRET env) token (ahora env));
      [discriminate|].
    intros H. injection H as <-. reflexivity.
  - intros H. injection H as <-. reflexivity.
Qed.

Lemma manejadorErrores_no_200 error :
  (status (manejadorErrores error) =? 200)%Z = false.
Proof.
  unfold manejadorErrores. destruct (err_type error) as [t|]; [|reflexivity].
  destruct (jseqb t (str "entity.too.large")); reflexivity.
Qed.

(** X18. Without a token that verifies, a request to a protected route
    achieves nothing: whatever its origin, the rate limiters, its body
    and the state of the connection, the application answers it with a
    status other than 200, asks nothing of the client or of the file
    system, and leaves the state, the inbound buffer included, as it
    was.  The middleware itself always answers such a request 401. *)
Theorem X18_sin_token_no_pasa env w req r :
  es_protegida (ruta req) = true ->
  requiereAutenticacion env req = inl r ->
  status r = 401%Z
  /\ exists resp,
      aplicacion req env w = (inr resp, w)
      /\ (status resp =? 200)%Z = false
      /\ (origin req = None ->
          limiteGeneralExcedido req = false ->
          limiteMensajesExcedido req = false ->
          errorCuerpo req = None ->
          resp = r).
Proof.
  intros Hp Hr.
  pose proof (requiereAutenticacion_401 env req Hr) as H401.
  split; [exact H401|].
  unfold aplicacion, bind at 1, leerEntorno.
  assert (Hruta : exists resp,
             atenderRuta req env w = (inr resp, w)
             /\ (status resp =? 200)%Z = false
             /\ (limiteMensajesExcedido req = false -> resp = r)).
  { unfold atenderRuta.
    destruct (ruta req); try discriminate Hp;
      try (unfold bind, leerEntorno, ret; rewrite Hr;
           exists r; rewrite H401; repeat split).
    destruct (limiteMensajesExcedido req).
    - eexists. unfold ret. repeat split. discriminate.
    - unfold bind, leerEntorno, ret. rewrite Hr.
      exists r. rewrite H401. repeat split. }
  destruct Hruta as (resp0 & Hrun & Hst & Hlim).
  destruct (match origin req with
            | None | Some [] => true
            | Some o => existsb (jseqb o) (ALLOWED_ORIGINS env)
            end) eqn:Ho.
  - destruct (limiteGeneralExcedido req) eqn:Hg.
    + eexists. unfold ret. split; [reflexivity|].
      split; [reflexivity|]. intros _ H. discriminate H.
    + destruct (errorCuerpo req) as [error|] eqn:Hc.
      * eexists. unfold ret. split; [reflexivity|].
        split; [apply manejadorErrores_no_200|].
        intros _ _ _ H. discriminate H.
      * exists resp0. split; [exact Hrun|]. split; [exact Hst|].
        intros _ _ Hl _. apply Hlim. exact Hl.
  - eexists. unfold ret. split; [reflexivity|].
    split; [reflexivity|]. intros H. rewrite H in Ho. discriminate Ho.
Qed.

Lemma X18_sin_token_no_pasa_witness :
  exists resp,
    aplicacion
      (Ejemplo.peticion (GetMensajesRecibidos (JStr (str "true"))) None)
      Ejemplo.entorno
      {| estado := conMensajes estadoInicial [Ejemplo.unRegistro];
         traza := [] |}
    = (inr resp,
       {| estado := conMensajes estadoInicial [Ejemplo.unRegistro];
          traza := [] |})
    /\ (status resp =? 200)%Z = false.
Proof.
  destruct (@X18_sin_token_no_pasa Ejemplo.entorno
              {| estado := conMensajes estadoInicial [Ejemplo.unRegistro];
                 traza := [] |}
              (Ejemplo.peticion
                 (GetMensajesRecibidos (JStr (str "true"))) None)
              _ eq_refl eq_refl)
    as (_ & resp & H1 & H2 & _).
  exists resp. split; assumption.
Defined.

(** ** Reading the buffer *)

Lemma json_de_info_inyectiva i1 i2 :
  json_de_info i1 = json_de_info i2 -> i1 = i2.
Proof.
  destruct i1, i2. unfold json_de_info, objeto. cbn.
  intros H. injection H as -> -> -> -> -> -> -> -> ->. reflexivity.
Qed.

Lemma map_json_de_info_inyectiva l1 : forall l2,
  map json_de_info l1 = map json_de_info l2 -> l1 = l2.
Proof.
  induction l1 as [|a t IH]; intros [|b u] H; try discriminate H.
  - reflexivity.
  - cbn [map] in H.
    assert (Ha : json_de_info a = json_de_info b) by congruence.
    assert (Ht : map json_de_info t = map json_de_info u) by congruence.
    apply json_de_info_inyectiva in Ha. subst. f_equal. apply IH. exact Ht.
Qed.

(** X19. The inbound-messages route clears only when [limpiar] is the
    string [true] itself.  For any other value (absent, [TRUE], [1], a
    list) it answers with the whole buffer, in order and with every
    field of every record, so that the buffer can be read back from the
    answer, and it leaves the state and the buffer as they were: a
    second read gives the same answer. *)
Theorem X19_lectura_sin_limpiar req usuario limpiar env w :
  limpiar <> JStr (str "true") ->
  let r := getMensajesRecibidos req usuario limpiar env w in
  r = (inr (res_json
              (objeto [(str "exito", JBool true);
                       (str "mensajes",
                        JArr (map json_de_info
                                  (mensajesEntrantes (estado w))))])),
       w)
  /\ getMensajesRecibidos req usuario limpiar env (snd r) = r
  /\ (forall w2,
         fst (getMensajesRecibidos req usuario limpiar env w2) = fst r ->
         mensajesEntrantes (estado w2) = mensajesEntrantes (estado w)).
Proof.
  intros Hl.
  assert (E : es_cadena_true limpiar = false).
  { destruct limpiar; try reflexivity. simpl.
    apply jseqb_neq. intros ->. apply Hl. reflexivity. }
  assert (Hrun : forall w0,
             getMensajesRecibidos req usuario limpiar env w0
             = (inr (res_json
                       (objeto [(str "exito", JBool true);
                                (str "mensajes",
                                 JArr (map json_de_info
                                         (mensajesEntrantes (estado w0))))])),
                w0)).
  { intros w0. unfold getMensajesRecibidos. rewrite E. reflexivity. }
  cbv zeta. rewrite (Hrun w). cbn [fst snd].
  split; [reflexivity|]. split; [apply Hrun|].
  intros w2 H. rewrite (Hrun w2) in H. cbn [fst] in H.
  injection H as H. apply map_json_de_info_inyectiva. exact H.
Qed.

Lemma X19_lectura_sin_limpiar_witness :
  let w := {| estado := conMensajes estadoInicial [Ejemplo.unRegistro];
              traza := [] |} in
  getMensajesRecibidos
    (Ejemplo.peticion (GetMensajesRecibidos (JStr (str "TRUE"))) None)
    Ejemplo.unUsuario (JStr (str "TRUE")) Ejemplo.entorno w
  = (inr (res_json
            (objeto [(str "exito", JBool true);
                     (str "mensajes",
                      JArr (map json_de_info
                                (mensajesEntrantes (estado w))))])),
     w).
Proof.
  intros w.
  apply (proj1 (@X19_lectura_sin_limpiar
                  (Ejemplo.peticion
                     (GetMensajesRecibidos (JStr (str "TRUE"))) None)
                  Ejemplo.unUsuario (JStr (str "TRUE")) Ejemplo.entorno w
                  ltac:(discriminate))).
Defined.

(** ** Attachments that are turned down *)

Section adjuntos.
#[local] Opaque limpiarCadena str validarNumeroTelefono endsWith cadena_de_Z.

Ltac casos_envio :=
  unfold ejecutar, enviarMensaje, intentar, bind, llamar, ret, leerEntorno;
  cbn [estado traza app negb andb];
  repeat match goal with
         | |- context [match ?x with _ => _ end] =>
             lazymatch x with
             | context [match _ with _ => _ end] => fail
             | _ => destruct x eqn:?; cbn [negb andb]
             end
         | |- context [if ?x then _ else _] =>
             lazymatch x with
             | context [if _ then _ else _] => fail
             | context [match _ with _ => _ end] => fail
             | _ => destruct x eqn:?; cbn [negb andb]
             end
         end;
  cbn [fst snd estado traza app].

Ltac sin_llamada :=
  let H := fresh "H" in
  intros H; cbn [In] in H;
  repeat (destruct H as [H|H]; [discriminate H|]); contradiction.

Lemma adjunto_inexistente env st req usuario c r0 r :
  option_map limpiarCadena (ce_rutaArchivo c) = Some (r0 :: r) ->
  existsSync env (path_resolve env (r0 :: r)) = false ->
  exists resp w',
    ejecutar (enviarMensaje req usuario c) env st = (inr resp, w')
    /\ (In (LlExistsSync (path_resolve env (r0 :: r))) (traza w') ->
        resp = error400 (str "El archivo no existe"))
    /\ (forall ll, In ll (traza w') ->
                   match ll with
                   | LlStatSync _ | LlFromFilePath _ | LlSendMessage _ _ =>
                       False
                   | _ => True
                   end).
Proof.
  intros Hr Hex. unfold ejecutar, enviarMensaje. rewrite Hr.
  casos_envio;
    try match goal with
        | H : negb (existsSync _ _) = false |- _ =>
            rewrite Hex in H; discriminate H
        end;
    eexists _, _; (split; [reflexivity|]); cbn [traza];
    (split;
     [first [sin_llamada|intros _; reflexivity]
     |intros ll Hin; cbn [In] in Hin;
      repeat (destruct Hin as [Hin|Hin]; [subst ll; exact I|]);
      contradiction]).
Qed.

Lemma adjunto_demasiado_grande env st req usuario c r0 r (size : Z) :
  option_map limpiarCadena (ce_rutaArchivo c) = Some (r0 :: r) ->
  statSync_size env (path_resolve env (r0 :: r)) = inr size ->
  (MAX_FILE_SIZE env * 1024 * 1024 < size)%Z ->
  exists resp w',
    ejecutar (enviarMensaje req usuario c) env st = (inr resp, w')
    /\ (In (LlStatSync (path_resolve env (r0 :: r))) (traza w') ->
        resp = error400 (str "El archivo es demasiado grande. Máximo "
                           ++ cadena_de_Z (MAX_FILE_SIZE env) ++ str "MB"))
    /\ (forall ll, In ll (traza w') ->
                   match ll with
                   | LlFromFilePath _ | LlSendMessage _ _ => False
                   | _ => True
                   end).
Proof.
  intros Hr Hst Hgt. apply Z.ltb_lt in Hgt.
  unfold ejecutar, enviarMensaje. rewrite Hr.
  casos_envio;
    try discriminate Hst;
    try (injection Hst as Hz; subst);
    try match goal with
        | H : (_ <? _)%Z = false |- _ => rewrite Hgt in H; discriminate H
        end;
    eexists _, _; (split; [reflexivity|]); cbn [traza];
    (split;
     [first [sin_llamada|intros _; reflexivity]
     |intros ll Hin; cbn [In] in Hin;
      repeat (destruct Hin as [Hin|Hin]; [subst ll; exact I|]);
      contradiction]).
Qed.
End adjuntos.

(** X20. An attachment that cannot be sent stops the request before the
    file is read.  When the resolved path does not exist, the handler
    never asks for the size of the file, never reads it and never calls
    [sendMessage], and once it has looked for the file it answers 400
    "El archivo no existe"; when the file is larger than the configured
    maximum, it never reads it and never calls [sendMessage], and once
    it has taken the size it answers 400 naming the maximum. *)
Theorem X20_adjuntos_rechazados env st req usuario c r0 r :
  option_map limpiarCadena (ce_rutaArchivo c) = Some (r0 :: r) ->
  (existsSync env (path_resolve env (r0 :: r)) = false ->
   exists resp w',
     ejecutar (enviarMensaje req usuario c) env st = (inr resp, w')
     /\ (In (LlExistsSync (path_resolve env (r0 :: r))) (traza w') ->
         resp = error400 (str "El archivo no existe"))
     /\ (forall ll, In ll (traza w') ->
                    match ll with
                    | LlStatSync _ | LlFromFilePath _ | LlSendMessage _ _ =>
                        False
                    | _ => True
                    end))
  /\ (forall size,
         statSync_size env (path_resolve env (r0 :: r)) = inr size ->
         (MAX_FILE_SIZE env * 1024 * 1024 < size)%Z ->
         exists resp w',
           ejecutar (enviarMensaje req usuario c) env st = (inr resp, w')
           /\ (In (LlStatSync (path_resolve env (r0 :: r))) (traza w') ->
               resp = error400
                        (str "El archivo es demasiado grande. Máximo "
                           ++ cadena_de_Z (MAX_FILE_SIZE env) ++ str "MB"))
           /\ (forall ll, In ll (traza w') ->
                          match ll with
                          | LlFromFilePath _ | LlSendMessage _ _ => False
                          | _ => True
                          end)).
Proof.
  intros Hr. split.
  - intros Hex. apply adjunto_inexistente; assumption.
  - intros size Hst Hgt.
    apply adjunto_demasiado_grande with (size := size); assumption.
Qed.

Lemma X20_adjuntos_rechazados_witness :
  exists resp w',
    ejecutar (enviarMensaje
                (Ejemplo.peticion
                   (PostEnviarMensaje Ejemplo.envioSinArchivo) None)
                Ejemplo.unUsuario Ejemplo.envioSinArchivo)
             Ejemplo.entorno estadoInicial = (inr resp, w')
    /\ (In (LlExistsSync (str "/tmp/otra.png")) (traza w') ->
        resp = error400 (str "El archivo no existe")).
Proof.
  assert (Hr : option_map limpiarCadena
                 (ce_rutaArchivo Ejemplo.envioSinArchivo)
               = Some (47%N :: str "tmp/otra.png"))
    by (vm_compute; reflexivity).
  assert (Hex : existsSync Ejemplo.entorno
                  (path_resolve Ejemplo.entorno (47%N :: str "tmp/otra.png"))
                = false) by (vm_compute; reflexivity).
  destruct (proj1 (@X20_adjuntos_rechazados Ejemplo.entorno estadoInicial
                     (Ejemplo.peticion
                        (PostEnviarMensaje Ejemplo.envioSinArchivo) None)
                     Ejemplo.unUsuario Ejemplo.envioSinArchivo
                     47%N (str "tmp/otra.png") Hr) Hex)
    as (resp & w' & H1 & H2 & _).
  exists resp, w'. split; [exact H1|exact H2].
Defined.
